(** * pystac.item_collection: a shallow embedding of [ItemCollection]

    The development follows [pystac/item_collection.py].  Python objects
    live in a store indexed by references, so that identity ([is]),
    aliasing and in-place mutation are visible; the collaborators the
    module only consumes ([pystac.Item], [identify_stac_object_type],
    [StacIO], the href utilities) are the variables of one section. *)

From stdpp Require Import base numbers option list strings.

Set Warnings "-register-all".
Set Default Proof Using "Type".

(** ** Python values and JSON documents *)

(** A reference into the store. *)
Abbreviation loc := nat.

(** A Python value: an immutable scalar or a reference to an object of
    the store.  JSON numbers are kept to integers. *)
Inductive pyval : Type :=
  | VNone
  | VBool (b : bool)
  | VInt (z : Z)
  | VStr (s : string)
  | VRef (l : loc).

(** The structural content of a JSON-like value, sharing forgotten. *)
Inductive json : Type :=
  | JNull
  | JBool (b : bool)
  | JNum (z : Z)
  | JStr (s : string)
  | JList (js : list json)
  | JDict (kvs : list (string * json)).

(** The number of nested containers of a JSON value. *)
Fixpoint jdepth (j : json) : nat :=
  match j with
  | JList js => S (max_list (jdepth <$> js))
  | JDict kvs => S (max_list ((fun kv => jdepth kv.2) <$> kvs))
  | _ => 0
  end.

(** [pystac.STACObjectType] *)
Inductive STACObjectType : Type := CATALOG | COLLECTION | ITEM | ITEMCOLLECTION.

#[global] Instance pyval_eq_dec : EqDecision pyval.
Proof. solve_decision. Defined.

#[global] Instance STACObjectType_eq_dec : EqDecision STACObjectType.
Proof. solve_decision. Defined.

(** ** Insertion-ordered dictionaries

    A [dict] keeps its keys in insertion order; assigning to a key that is
    already there replaces the value and keeps the key's position. *)
Section Dict.
Context {V : Type}.

Fixpoint dict_get (k : string) (kvs : list (string * V)) : option V :=
  match kvs with
  | [] => None
  | (k', v) :: rest => if String.eqb k k' then Some v else dict_get k rest
  end.

(** [d[k] = v] *)
Fixpoint dict_set (k : string) (v : V) (kvs : list (string * V))
  : list (string * V) :=
  match kvs with
  | [] => [(k, v)]
  | (k', v') :: rest =>
      if String.eqb k k' then (k', v) :: rest
      else (k', v') :: dict_set k v rest
  end.

(** [d.update(other)], also what [**other] does inside a dict display. *)
Definition dict_update (kvs other : list (string * V)) : list (string * V) :=
  fold_left (fun d kv => dict_set kv.1 kv.2 d) other kvs.

Definition dict_keys (kvs : list (string * V)) : list string := kvs.*1.
End Dict.

(** [k not in ("features", "type")] *)
Definition not_reserved (k : string) : bool :=
  negb (String.eqb k "features" || String.eqb k "type").

(** ** The store *)

(** An object of the store; [S] is the state of a [pystac.Item]. *)
Inductive pyobj (S : Type) : Type :=
  | OList (xs : list pyval)
  | ODict (kvs : list (string * pyval))
  | OItem (st : S).
Arguments OList {S} xs.
Arguments ODict {S} kvs.
Arguments OItem {S} st.

(** ** A small implementation of the collaborators

    An Item reduced to its [id], with the parser and the type identifier
    reading the fields they need; the examples run the module on it. *)
Module Sample.
Definition ItemState : Type := string.
Definition ItemExn : Type := unit.
Definition IOExn : Type := unit.

Definition Item_to_dict (st : ItemState) : json :=
  JDict [("type", JStr "Feature"); ("id", JStr st)].

Definition Item_clone (st : ItemState) : ItemState := st.

Definition get_str (h : list (pyobj ItemState)) (d : pyval) (k : string)
  : option string :=
  match d with
  | VRef l =>
      match h !! l with
      | Some (ODict kvs) =>
          match dict_get k kvs with Some (VStr s) => Some s | _ => None end
      | _ => None
      end
  | _ => None
  end.

Definition Item_from_dict (h : list (pyobj ItemState)) (d : pyval)
  : ItemExn + ItemState :=
  match get_str h d "id" with Some s => inr s | None => inl () end.

Definition identify_stac_object_type (h : list (pyobj ItemState)) (d : pyval)
  : option STACObjectType :=
  match get_str h d "type" with
  | Some s =>
      if String.eqb s "FeatureCollection" then Some ITEMCOLLECTION
      else if String.eqb s "Feature" then Some ITEM
      else if String.eqb s "Catalog" then Some CATALOG
      else if String.eqb s "Collection" then Some COLLECTION
      else None
  | None => None
  end.

Definition is_absolute_href (href : string) : bool :=
  String.prefix "/" href.

Definition make_absolute_href (href : string) : string := "/" +:+ href.

(** A reader that knows one file, a collection of two features. *)
Definition read_file (href : string) : IOExn + json :=
  if String.eqb href "/items.json"
  then inr (JDict [("type", JStr "FeatureCollection");
                   ("features", JList [Item_to_dict "a"; Item_to_dict "b"]);
                   ("license", JStr "CC-BY")])
  else inl ().
End Sample.

Section ItemCollection.

(** *** Collaborators *)

(** The state of a [pystac.Item] and the exceptions its parser raises. *)
Variable ItemState : Type.
Variable ItemExn : Type.
(** Exceptions of [StacIO.read_json]. *)
Variable IOExn : Type.

(** The store: the objects allocated so far, indexed by reference. *)
Abbreviation heap := (list (pyobj ItemState)).

(** [Item.to_dict()] builds a new dictionary out of the item's state. *)
Variable Item_to_dict : ItemState -> json.
(** [Item.clone()] *)
Variable Item_clone : ItemState -> ItemState.
(** [Item.from_dict(d)] reads the object [d] refers to. *)
Variable Item_from_dict : heap -> pyval -> ItemExn + ItemState.
(** [identify_stac_object_type(d)]; [None] is Python's [None]. *)
Variable identify_stac_object_type : heap -> pyval -> option STACObjectType.
(** [pystac.utils] *)
Variable is_absolute_href : string -> bool.
Variable make_absolute_href : string -> string.

(** [pystac.StacIO], reduced to the method [from_file] calls. *)
Record StacIO : Type := { read_json : string -> IOExn + json }.
(** [StacIO.default()] *)
Variable StacIO_default : StacIO.

(** Propositional reasoning that leaves the collaborators alone. *)
Ltac ptauto :=
  try clear is_absolute_href; try clear make_absolute_href;
  try clear identify_stac_object_type; try clear Item_from_dict;
  try clear Item_to_dict; try clear Item_clone;
  tauto.

(** *** Exceptions and the store monad *)

Inductive exn : Type :=
  | STACTypeError (msg : string)
  | TypeError
  | AttributeError
  | RecursionError
  | ItemError (e : ItemExn)
  | IOError (e : IOExn).

Inductive res (A : Type) : Type :=
  | Ok (a : A)
  | Raise (e : exn).
Arguments Ok {A} a.
Arguments Raise {A} e.

(** A computation reads and extends the store; an exception keeps the
    store reached when it was raised. *)
Definition PyM (A : Type) : Type := heap -> res A * heap.

#[local] Instance PyM_ret : MRet PyM := fun A a h => (Ok a, h).
#[local] Instance PyM_bind : MBind PyM := fun A B f m h =>
  match m h with
  | (Ok a, h') => f a h'
  | (Raise e, h') => (Raise e, h')
  end.

Definition raise {A} (e : exn) : PyM A := fun h => (Raise e, h).

(** A new object gets the next free reference. *)
Definition alloc (o : pyobj ItemState) : PyM loc := fun h => (Ok (length h), h ++ [o]).

(** *** Building and reading JSON documents *)

(** A store-passing map over a list, left to right. *)
Definition mapS {A B : Type} (f : A -> heap -> B * heap)
  : list A -> heap -> list B * heap :=
  fix go (xs : list A) (h : heap) : list B * heap :=
    match xs with
    | [] => ([], h)
    | x :: xs' =>
        let '(y, h1) := f x h in
        let '(ys, h2) := go xs' h1 in
        (y :: ys, h2)
    end.

(** The object graph of a freshly built JSON-like value (what a JSON
    parser or [Item.to_dict] hands out): one new object per container. *)
Fixpoint build (j : json) (h : heap) : pyval * heap :=
  match j with
  | JNull => (VNone, h)
  | JBool b => (VBool b, h)
  | JNum z => (VInt z, h)
  | JStr s => (VStr s, h)
  | JList js =>
      let '(vs, h') := mapS build js h in
      (VRef (length h'), h' ++ [OList vs])
  | JDict kvs =>
      let '(vs, h') :=
        mapS (fun kv h => let '(v, h1) := build kv.2 h in ((kv.1, v), h1))
             kvs h in
      (VRef (length h'), h' ++ [ODict vs])
  end.

(** The structural content of a value, following at most [n] nested
    references; [None] when the value is deeper, cyclic, or reaches an
    object that is not JSON-like. *)
Fixpoint snap (n : nat) (h : heap) (v : pyval) : option json :=
  match v with
  | VNone => Some JNull
  | VBool b => Some (JBool b)
  | VInt z => Some (JNum z)
  | VStr s => Some (JStr s)
  | VRef l =>
      match n with
      | 0 => None
      | S n' =>
          match h !! l with
          | Some (OList xs) => JList <$> mapM (snap n' h) xs
          | Some (ODict kvs) =>
              JDict <$> mapM (fun kv => pair kv.1 <$> snap n' h kv.2) kvs
          | _ => None
          end
      end
  end.

(** *** Calls on collaborators and built-in objects *)

(** [isinstance(v, pystac.Item)], with the state of the item. *)
Definition item_state (h : heap) (v : pyval) : option ItemState :=
  match v with
  | VRef l => match h !! l with Some (OItem st) => Some st | _ => None end
  | _ => None
  end.

(** [item.clone()]: a new Item object. *)
Definition Item_clone_call (item : loc) : PyM loc := fun h =>
  match h !! item with
  | Some (OItem st) => alloc (OItem (Item_clone st)) h
  | _ => (Raise AttributeError, h)
  end.

Definition build_call (j : json) : PyM pyval := fun h =>
  let '(v, h') := build j h in (Ok v, h').

(** [item.to_dict()]: a newly built dictionary. *)
Definition Item_to_dict_call (item : loc) : PyM pyval := fun h =>
  match h !! item with
  | Some (OItem st) => build_call (Item_to_dict st) h
  | _ => (Raise AttributeError, h)
  end.

(** [pystac.Item.from_dict(d)]: a new Item object, or the parser's own
    exception. *)
Definition Item_from_dict_call (d : pyval) : PyM loc := fun h =>
  match Item_from_dict h d with
  | inr st => alloc (OItem st) h
  | inl e => (Raise (ItemError e), h)
  end.

(** Truth value of [v], as [or] tests it. *)
Definition truthy (h : heap) (v : pyval) : bool :=
  match v with
  | VNone => false
  | VBool b => b
  | VInt z => negb (z =? 0)%Z
  | VStr s => negb (String.eqb s "")
  | VRef l =>
      match h !! l with
      | Some (OList []) | Some (ODict []) => false
      | _ => true
      end
  end.

(** [d.items()]: the entries of a dictionary, in order; another object
    has no such method. *)
Definition dict_items (d : pyval) : PyM (list (string * pyval)) := fun h =>
  match d with
  | VRef l =>
      match h !! l with
      | Some (ODict kvs) => (Ok kvs, h)
      | Some (OList _) | Some (OItem _) => (Raise AttributeError, h)
      | None => (Raise AttributeError, h)
      end
  | _ => (Raise AttributeError, h)
  end.

(** [**d] inside a dict display: the entries of a dictionary, in order;
    another object is not a mapping. *)
Definition dict_unpack (d : pyval) : PyM (list (string * pyval)) := fun h =>
  match d with
  | VRef l =>
      match h !! l with
      | Some (ODict kvs) => (Ok kvs, h)
      | Some (OList _) | Some (OItem _) => (Raise TypeError, h)
      | None => (Raise TypeError, h)
      end
  | _ => (Raise TypeError, h)
  end.

(** The elements a [for] loop over [v] yields: those of a list, the keys
    of a dictionary, the characters of a string. *)
Definition py_iter (v : pyval) : PyM (list pyval) := fun h =>
  match v with
  | VRef l =>
      match h !! l with
      | Some (OList xs) => (Ok xs, h)
      | Some (ODict kvs) => (Ok (VStr <$> dict_keys kvs), h)
      | _ => (Raise TypeError, h)
      end
  | VStr s =>
      (Ok ((fun c => VStr (String c EmptyString)) <$> String.list_ascii_of_string s), h)
  | _ => (Raise TypeError, h)
  end.

(** [x in xs] for a list of Items.  Items define no [__eq__], so the
    test [e is x or e == x] is reference identity. *)
Definition py_in (x : pyval) (xs : list loc) : bool :=
  match x with
  | VRef l => bool_decide (l ∈ xs)
  | _ => false
  end.

(** *** [copy.deepcopy] *)

(** Objects already copied, as [id(x)] to copy. *)
Definition memo := list (loc * loc).

Fixpoint memo_get (l : loc) (m : memo) : option loc :=
  match m with
  | [] => None
  | (x, y) :: m' => if Nat.eqb l x then Some y else memo_get l m'
  end.

(** A copy threads the memo and the store, and stops without a result
    when it runs out of depth. *)
Definition CopyM (A : Type) : Type := memo -> heap -> option (A * memo * heap).

#[local] Instance CopyM_ret : MRet CopyM := fun A a m h => Some (a, m, h).
#[local] Instance CopyM_bind : MBind CopyM := fun A B f c m h =>
  match c m h with
  | Some (a, m', h') => f a m' h'
  | None => None
  end.

(** [y = []; memo[id(x)] = y] (or [{}]): a new empty container [o],
    registered as the copy of [l]. *)
Definition copy_start (l : loc) (o : pyobj ItemState) : CopyM loc :=
  fun m h => Some (length h, (l, length h) :: m, h ++ [o]).

(** The copy [y] receives its elements. *)
Definition copy_fill (y : loc) (o : pyobj ItemState) : CopyM pyval :=
  fun m h => Some (VRef y, m, <[y := o]> h).

(** [deepcopy(v, memo)], following at most [n] nested references.  A
    container is registered in the memo before its elements are copied
    and receives them afterwards; scalars are returned as they are.  An
    Item met on the way is copied into a new Item with the same state. *)
Fixpoint deepcopy_fuel (n : nat) (v : pyval) : CopyM pyval :=
  match v with
  | VRef l => fun m h =>
      match memo_get l m with
      | Some y => Some (VRef y, m, h)
      | None =>
          match n with
          | 0 => None
          | S n' =>
              match h !! l with
              | Some (OList xs) =>
                  (y ← copy_start l (OList []);
                   ys ← mapM (deepcopy_fuel n') xs;
                   copy_fill y (OList ys)) m h
              | Some (ODict kvs) =>
                  (y ← copy_start l (ODict []);
                   ys ← mapM (fun kv => x' ← deepcopy_fuel n' kv.2;
                                        mret (kv.1, x')) kvs;
                   copy_fill y (ODict ys)) m h
              | Some (OItem st) =>
                  (y ← copy_start l (OItem st); mret (VRef y)) m h
              | None => None
              end
          end
      end
  | _ => mret v
  end.

(** [deepcopy(v)].  The depth of the recursion is bounded by the number
    of objects of the store. *)
Definition deepcopy (v : pyval) : PyM pyval := fun h =>
  match deepcopy_fuel (S (length h)) v [] h with
  | Some (v', _, h') => (Ok v', h')
  | None => (Raise RecursionError, h)
  end.

(** ** The class [ItemCollection] *)

Record ItemCollection : Type := {
  items : list loc;
  extra_fields : pyval;
}.

(** The operand of [+]: an instance of [ItemCollection] or any other
    object. *)
Inductive object : Type :=
  | ObjItemCollection (c : ItemCollection)
  | ObjOther (v : pyval).

(** What [__add__] returns. *)
Inductive add_result : Type :=
  | NotImplemented
  | AddValue (c : ItemCollection).

(** [map_item] of [__init__]: converts dicts to Items and clones if
    necessary. *)
Definition map_item (clone_items : bool) (item_or_dict : pyval) : PyM loc :=
  fun h =>
    match item_or_dict, item_state h item_or_dict with
    | VRef l, Some _ =>
        if clone_items then Item_clone_call l h else (Ok l, h)
    | _, _ => Item_from_dict_call item_or_dict h
    end.

(** [extra_fields or {}] *)
Definition or_empty_dict (extra_fields : pyval) : PyM pyval := fun h =>
  if truthy h extra_fields then (Ok extra_fields, h)
  else (Ok (VRef (length h)), h ++ [ODict []]).

(** [ItemCollection(items, extra_fields, clone_items)]; [extra_fields]
    is [VNone] when the argument is left out. *)
Definition __init__ (items : list pyval) (extra_fields : pyval)
    (clone_items : bool) : PyM ItemCollection :=
  its ← mapM (map_item clone_items) items;
  ef ← or_empty_dict extra_fields;
  mret {| items := its; extra_fields := ef |}.

Definition __len__ (self : ItemCollection) : nat := length (items self).

Definition __iter__ (self : ItemCollection) : list loc := items self.

Definition __contains__ (self : ItemCollection) (x : pyval) : bool :=
  py_in x (items self).

(** [IndexError: list index out of range] *)
Inductive IndexError : Type := list_index_out_of_range.

(** [self.items[idx]]: a negative index counts from the end of the list;
    an index outside the list raises. *)
Definition __getitem__ (self : ItemCollection) (idx : Z) : IndexError + loc :=
  let n := Z.of_nat (length (items self)) in
  let i := if (idx <? 0)%Z then (idx + n)%Z else idx in
  if ((0 <=? i) && (i <? n))%Z then
    match items self !! Z.to_nat i with
    | Some item => inr item
    | None => inl list_index_out_of_range
    end
  else inl list_index_out_of_range.

(** The loop of [__add__], started with [combined]: each item is
    appended unless it is already in the list built so far. *)
Definition add_loop (combined : list loc) (xs : list loc) : list loc :=
  fold_left
    (fun combined item =>
       if negb (py_in (VRef item) combined) then combined ++ [item]
       else combined)
    xs combined.

Definition __add__ (self : ItemCollection) (other : object)
  : PyM add_result :=
  match other with
  | ObjOther _ => mret NotImplemented
  | ObjItemCollection other =>
      let combined := add_loop [] (items self ++ items other) in
      c ← __init__ (VRef <$> combined) VNone false;
      mret (AddValue c)
  end.

Definition to_dict (self : ItemCollection) : PyM pyval :=
  features ← mapM Item_to_dict_call (items self);
  lf ← alloc (OList features);
  extra ← dict_unpack (extra_fields self);
  l ← alloc (ODict (dict_update
                      [("type", VStr "FeatureCollection");
                       ("features", VRef lf)] extra));
  mret (VRef l).

Definition clone (self : ItemCollection) : PyM ItemCollection :=
  its ← mapM Item_clone_call (items self);
  ef ← deepcopy (extra_fields self);
  __init__ (VRef <$> its) ef true.

(** The part of [from_dict] that follows the type check. *)
Definition from_dict_body (d : pyval) : PyM ItemCollection :=
  kvs ← dict_items d;
  empty ← alloc (OList []);
  features ← py_iter (default (VRef empty) (dict_get "features" kvs));
  its ← mapM Item_from_dict_call features;
  extra ← alloc (ODict (filter (fun kv => not_reserved kv.1) kvs));
  __init__ (VRef <$> its) (VRef extra) false.

Definition from_dict (d : pyval) : PyM ItemCollection := fun h =>
  if decide (identify_stac_object_type h d = Some ITEMCOLLECTION)
  then from_dict_body d h
  else (Raise (STACTypeError "Dict is not a valid ItemCollection"), h).

Definition from_file (href : string) (stac_io : option StacIO)
  : PyM ItemCollection :=
  let stac_io := default StacIO_default stac_io in
  let href := if is_absolute_href href then href
              else make_absolute_href href in
  match read_json stac_io href with
  | inl e => raise (IOError e)
  | inr j => d ← build_call j; from_dict d
  end.

(** ** Specification vocabulary *)

(** [v] denotes the JSON value [j] in the store [h]. *)
Definition represents (h : heap) (v : pyval) (j : json) : Prop :=
  exists n, snap n h v = Some j.

(** [l] refers to an Item. *)
Definition is_item (h : heap) (l : loc) : Prop :=
  exists st, h !! l = Some (OItem st).

(** The entries of the dictionary [v] refers to. *)
Definition dict_at (h : heap) (v : pyval) (kvs : list (string * pyval)) : Prop :=
  exists l, v = VRef l /\ h !! l = Some (ODict kvs) /\ NoDup (dict_keys kvs).

(** The serialization of the item [l] of the store [h0], as a value of
    a later store. *)
Definition serializes (h0 : heap) (l : loc) (v : pyval) (h : heap) : Prop :=
  exists st, h0 !! l = Some (OItem st) /\ represents h v (Item_to_dict st).

(** An element the constructor accepts: a typed Item, or a raw
    dictionary that [Item.from_dict] parses (in the store as it is and
    as it grows while the elements before it are converted). *)
Inductive item_like (h : heap) : pyval -> Prop :=
  | item_like_item l st :
      h !! l = Some (OItem st) -> item_like h (VRef l)
  | item_like_dict l kvs :
      h !! l = Some (ODict kvs) ->
      (forall h', h `prefix_of` h' ->
                  exists st, Item_from_dict h' (VRef l) = inr st) ->
      item_like h (VRef l).

(** How the constructor, started in [h] and finished in [h'], stores
    the element [x] as the item [l]: an Item is kept as the same
    reference, or cloned into a new object; anything else is parsed
    into a new object. *)
Definition stored (clone_items : bool) (h h' : heap) (x : pyval) (l : loc)
  : Prop :=
  match x, item_state h x with
  | VRef l0, Some st =>
      if clone_items
      then length h <= l /\ h' !! l = Some (OItem (Item_clone st))
      else l = l0
  | _, _ =>
      length h <= l /\
      exists h1 st, h `prefix_of` h1 /\ h1 `prefix_of` h' /\
                    Item_from_dict h1 x = inr st /\
                    h' !! l = Some (OItem st)
  end.

(** The values an object holds. *)
Definition obj_vals (o : pyobj ItemState) : list pyval :=
  match o with
  | OList xs => xs
  | ODict kvs => kvs.*2
  | OItem _ => []
  end.

(** The object with [f] applied to the values it holds. *)
Definition obj_map (f : pyval -> pyval) (o : pyobj ItemState)
  : pyobj ItemState :=
  match o with
  | OList xs => OList (f <$> xs)
  | ODict kvs => ODict (prod_map id f <$> kvs)
  | OItem st => OItem st
  end.

(** A scalar, or a reference that satisfies [P]. *)
Definition val_in (P : loc -> Prop) (v : pyval) : Prop :=
  match v with VRef l => P l | _ => True end.

(** No object of the store holds a dangling reference. *)
Definition closed (h : heap) : Prop :=
  forall l o, h !! l = Some o ->
              Forall (val_in (fun l' => l' < length h)) (obj_vals o).

(** The copy of a value according to the memo. *)
Definition rename (m : memo) (v : pyval) : pyval :=
  match v with
  | VRef a => match memo_get a m with Some b => VRef b | None => v end
  | _ => v
  end.

(** Every entry of [m] is an entry of [m']. *)
Definition memo_le (m m' : memo) : Prop :=
  forall a b, memo_get a m = Some b -> memo_get a m' = Some b.

Definition in_memo (m : memo) (a : loc) : Prop := is_Some (memo_get a m).

(** The object [b] of [h] is the finished copy of the object [a] of
    [h0]: it holds the copies of the values [a] holds. *)
Definition copied (h0 : heap) (m : memo) (h : heap) (a b : loc) : Prop :=
  exists o, h0 !! a = Some o /\
            Forall (val_in (in_memo m)) (obj_vals o) /\
            h !! b = Some (obj_map (rename m) o).

(** What holds of the memo [m] and the store [h] while [deepcopy]
    copies values of the store [h0]: the objects of [h0] are untouched,
    the memo sends objects of [h0] to objects made since, each at most
    once, and the objects made since hold no reference into [h0]. *)
Record copy_inv (h0 : heap) (m : memo) (h : heap) : Prop := {
  inv_prefix : h0 `prefix_of` h;
  inv_keys : NoDup m.*1;
  inv_memo : forall a b, memo_get a m = Some b ->
                         a < length h0 /\ length h0 <= b < length h;
  inv_new : forall b o, length h0 <= b -> h !! b = Some o ->
              Forall (val_in (fun l => length h0 <= l)) (obj_vals o);
}.

(** What a copy of [v], started with [m] and [h], ends with: [v'] is
    the copy of [v]; the store has only grown; the memo has only grown,
    and each of its new entries leads to a finished copy made since. *)
Definition copy_post (h0 : heap) (m : memo) (h : heap) (v v' : pyval)
    (m' : memo) (h' : heap) : Prop :=
  copy_inv h0 m' h' /\ h `prefix_of` h' /\
  memo_le m m' /\ length m <= length m' /\
  v' = rename m' v /\ val_in (in_memo m') v /\
  (forall a b, memo_get a m' = Some b -> memo_get a m = None ->
               length h <= b /\ copied h0 m' h' a b).

(** The extra fields of [c] are a dictionary without the keys of the
    structural fields. *)
Definition reserved_free (h : heap) (c : ItemCollection) : Prop :=
  exists l kvs, extra_fields c = VRef l /\ h !! l = Some (ODict kvs) /\
                ("type" ∉ dict_keys kvs) /\ ("features" ∉ dict_keys kvs).

(** Errors raised by the module itself rather than by a collaborator. *)
Definition is_STACTypeError (e : exn) : Prop :=
  match e with STACTypeError _ => True | _ => False end.

(** Entry by entry: same key, and the value denotes the JSON value. *)
Definition represents_entry (h : heap) (kv : string * pyval)
    (kj : string * json) : Prop :=
  kv.1 = kj.1 /\ represents h kv.2 kj.2.

(** How [from_dict] stores the feature [f], parsed somewhere between
    the stores [h] and [h'], as the new Item [l]. *)
Definition parsed (h h' : heap) (f : pyval) (l : loc) : Prop :=
  length h <= l /\
  exists h1 st, h `prefix_of` h1 /\ h1 `prefix_of` h' /\
                Item_from_dict h1 f = inr st /\ h' !! l = Some (OItem st).

(** The features [from_dict] iterates over: those of the list bound to
    ["features"], or none when the key is missing. *)
Definition features_of (h : heap) (kvs : list (string * pyval))
    (fs : list pyval) : Prop :=
  py_iter (default (VRef (length h)) (dict_get "features" kvs))
          (h ++ [OList []]) = (Ok fs, h ++ [OList []]).

(** The collection and the store [from_dict] ends with, once the
    features are parsed into [its] in the store [h3]: the extra fields
    are a new dictionary with the entries that are not reserved. *)
Definition from_dict_result (kvs : list (string * pyval)) (its : list loc)
    (h3 : heap) : ItemCollection * heap :=
  match filter (fun kv => not_reserved kv.1) kvs with
  | [] => ({| items := its; extra_fields := VRef (S (length h3)) |},
           h3 ++ [ODict []; ODict []])
  | extra => ({| items := its; extra_fields := VRef (length h3) |},
              h3 ++ [ODict extra])
  end.

(** The objects made since the store had [n0] objects hold no
    reference to an older object. *)
Definition separate (n0 : nat) (h : heap) : Prop :=
  forall l o, n0 <= l -> h !! l = Some o ->
              Forall (val_in (fun l' => n0 <= l')) (obj_vals o).

(** The states of a list of Items. *)
Definition item_states (h : heap) (ls : list loc) (sts : list ItemState)
  : Prop :=
  Forall2 (fun l st => h !! l = Some (OItem st)) ls sts.

(** The objects a loop of [Item.clone()] calls adds. *)
Definition clones (sts : list ItemState) : heap :=
  (fun st => OItem (Item_clone st)) <$> sts.

(** [Item.from_dict] accepts [f], in [h] and in every store [h] grows
    into. *)
Definition parseable (h : heap) (f : pyval) : Prop :=
  forall h', h `prefix_of` h' -> exists st, Item_from_dict h' f = inr st.

(** A value a [for] loop cannot iterate over: [None], a boolean or a
    number. *)
Definition not_iterable (v : pyval) : Prop :=
  match v with
  | VNone | VBool _ | VInt _ => True
  | VStr _ | VRef _ => False
  end.

(** ** Dictionaries *)

Lemma dict_get_None {V} (k : string) (kvs : list (string * V)) :
  dict_get k kvs = None <-> k ∉ dict_keys kvs.
Proof.
  unfold dict_keys. induction kvs as [|[k' v] kvs IH]; csimpl.
  - split; [intros _; apply not_elem_of_nil | reflexivity].
  - rewrite not_elem_of_cons. destruct (String.eqb_spec k k') as [->|Hne].
    + split; [discriminate | intros [[] _]; reflexivity].
    + rewrite IH. ptauto.
Qed.

Lemma dict_get_Some_key {V} (k : string) (v : V) (kvs : list (string * V)) :
  dict_get k kvs = Some v -> k ∈ dict_keys kvs.
Proof.
  intros Hget. destruct (decide (k ∈ dict_keys kvs)) as [|Hn]; [assumption|].
  apply dict_get_None in Hn. congruence.
Qed.

Lemma dict_set_new {V} (k : string) (v : V) (kvs : list (string * V)) :
  k ∉ dict_keys kvs -> dict_set k v kvs = kvs ++ [(k, v)].
Proof.
  unfold dict_keys. induction kvs as [|[k' v'] kvs IH]; csimpl; [reflexivity|].
  rewrite not_elem_of_cons. intros [Hne Hnin].
  destruct (String.eqb_spec k k'); [contradiction|]. by rewrite IH.
Qed.

Lemma dict_keys_set {V} (k : string) (v : V) (kvs : list (string * V)) :
  k ∈ dict_keys kvs -> dict_keys (dict_set k v kvs) = dict_keys kvs.
Proof.
  unfold dict_keys. induction kvs as [|[k' v'] kvs IH]; csimpl.
  - intros H. by apply elem_of_nil in H.
  - intros Hin. destruct (String.eqb_spec k k') as [->|Hne]; [reflexivity|].
    csimpl. f_equal. apply IH. apply elem_of_cons in Hin as [?|?]; done.
Qed.

Lemma dict_get_set {V} (k k' : string) (v : V) (kvs : list (string * V)) :
  dict_get k' (dict_set k v kvs) =
    if String.eqb k' k then Some v else dict_get k' kvs.
Proof.
  induction kvs as [|[k0 v0] kvs IH]; csimpl.
  - destruct (String.eqb_spec k' k); reflexivity.
  - destruct (String.eqb_spec k k0) as [->|Hne]; csimpl.
    + destruct (String.eqb_spec k' k0); reflexivity.
    + destruct (String.eqb_spec k' k0) as [->|Hne'].
      * destruct (String.eqb_spec k0 k); [congruence | reflexivity].
      * apply IH.
Qed.

(** Updating with entries whose keys are new appends them in order. *)
Lemma dict_update_new {V} (kvs other : list (string * V)) :
  NoDup (dict_keys other) ->
  (forall k, k ∈ dict_keys other -> k ∉ dict_keys kvs) ->
  dict_update kvs other = kvs ++ other.
Proof.
  unfold dict_update, dict_keys. revert kvs.
  induction other as [|[k v] other IH]; intros kvs Hnd Hnew; csimpl.
  - by rewrite app_nil_r.
  - apply NoDup_cons in Hnd as [Hk Hnd].
    rewrite dict_set_new by (apply Hnew; csimpl; left).
    rewrite IH; [by rewrite <- app_assoc | assumption |].
    intros k' Hk'. rewrite fmap_app, elem_of_app. csimpl.
    intros [Hin|Hin%list_elem_of_singleton].
    + revert Hin. apply Hnew. csimpl. by right.
    + by subst.
Qed.

(** The entries of [other] win over those of the updated dictionary. *)
Lemma dict_get_update {V} (k : string) (kvs other : list (string * V)) :
  NoDup (dict_keys other) ->
  dict_get k (dict_update kvs other) =
    match dict_get k other with
    | Some v => Some v
    | None => dict_get k kvs
    end.
Proof.
  unfold dict_update, dict_keys. revert kvs.
  induction other as [|[k' v] other IH]; intros kvs Hnd; csimpl; [reflexivity|].
  apply NoDup_cons in Hnd as [Hk Hnd]. rewrite IH by assumption.
  rewrite dict_get_set. destruct (String.eqb_spec k k') as [->|Hne].
  - apply (dict_get_None k' other) in Hk. by rewrite Hk.
  - reflexivity.
Qed.

Lemma dict_keys_update_present {V} (kvs other : list (string * V)) :
  (forall k, k ∈ dict_keys other -> k ∈ dict_keys kvs) ->
  dict_keys (dict_update kvs other) = dict_keys kvs.
Proof.
  unfold dict_update. revert kvs.
  induction other as [|[k v] other IH]; intros kvs Hin; csimpl; [reflexivity|].
  assert (Hk : k ∈ dict_keys kvs) by (apply Hin; unfold dict_keys; csimpl; left).
  rewrite IH; [by apply dict_keys_set|].
  intros k' Hk'. rewrite dict_keys_set by assumption.
  apply Hin. unfold dict_keys in *. csimpl. by right.
Qed.

(** Extra fields without reserved keys come after the structural
    entries of the document, which they leave as they are. *)
Lemma structural_keys_first {V} (t f : V) (kvs : list (string * V)) :
  NoDup (dict_keys kvs) ->
  "type" ∉ dict_keys kvs -> "features" ∉ dict_keys kvs ->
  dict_update [("type", t); ("features", f)] kvs =
    ("type", t) :: ("features", f) :: kvs.
Proof.
  intros Hnd Htype Hfeat. rewrite dict_update_new; [done | done |].
  intros k Hk Hin. unfold dict_keys in Hin. csimpl in Hin.
  apply elem_of_cons in Hin as [->|Hin]; [done|].
  apply list_elem_of_singleton in Hin as ->. done.
Qed.

Lemma dict_keys_filter_not_reserved {V} (kvs : list (string * V)) :
  ("type" ∉ dict_keys (filter (fun kv => not_reserved kv.1) kvs)) /\
  ("features" ∉ dict_keys (filter (fun kv => not_reserved kv.1) kvs)).
Proof.
  unfold dict_keys.
  split; intros ([k v] & Hk & Hin%list_elem_of_filter)%list_elem_of_fmap;
    csimpl in *; subst k; destruct Hin as [Hres _]; exact Hres.
Qed.

Lemma filter_not_reserved_id {V} (kvs : list (string * V)) :
  "type" ∉ dict_keys kvs -> "features" ∉ dict_keys kvs ->
  filter (fun kv => not_reserved kv.1) kvs = kvs.
Proof.
  unfold dict_keys. induction kvs as [|[k v] kvs IH]; csimpl; [reflexivity|].
  rewrite !not_elem_of_cons. intros [Ht Hts] [Hf Hfs].
  rewrite filter_cons_True.
  - by rewrite IH.
  - csimpl. unfold not_reserved.
    destruct (String.eqb_spec k "features"); [congruence|].
    destruct (String.eqb_spec k "type"); [congruence|]. exact I.
Qed.

(** ** Reasoning about store computations *)

Lemma bind_run {A B} (m : PyM A) (f : A -> PyM B) (h : heap) :
  (m ≫= f) h =
    match m h with
    | (Ok a, h') => f a h'
    | (Raise e, h') => (Raise e, h')
    end.
Proof. reflexivity. Qed.

Lemma mapM_run_cons {A B} (f : A -> PyM B) (x : A) (xs : list A) (h : heap) :
  mapM f (x :: xs) h =
    match f x h with
    | (Ok y, h1) =>
        match mapM f xs h1 with
        | (Ok ys, h2) => (Ok (y :: ys), h2)
        | (Raise e, h2) => (Raise e, h2)
        end
    | (Raise e, h1) => (Raise e, h1)
    end.
Proof.
  cbn. rewrite bind_run. destruct (f x h) as [[y|e] h1]; [|reflexivity].
  rewrite bind_run. destruct (mapM f xs h1) as [[ys|e] h2]; reflexivity.
Qed.

Lemma alloc_run (o : pyobj ItemState) (h : heap) :
  alloc o h = (Ok (length h), h ++ [o]).
Proof. reflexivity. Qed.

Lemma dict_items_run (l : loc) (h : heap) kvs :
  h !! l = Some (ODict kvs) -> dict_items (VRef l) h = (Ok kvs, h).
Proof. intros Hl. unfold dict_items. by rewrite Hl. Qed.

Lemma dict_unpack_run (l : loc) (h : heap) kvs :
  h !! l = Some (ODict kvs) -> dict_unpack (VRef l) h = (Ok kvs, h).
Proof. intros Hl. unfold dict_unpack. by rewrite Hl. Qed.

Lemma mapM_raises {A B} (f : A -> PyM B) (P : exn -> Prop) :
  (forall x h e h', f x h = (Raise e, h') -> P e) ->
  forall xs h e h', mapM f xs h = (Raise e, h') -> P e.
Proof.
  intros Hf xs. induction xs as [|x xs IH]; intros h e h' Hrun.
  - discriminate.
  - rewrite mapM_run_cons in Hrun.
    destruct (f x h) as [[y|e1] h1] eqn:Ef.
    + destruct (mapM f xs h1) as [[ys|e2] h2] eqn:Em; [discriminate|].
      injection Hrun as -> ->. eauto.
    + injection Hrun as -> ->. eauto.
Qed.

Lemma Item_from_dict_call_raises d h e h' :
  Item_from_dict_call d h = (Raise e, h') -> ~ is_STACTypeError e.
Proof.
  unfold Item_from_dict_call, alloc.
  destruct (Item_from_dict h d); intros [= <- <-]; simpl; ptauto.
Qed.

Lemma map_item_false_raises v h e h' :
  map_item false v h = (Raise e, h') -> ~ is_STACTypeError e.
Proof.
  unfold map_item. intros Hrun.
  destruct v; try (eapply Item_from_dict_call_raises; eassumption).
  destruct (item_state h (VRef l));
    [discriminate | eapply Item_from_dict_call_raises; eassumption].
Qed.

Lemma init_false_raises xs ef h e h' :
  __init__ xs ef false h = (Raise e, h') -> ~ is_STACTypeError e.
Proof.
  unfold __init__. rewrite bind_run.
  destruct (mapM (map_item false) xs h) as [[its|e1] h1] eqn:Em.
  - rewrite bind_run. unfold or_empty_dict.
    destruct (truthy h1 ef); discriminate.
  - intros [= <- <-]. revert Em.
    apply (mapM_raises _ (fun e => ~ is_STACTypeError e)).
    apply map_item_false_raises.
Qed.

Lemma from_dict_body_raises d h e h' :
  from_dict_body d h = (Raise e, h') -> ~ is_STACTypeError e.
Proof.
  unfold from_dict_body. rewrite bind_run.
  destruct (dict_items d h) as [[kvs|e1] h1] eqn:Ed.
  - rewrite bind_run. unfold alloc at 1. rewrite bind_run.
    destruct (py_iter _ _) as [[fs|e2] h2] eqn:Ei.
    + rewrite bind_run.
      destruct (mapM Item_from_dict_call fs h2) as [[its|e3] h3] eqn:Em.
      * rewrite bind_run. cbn [alloc]. apply init_false_raises.
      * intros [= <- <-]. revert Em.
        apply (mapM_raises _ (fun e => ~ is_STACTypeError e)).
        apply Item_from_dict_call_raises.
    + intros [= <- <-]. unfold py_iter in Ei.
      repeat case_match; simplify_eq; simpl; ptauto.
  - intros [= <- <-]. unfold dict_items in Ed.
    repeat case_match; simplify_eq; simpl; ptauto.
Qed.

(** ** JSON values in the store *)

Lemma json_ind' (P : json -> Prop) :
  P JNull -> (forall b, P (JBool b)) -> (forall z, P (JNum z)) ->
  (forall s, P (JStr s)) ->
  (forall js, Forall P js -> P (JList js)) ->
  (forall kvs, Forall (fun kv => P kv.2) kvs -> P (JDict kvs)) ->
  forall j, P j.
Proof.
  intros Hnull Hbool Hnum Hstr Hlist Hdict.
  fix IH 1. intros [|b|z|s|js|kvs].
  - exact Hnull.
  - apply Hbool.
  - apply Hnum.
  - apply Hstr.
  - apply Hlist. induction js as [|j js IHjs]; constructor;
      [apply IH | exact IHjs].
  - apply Hdict. induction kvs as [|[k j] kvs IHkvs]; constructor;
      [apply IH | exact IHkvs].
Qed.

Lemma snap_fuel_mono n h v j :
  snap n h v = Some j -> forall m, n <= m -> snap m h v = Some j.
Proof.
  revert v j. induction n as [|n IH]; intros v j Hs m Hle;
    destruct v; try (by destruct m); simpl in Hs; try done.
  destruct m as [|m]; [lia|]. simpl.
  destruct (h !! l) as [[xs|kvs|st]|]; try done.
  - apply fmap_Some in Hs as (js & Hjs & ->). apply fmap_Some.
    exists js. split; [|done]. apply mapM_Some in Hjs. apply mapM_Some.
    eapply Forall2_impl; [exact Hjs|]. intros x y Hx. apply IH; [done|lia].
  - apply fmap_Some in Hs as (js & Hjs & ->). apply fmap_Some.
    exists js. split; [|done]. apply mapM_Some in Hjs. apply mapM_Some.
    eapply Forall2_impl; [exact Hjs|]. intros x y Hx.
    apply fmap_Some in Hx as (j' & Hj' & ->). apply fmap_Some.
    exists j'. split; [|done]. apply IH; [done|lia].
Qed.

(** What [snap] reads is still there in a store that keeps every object
    of [h]. *)
Lemma snap_keep n h h' v j :
  (forall l o, h !! l = Some o -> h' !! l = Some o) ->
  snap n h v = Some j -> snap n h' v = Some j.
Proof.
  intros Hkeep. revert v j. induction n as [|n IH]; intros v j Hs;
    destruct v; simpl in *; try done.
  destruct (h !! l) as [o|] eqn:Hl; [|done].
  rewrite (Hkeep _ _ Hl). destruct o as [xs|kvs|st]; try done.
  - apply fmap_Some in Hs as (js & Hjs & ->). apply fmap_Some.
    exists js. split; [|done]. apply mapM_Some in Hjs. apply mapM_Some.
    eapply Forall2_impl; [exact Hjs|]. intros x y Hx. by apply IH.
  - apply fmap_Some in Hs as (js & Hjs & ->). apply fmap_Some.
    exists js. split; [|done]. apply mapM_Some in Hjs. apply mapM_Some.
    eapply Forall2_impl; [exact Hjs|]. intros x y Hx.
    apply fmap_Some in Hx as (j' & Hj' & ->). apply fmap_Some.
    exists j'. split; [|done]. by apply IH.
Qed.

Lemma snap_prefix n h h' v j :
  h `prefix_of` h' -> snap n h v = Some j -> snap n h' v = Some j.
Proof.
  intros Hpre. apply snap_keep. intros l o Hl.
  by eapply prefix_lookup_Some.
Qed.

Lemma represents_prefix h h' v j :
  h `prefix_of` h' -> represents h v j -> represents h' v j.
Proof. intros Hpre [n Hn]. exists n. by eapply snap_prefix. Qed.

Lemma represents_det h v j j' :
  represents h v j -> represents h v j' -> j = j'.
Proof.
  intros [n Hn] [m Hm].
  pose proof (snap_fuel_mono _ _ _ _ Hn (n `max` m) ltac:(lia)) as H1.
  pose proof (snap_fuel_mono _ _ _ _ Hm (n `max` m) ltac:(lia)) as H2.
  congruence.
Qed.

(** Finitely many denotations fit under one depth. *)
Lemma represents_uniform {A B} (fv : A -> pyval) (fj : B -> json)
    (P : A -> B -> Prop) h xs ys :
  Forall2 (fun x y => P x y /\ represents h (fv x) (fj y)) xs ys ->
  exists n, Forall2 (fun x y => P x y /\ snap n h (fv x) = Some (fj y)) xs ys.
Proof.
  induction 1 as [|x y xs ys [HP [n Hn]] _ [m IH]].
  - exists 0. constructor.
  - exists (n `max` m). constructor.
    + split; [done|]. eapply snap_fuel_mono; [exact Hn | lia].
    + eapply Forall2_impl; [exact IH|]. intros x' y' [HP' Hs].
      split; [done|]. eapply snap_fuel_mono; [exact Hs | lia].
Qed.

Lemma represents_list h l vs js :
  h !! l = Some (OList vs) ->
  Forall2 (represents h) vs js -> represents h (VRef l) (JList js).
Proof.
  intros Hl Hvs.
  destruct (represents_uniform id id (fun _ _ => True) h vs js) as [n Hn].
  { eapply Forall2_impl; [exact Hvs|]. by intros. }
  exists (S n). simpl. rewrite Hl. apply fmap_Some. exists js.
  split; [|done]. apply mapM_Some.
  eapply Forall2_impl; [exact Hn|]. by intros v j [_ Hs].
Qed.

Lemma represents_dict h l kvs jkvs :
  h !! l = Some (ODict kvs) ->
  Forall2 (represents_entry h) kvs jkvs -> represents h (VRef l) (JDict jkvs).
Proof.
  intros Hl Hkvs.
  destruct (represents_uniform snd snd (fun kv kj => kv.1 = kj.1) h kvs jkvs
              Hkvs) as [n Hn].
  exists (S n). simpl. rewrite Hl. apply fmap_Some. exists jkvs.
  split; [|done]. apply mapM_Some.
  eapply Forall2_impl; [exact Hn|]. intros [k v] [k' j] [Hk Hs].
  simpl in *. subst k'. apply fmap_Some. by exists j.
Qed.

Lemma represents_dict_inv h l kvs jkvs :
  represents h (VRef l) (JDict jkvs) -> h !! l = Some (ODict kvs) ->
  Forall2 (represents_entry h) kvs jkvs.
Proof.
  intros [n Hn] Hl. destruct n as [|n]; [done|]. simpl in Hn.
  rewrite Hl in Hn. apply fmap_Some in Hn as (jkvs' & Hm & [= ->]).
  apply mapM_Some in Hm. eapply Forall2_impl; [exact Hm|].
  intros [k v] [k' j] Hs. simpl in Hs.
  apply fmap_Some in Hs as (j' & Hs & [= -> ->]).
  split; [done|]. by exists n.
Qed.

Lemma represents_entry_prefix h h' kv kj :
  h `prefix_of` h' -> represents_entry h kv kj -> represents_entry h' kv kj.
Proof. intros Hpre [Hk Hv]. split; [done|]. by eapply represents_prefix. Qed.

Lemma Forall2_with_l {A B} (R Q : A -> B -> Prop) (P : A -> Prop) xs ys :
  Forall2 R xs ys -> Forall P xs ->
  (forall x y, R x y -> P x -> Q x y) -> Forall2 Q xs ys.
Proof.
  intros HR HP Himp. induction HR as [|x y xs ys Hxy HR IH]; [constructor|].
  apply Forall_cons in HP as [Hx HP]. constructor; auto.
Qed.

Lemma mapS_spec {A B} (f : A -> heap -> B * heap) (R : A -> B -> heap -> Prop) xs :
  (forall x y h h', R x y h -> h `prefix_of` h' -> R x y h') ->
  Forall (fun x => forall h, h `prefix_of` (f x h).2 /\ R x (f x h).1 (f x h).2) xs ->
  forall h, h `prefix_of` (mapS f xs h).2 /\
            Forall2 (fun x y => R x y (mapS f xs h).2) xs (mapS f xs h).1.
Proof.
  intros Hstable Hf. induction Hf as [|x xs Hx Hxs IH]; intros h; simpl.
  - split; [reflexivity | constructor].
  - destruct (Hx h) as [Hpre HR]. destruct (f x h) as [y h1]. simpl in *.
    destruct (IH h1) as [Hpre' HR']. destruct (mapS f xs h1) as [ys h2].
    simpl in *. split; [by etrans|]. constructor; [|assumption].
    by eapply Hstable.
Qed.

Lemma max_list_fmap_le {A} (f : A -> nat) (xs : list A) :
  Forall (fun x => f x <= max_list (f <$> xs)) xs.
Proof.
  apply Forall_forall. intros x Hx. apply max_list_elem_of_le.
  by apply list_elem_of_fmap_2.
Qed.

(** [build] only adds objects, and the value it returns denotes [j]. *)
Lemma build_spec j :
  forall h, h `prefix_of` (build j h).2 /\
            snap (jdepth j) (build j h).2 (build j h).1 = Some j.
Proof.
  induction j as [|b|z|s|js IH|kvs IH] using json_ind'; intros h;
    try (split; [reflexivity | done]).
  - pose proof (mapS_spec build (fun j v h => snap (jdepth j) h v = Some j) js)
      as Hmap.
    destruct (Hmap (fun x y h1 h2 Hs Hp => snap_prefix _ _ _ _ _ Hp Hs) IH h)
      as [Hpre HR].
    simpl. destruct (mapS build js h) as [vs h1]. simpl in *. split.
    + etrans; [exact Hpre|]. by apply prefix_app_r.
    + rewrite list_lookup_middle by done. apply fmap_Some. exists js.
      split; [|done]. apply mapM_Some.
      eapply Forall2_flip, Forall2_with_l;
        [exact HR | apply (max_list_fmap_le jdepth) |].
      intros j v Hs Hle. simpl.
      eapply snap_fuel_mono; [|exact Hle].
      eapply snap_prefix; [|exact Hs]. by apply prefix_app_r.
  - pose proof (mapS_spec
                  (fun kv h => let '(v, h1) := build kv.2 h in ((kv.1, v), h1))
                  (fun kv kv' h => kv'.1 = kv.1 /\
                                   snap (jdepth kv.2) h kv'.2 = Some kv.2) kvs)
      as Hmap.
    destruct (Hmap (fun x y h1 h2 Hs Hp =>
                      conj (proj1 Hs) (snap_prefix _ _ _ _ _ Hp (proj2 Hs)))) with (h := h)
      as [Hpre HR].
    { eapply Forall_impl; [exact IH|]. intros [k j] Hj h0. simpl in *.
      destruct (Hj h0) as [Hp Hs]. destruct (build j h0) as [v h1].
      simpl in *. done. }
    simpl. destruct (mapS _ kvs h) as [vs h1]. simpl in *. split.
    + etrans; [exact Hpre|]. by apply prefix_app_r.
    + rewrite list_lookup_middle by done. apply fmap_Some. exists kvs.
      split; [|done]. apply mapM_Some.
      eapply Forall2_flip, Forall2_with_l;
        [exact HR | apply (max_list_fmap_le (fun kv => jdepth kv.2)) |].
      intros [k j] [k' v] [Hk Hs] Hle. simpl in *. subst k'.
      apply fmap_Some. exists j. split; [|done].
      eapply snap_fuel_mono; [|exact Hle].
      eapply snap_prefix; [|exact Hs]. by apply prefix_app_r.
Qed.

Lemma build_call_spec j h :
  exists v h', build_call j h = (Ok v, h') /\ h `prefix_of` h' /\
               represents h' v j.
Proof.
  unfold build_call. destruct (build_spec j h) as [Hpre Hs].
  destruct (build j h) as [v h']. exists v, h'.
  split; [done|]. split; [done|]. by exists (jdepth j).
Qed.

(** ** The constructor *)

Lemma item_state_prefix h h' v st :
  h `prefix_of` h' -> item_state h v = Some st -> item_state h' v = Some st.
Proof.
  intros Hpre. destruct v as [| | | |l]; simpl; try done.
  destruct (h !! l) as [o|] eqn:Hl; [|done].
  rewrite (prefix_lookup_Some _ _ _ _ Hl Hpre). done.
Qed.

Lemma stored_prefix b h h1 h2 x l :
  h1 `prefix_of` h2 -> stored b h h1 x l -> stored b h h2 x l.
Proof.
  intros Hpre. unfold stored.
  assert (Hparse : (length h <= l /\
      exists h0 st, h `prefix_of` h0 /\ h0 `prefix_of` h1 /\
                    Item_from_dict h0 x = inr st /\
                    h1 !! l = Some (OItem st)) ->
      length h <= l /\
      exists h0 st, h `prefix_of` h0 /\ h0 `prefix_of` h2 /\
                    Item_from_dict h0 x = inr st /\
                    h2 !! l = Some (OItem st)).
  { intros (Hl & h0 & st & H0 & H1 & Hp & Hlk). split; [done|].
    exists h0, st. repeat split; try done; [by etrans|].
    by eapply prefix_lookup_Some. }
  destruct x; try exact Hparse.
  destruct (item_state h (VRef l0)); [|exact Hparse].
  destruct b; [|done]. intros [Hl Hlk]. split; [done|].
  by eapply prefix_lookup_Some.
Qed.

(** One element: [map_item] succeeds on an item-like and stores it as
    [stored] says. *)
Lemma map_item_spec b h0 h x :
  h0 `prefix_of` h -> item_like h0 x ->
  exists l h', map_item b x h = (Ok l, h') /\ h `prefix_of` h' /\
               stored b h0 h' x l.
Proof.
  intros Hpre Hlike. pose proof (prefix_length _ _ Hpre) as Hlen.
  destruct Hlike as [l0 st Hl0|l0 kvs Hl0 Hparse].
  - pose proof (prefix_lookup_Some _ _ _ _ Hl0 Hpre) as Hl.
    unfold map_item, stored, Item_clone_call, alloc. simpl.
    rewrite Hl0, Hl. destruct b.
    + eexists _, _. split; [reflexivity|].
      split; [by apply prefix_app_r|]. split; [lia|].
      by rewrite list_lookup_middle.
    + eexists _, _. split; [reflexivity|]. done.
  - pose proof (prefix_lookup_Some _ _ _ _ Hl0 Hpre) as Hl.
    destruct (Hparse h Hpre) as [st Hst].
    unfold map_item, stored, Item_from_dict_call, alloc. simpl.
    rewrite Hl0, Hl, Hst.
    eexists _, _. split; [reflexivity|].
    split; [by apply prefix_app_r|]. split; [lia|].
    exists h, st. repeat split; try done; [by apply prefix_app_r|].
    by rewrite list_lookup_middle.
Qed.

Lemma mapM_map_item_spec b h0 xs :
  Forall (item_like h0) xs ->
  forall h, h0 `prefix_of` h ->
  exists ls h', mapM (map_item b) xs h = (Ok ls, h') /\ h `prefix_of` h' /\
                Forall2 (stored b h0 h') xs ls.
Proof.
  induction 1 as [|x xs Hx Hxs IH]; intros h Hpre.
  - exists [], h. split; [reflexivity|]. split; [reflexivity | constructor].
  - destruct (map_item_spec b h0 h x Hpre Hx) as (l & h1 & Hrun & Hpre1 & Hst).
    destruct (IH h1) as (ls & h2 & Hrun' & Hpre2 & Hsts); [by etrans|].
    exists (l :: ls), h2. rewrite mapM_run_cons, Hrun, Hrun'.
    split; [reflexivity|]. split; [by etrans|].
    constructor; [|assumption]. by eapply stored_prefix.
Qed.

(** [extra_fields or {}]: the argument itself when it is a non-empty
    dictionary, a new empty dictionary when it is [None] or empty. *)
Lemma or_empty_dict_spec ef h :
  exists v h', or_empty_dict ef h = (Ok v, h') /\ h `prefix_of` h' /\
    ((truthy h ef = true /\ v = ef /\ h' = h) \/
     (truthy h ef = false /\ v = VRef (length h) /\ h' = h ++ [ODict []])).
Proof.
  unfold or_empty_dict. destruct (truthy h ef) eqn:Ht.
  - exists ef, h. split; [done|]. split; [done|]. by left.
  - eexists _, _. split; [done|]. split; [by apply prefix_app_r|]. by right.
Qed.

Lemma init_spec xs ef b h :
  Forall (item_like h) xs ->
  exists c h1 h', mapM (map_item b) xs h = (Ok (items c), h1) /\
    or_empty_dict ef h1 = (Ok (extra_fields c), h') /\
    __init__ xs ef b h = (Ok c, h') /\
    h `prefix_of` h1 /\ h1 `prefix_of` h' /\
    Forall2 (stored b h h') xs (items c).
Proof.
  intros Hxs.
  destruct (mapM_map_item_spec b h xs Hxs h) as (ls & h1 & Hrun & Hpre & Hst);
    [done|].
  destruct (or_empty_dict_spec ef h1) as (v & h' & Hrun' & Hpre' & _).
  exists {| items := ls; extra_fields := v |}, h1, h'. simpl.
  unfold __init__. rewrite bind_run, Hrun, bind_run, Hrun'.
  repeat split; try done.
  eapply Forall2_impl; [exact Hst|]. intros x l. by apply stored_prefix.
Qed.

(** A loop of calls that each succeed and only add objects. *)
Lemma mapM_spec {A B} (f : A -> PyM B) (R : A -> B -> heap -> Prop) h0 xs :
  (forall x y h h', R x y h -> h `prefix_of` h' -> R x y h') ->
  Forall (fun x => forall h, h0 `prefix_of` h ->
            exists y h', f x h = (Ok y, h') /\ h `prefix_of` h' /\ R x y h') xs ->
  forall h, h0 `prefix_of` h ->
  exists ys h', mapM f xs h = (Ok ys, h') /\ h `prefix_of` h' /\
                Forall2 (fun x y => R x y h') xs ys.
Proof.
  intros Hstable. induction 1 as [|x xs Hx Hxs IH]; intros h Hpre.
  - exists [], h. split; [reflexivity|]. split; [reflexivity | constructor].
  - destruct (Hx h Hpre) as (y & h1 & Hrun & Hpre1 & Hy).
    destruct (IH h1) as (ys & h2 & Hrun' & Hpre2 & Hys); [by etrans|].
    exists (y :: ys), h2. rewrite mapM_run_cons, Hrun, Hrun'.
    split; [reflexivity|]. split; [by etrans|].
    constructor; [|assumption]. by eapply Hstable.
Qed.

(** ** Serialization *)

Lemma mapM_Item_to_dict_spec h0 ls :
  Forall (is_item h0) ls ->
  forall h, h0 `prefix_of` h ->
  exists vs h', mapM Item_to_dict_call ls h = (Ok vs, h') /\
                h `prefix_of` h' /\
                Forall2 (fun l v => serializes h0 l v h') ls vs.
Proof.
  intros Hitems. apply mapM_spec.
  - intros l v h h' (st & Hl & Hrep) Hpre. exists st. split; [done|].
    by eapply represents_prefix.
  - eapply Forall_impl; [exact Hitems|]. intros l [st Hl] h Hpre.
    unfold Item_to_dict_call.
    rewrite (prefix_lookup_Some _ _ _ _ Hl Hpre).
    destruct (build_call_spec (Item_to_dict st) h) as (v & h' & Hrun & Hp & Hrep).
    exists v, h'. split; [done|]. split; [done|]. by exists st.
Qed.

(** [to_dict] on a well-formed collection: two new objects, the list of
    the items' serializations and the dictionary that holds the
    structural keys updated with the extra fields. *)
Lemma to_dict_spec c h kvs :
  Forall (is_item h) (items c) -> dict_at h (extra_fields c) kvs ->
  exists feats h1,
    mapM Item_to_dict_call (items c) h = (Ok feats, h1) /\
    h `prefix_of` h1 /\
    Forall2 (fun l v => serializes h l v h1) (items c) feats /\
    to_dict c h =
      (Ok (VRef (S (length h1))),
       h1 ++ [OList feats;
              ODict (dict_update [("type", VStr "FeatureCollection");
                                  ("features", VRef (length h1))] kvs)]).
Proof.
  intros Hitems (le & Hef & Hle & Hnd).
  destruct (mapM_Item_to_dict_spec h (items c) Hitems h)
    as (feats & h1 & Hrun & Hpre & Hfeats); [done|].
  exists feats, h1. repeat split; try done.
  assert (Hle1 : (h1 ++ [OList feats]) !! le = Some (ODict kvs)).
  { eapply prefix_lookup_Some; [exact Hle|].
    etrans; [exact Hpre|]. by apply prefix_app_r. }
  unfold to_dict. rewrite bind_run, Hrun, bind_run, alloc_run, bind_run.
  rewrite Hef, (dict_unpack_run _ _ _ Hle1), bind_run, alloc_run.
  cbn. rewrite length_app, <- app_assoc. simpl.
  by replace (length h1 + 1) with (S (length h1)) by lia.
Qed.

Lemma stored_is_item b h h' x l :
  h `prefix_of` h' -> item_like h x -> stored b h h' x l -> is_item h' l.
Proof.
  intros Hpre Hlike. unfold stored, is_item.
  destruct Hlike as [l0 st Hl0|l0 kvs Hl0 _]; simpl; rewrite Hl0.
  - destruct b.
    + intros [_ Hl]. eauto.
    + intros ->. exists st. by eapply prefix_lookup_Some.
  - intros (_ & h1 & st & _ & _ & _ & Hl). eauto.
Qed.

Lemma Forall2_Forall_r {A B} (R : A -> B -> Prop) (P : A -> Prop) (Q : B -> Prop)
    xs ys :
  Forall2 R xs ys -> Forall P xs -> (forall x y, P x -> R x y -> Q y) ->
  Forall Q ys.
Proof.
  intros HR HP Himp. induction HR as [|x y xs ys Hxy HR IH]; [constructor|].
  apply Forall_cons in HP as [Hx HP]. constructor; eauto.
Qed.

Lemma serializes_prefix h0 l v h h' :
  h `prefix_of` h' -> serializes h0 l v h -> serializes h0 l v h'.
Proof.
  intros Hpre (st & Hl & Hrep). exists st. split; [done|].
  by eapply represents_prefix.
Qed.

(** ** Combination *)

Lemma add_loop_cons combined x xs :
  add_loop combined (x :: xs) =
    add_loop (if decide (x ∈ combined) then combined else combined ++ [x]) xs.
Proof.
  unfold add_loop. simpl. unfold py_in.
  destruct (decide (x ∈ combined)) as [Hin|Hin].
  - by rewrite bool_decide_eq_true_2.
  - by rewrite bool_decide_eq_false_2.
Qed.

Lemma add_loop_app combined xs ys :
  add_loop combined (xs ++ ys) = add_loop (add_loop combined xs) ys.
Proof. unfold add_loop. apply fold_left_app. Qed.

Lemma add_loop_NoDup combined xs :
  NoDup combined -> NoDup (add_loop combined xs).
Proof.
  revert combined. induction xs as [|x xs IH]; intros combined Hnd; [done|].
  rewrite add_loop_cons. apply IH. case_decide; [done|].
  apply NoDup_app. split; [done|]. split; [|apply NoDup_singleton].
  intros y Hy ->%list_elem_of_singleton. done.
Qed.

Lemma add_loop_elem_of combined xs x :
  x ∈ add_loop combined xs <-> x ∈ combined \/ x ∈ xs.
Proof.
  revert combined. induction xs as [|y xs IH]; intros combined.
  - unfold add_loop. simpl. rewrite elem_of_nil. ptauto.
  - rewrite add_loop_cons, IH, elem_of_cons. case_decide as Hy.
    + split; [ptauto|]. intros [?|[->|?]]; ptauto.
    + rewrite elem_of_app, list_elem_of_singleton. ptauto.
Qed.

(** Items that are new and distinct are appended as they come. *)
Lemma add_loop_new combined xs :
  NoDup (combined ++ xs) -> add_loop combined xs = combined ++ xs.
Proof.
  revert combined. induction xs as [|x xs IH]; intros combined Hnd.
  - unfold add_loop. simpl. by rewrite app_nil_r.
  - rewrite add_loop_cons.
    apply NoDup_app in Hnd as Hnd'. destruct Hnd' as (_ & Hdisj & _).
    case_decide as Hx.
    + exfalso. apply (Hdisj x Hx). by left.
    + rewrite IH; rewrite <- app_assoc; done.
Qed.

(** Items already in the list built so far are skipped. *)
Lemma add_loop_filter n : forall combined xs,
  length xs <= n ->
  add_loop combined xs =
    combined ++ add_loop [] (filter (fun x => x ∉ combined) xs).
Proof.
  induction n as [|n IH]; intros combined xs Hlen.
  - destruct xs; [|simpl in Hlen; lia].
    unfold add_loop. simpl. by rewrite app_nil_r.
  - destruct xs as [|x xs]; [unfold add_loop; simpl; by rewrite app_nil_r|].
    simpl in Hlen. rewrite add_loop_cons. case_decide as Hx.
    + rewrite filter_cons_False by ptauto. apply IH. lia.
    + rewrite filter_cons_True by done. rewrite add_loop_cons.
      rewrite decide_False by apply not_elem_of_nil. simpl.
      rewrite (IH (combined ++ [x]) xs) by lia.
      rewrite (IH [x] (filter _ xs)).
      2:{ etrans; [apply length_filter|]. lia. }
      rewrite <- app_assoc. simpl. do 3 f_equal.
      rewrite list_filter_filter. apply list_filter_iff.
      intros y. rewrite elem_of_app. ptauto.
Qed.

(** With cloning disabled the constructor keeps a list of Items as it
    is. *)
Lemma mapM_map_item_items ls h :
  Forall (is_item h) ls ->
  mapM (map_item false) (VRef <$> ls) h = (Ok ls, h).
Proof.
  induction 1 as [|l ls [st Hl] Hls IH]; [done|].
  rewrite fmap_cons, mapM_run_cons. unfold map_item at 1. simpl.
  by rewrite Hl, IH.
Qed.

(** ** Parsing *)

Lemma dict_items_inv d h r h' :
  dict_items d h = (Ok r, h') ->
  exists l, d = VRef l /\ h !! l = Some (ODict r) /\ h' = h.
Proof.
  unfold dict_items. intros Hrun.
  destruct d as [| | | |l]; try done.
  destruct (h !! l) as [[xs|kvs|st]|] eqn:Hl; try done.
  injection Hrun as -> ->. by exists l.
Qed.

Lemma py_iter_inv v h r h' : py_iter v h = (r, h') -> h' = h.
Proof. unfold py_iter. intros Hrun. by repeat case_match; simplify_eq. Qed.

Lemma parsed_prefix h h1 h2 f l :
  h1 `prefix_of` h2 -> parsed h h1 f l -> parsed h h2 f l.
Proof.
  intros Hpre (Hl & h0 & st & H0 & H1 & Hp & Hlk). split; [done|].
  exists h0, st. repeat split; try done; [by etrans|].
  by eapply prefix_lookup_Some.
Qed.

Lemma parsed_weaken h0 h h' f l :
  h0 `prefix_of` h -> parsed h h' f l -> parsed h0 h' f l.
Proof.
  intros Hpre (Hl & h1 & st & H1 & H2 & Hp & Hlk).
  split; [apply prefix_length in Hpre; lia|].
  exists h1, st. repeat split; try done. by etrans.
Qed.

Lemma mapM_Item_from_dict_inv fs : forall h its h',
  mapM Item_from_dict_call fs h = (Ok its, h') ->
  h `prefix_of` h' /\ Forall2 (parsed h h') fs its.
Proof.
  induction fs as [|f fs IH]; intros h its h' Hrun.
  - injection Hrun as <- <-. split; [done | constructor].
  - rewrite mapM_run_cons in Hrun. unfold Item_from_dict_call at 1 in Hrun.
    destruct (Item_from_dict h f) as [e|st] eqn:Hparse; [done|].
    rewrite alloc_run in Hrun.
    destruct (mapM Item_from_dict_call fs (h ++ [OItem st]))
      as [[ls|e] h2] eqn:Hrest; [|done].
    injection Hrun as <- <-. destruct (IH _ _ _ Hrest) as [Hpre Hps].
    assert (Hpre0 : h `prefix_of` h ++ [OItem st]) by (by apply prefix_app_r).
    split; [by etrans|]. constructor.
    + split; [done|]. exists h, st. repeat split; try done; [by etrans|].
      eapply prefix_lookup_Some; [|exact Hpre]. by rewrite list_lookup_middle.
    + eapply Forall2_impl; [exact Hps|]. intros x y.
      by apply parsed_weaken.
Qed.

Lemma parsed_is_item h h' f l : parsed h h' f l -> is_item h' l.
Proof. intros (_ & h1 & st & _ & _ & _ & Hl). by exists st. Qed.

Lemma from_dict_run ld kvs fs its h h3 :
  identify_stac_object_type h (VRef ld) = Some ITEMCOLLECTION ->
  h !! ld = Some (ODict kvs) ->
  features_of h kvs fs ->
  mapM Item_from_dict_call fs (h ++ [OList []]) = (Ok its, h3) ->
  from_dict (VRef ld) h =
    (Ok (from_dict_result kvs its h3).1, (from_dict_result kvs its h3).2).
Proof.
  intros Hid Hld Hfs Hparse. unfold from_dict. rewrite decide_True by done.
  unfold from_dict_body.
  rewrite bind_run, (dict_items_run _ _ _ Hld), bind_run, alloc_run, bind_run.
  unfold features_of in Hfs. rewrite Hfs, bind_run, Hparse, bind_run, alloc_run.
  destruct (mapM_Item_from_dict_inv _ _ _ _ Hparse) as [_ Hps].
  assert (Hitems : Forall (is_item (h3 ++ [ODict (filter (fun kv => not_reserved kv.1) kvs)])) its).
  { eapply Forall2_Forall_r with (P := fun _ => True);
      [exact Hps | by apply Forall_true |].
    intros f l _ Hp. eapply parsed_is_item, parsed_prefix; [|exact Hp].
    by apply prefix_app_r. }
  unfold __init__. rewrite bind_run, (mapM_map_item_items _ _ Hitems), bind_run.
  unfold or_empty_dict, from_dict_result. simpl.
  rewrite list_lookup_middle by done.
  destruct (filter _ kvs) as [|kv extra]; simpl.
  - rewrite length_app, <- app_assoc. simpl.
    by replace (length h3 + 1) with (S (length h3)) by lia.
  - done.
Qed.

(** A successful [from_dict] went through these steps. *)
Lemma from_dict_inv d h c h' :
  from_dict d h = (Ok c, h') ->
  exists ld kvs fs its h3,
    d = VRef ld /\ h !! ld = Some (ODict kvs) /\
    identify_stac_object_type h d = Some ITEMCOLLECTION /\
    features_of h kvs fs /\
    mapM Item_from_dict_call fs (h ++ [OList []]) = (Ok its, h3) /\
    (c, h') = from_dict_result kvs its h3.
Proof.
  intros Hrun. pose proof Hrun as Hrun0. unfold from_dict in Hrun.
  case_decide as Hid; [|done]. unfold from_dict_body in Hrun.
  rewrite bind_run in Hrun.
  destruct (dict_items d h) as [[kvs|e] h1] eqn:Hd; [|done].
  apply dict_items_inv in Hd as (ld & -> & Hld & ->).
  rewrite bind_run, alloc_run, bind_run in Hrun.
  destruct (py_iter _ (h ++ [OList []])) as [[fs|e] h2] eqn:Hit; [|done].
  pose proof (py_iter_inv _ _ _ _ Hit) as ->.
  rewrite bind_run in Hrun.
  destruct (mapM Item_from_dict_call fs (h ++ [OList []]))
    as [[its|e] h3] eqn:Hparse; [|done].
  exists ld, kvs, fs, its, h3. repeat split; try done.
  rewrite (from_dict_run ld kvs fs its h h3) in Hrun0 by done.
  injection Hrun0 as <- <-. by destruct (from_dict_result kvs its h3).
Qed.

Lemma from_dict_result_extra kvs its h3 :
  exists l extra,
    extra_fields (from_dict_result kvs its h3).1 = VRef l /\
    (from_dict_result kvs its h3).2 !! l = Some (ODict extra) /\
    extra = filter (fun kv => not_reserved kv.1) kvs /\
    items (from_dict_result kvs its h3).1 = its /\
    h3 `prefix_of` (from_dict_result kvs its h3).2.
Proof.
  unfold from_dict_result.
  destruct (filter _ kvs) as [|kv extra] eqn:Hf; simpl.
  - exists (S (length h3)), []. repeat split; try done.
    + rewrite lookup_app_r by lia.
      by replace (S (length h3) - length h3) with 1 by lia.
    + by apply prefix_app_r.
  - exists (length h3), (kv :: extra). repeat split; try done.
    + by rewrite list_lookup_middle.
    + by apply prefix_app_r.
Qed.

Lemma Forall2_chain {A B C D} (R1 : A -> B -> Prop) (R2 : B -> C -> Prop)
    (R3 : A -> D -> Prop) (Q : C -> D -> Prop) xs ys zs ws :
  Forall2 R1 xs ys -> Forall2 R2 ys zs -> Forall2 R3 xs ws ->
  (forall x y z w, R1 x y -> R2 y z -> R3 x w -> Q z w) ->
  Forall2 Q zs ws.
Proof.
  intros H1. revert zs ws.
  induction H1 as [|x y xs ys Hxy _ IH]; intros zs ws H2 H3 Himp.
  - apply Forall2_nil_inv_l in H2 as ->.
    apply Forall2_nil_inv_l in H3 as ->. constructor.
  - apply Forall2_cons_inv_l in H2 as (z & zs' & Hyz & H2 & ->).
    apply Forall2_cons_inv_l in H3 as (w & ws' & Hxw & H3 & ->).
    constructor; eauto.
Qed.

Lemma Forall_ex_Forall2 {A B} (R : A -> B -> Prop) xs :
  Forall (fun x => exists y, R x y) xs -> exists ys, Forall2 R xs ys.
Proof.
  induction 1 as [|x xs [y Hy] _ [ys IH]].
  - exists []. constructor.
  - exists (y :: ys). by constructor.
Qed.

(** Parsing the serializations [to_dict] built: every feature is parsed
    into a new Item whose own serialization is the feature's content,
    provided the parser accepts what [Item.to_dict] produces. *)
Lemma mapM_Item_from_dict_serialized h1 feats :
  (forall h v st, represents h v (Item_to_dict st) ->
     exists st', Item_from_dict h v = inr st' /\
                 Item_to_dict st' = Item_to_dict st) ->
  Forall (fun v => exists st, represents h1 v (Item_to_dict st)) feats ->
  forall h, h1 `prefix_of` h ->
  exists its h', mapM Item_from_dict_call feats h = (Ok its, h') /\
    h `prefix_of` h' /\
    Forall2 (fun v l => exists st', h' !! l = Some (OItem st') /\
                                    represents h1 v (Item_to_dict st'))
            feats its.
Proof.
  intros Hrt Hfeats.
  apply (mapM_spec Item_from_dict_call
           (fun v l h' => exists st', h' !! l = Some (OItem st') /\
                                      represents h1 v (Item_to_dict st'))).
  - intros v l h h' (st' & Hl & Hrep) Hpre. exists st'.
    split; [by eapply prefix_lookup_Some | done].
  - eapply Forall_impl; [exact Hfeats|]. intros v [st Hrep] h Hpre.
    destruct (Hrt h v st) as (st' & Hparse & Heq);
      [by eapply represents_prefix|].
    unfold Item_from_dict_call. rewrite Hparse, alloc_run.
    eexists _, _. split; [done|]. split; [by apply prefix_app_r|].
    exists st'. split; [by rewrite list_lookup_middle|]. by rewrite Heq.
Qed.

(** ** Deep copies *)

Lemma memo_get_None l (m : memo) : memo_get l m = None <-> l ∉ m.*1.
Proof.
  induction m as [|[x y] m IH]; csimpl.
  - split; [intros _; apply not_elem_of_nil | done].
  - rewrite not_elem_of_cons. destruct (Nat.eqb_spec l x) as [->|Hne].
    + split; [done | intros [[] _]; done].
    + rewrite IH. ptauto.
Qed.

Lemma memo_get_elem_of l y (m : memo) : memo_get l m = Some y -> (l, y) ∈ m.
Proof.
  induction m as [|[x y'] m IH]; simpl; [done|].
  destruct (Nat.eqb_spec l x) as [->|Hne].
  - intros [= ->]. by left.
  - intros Hget. right. by apply IH.
Qed.

Lemma memo_le_cons l y (m : memo) :
  memo_get l m = None -> memo_le m ((l, y) :: m).
Proof.
  intros Hnone a b Hget. simpl.
  destruct (Nat.eqb_spec a l) as [->|Hne]; [congruence | done].
Qed.

Lemma memo_le_trans (m1 m2 m3 : memo) :
  memo_le m1 m2 -> memo_le m2 m3 -> memo_le m1 m3.
Proof. intros H12 H23 a b Hget. by apply H23, H12. Qed.

Lemma rename_memo_le m m' v :
  memo_le m m' -> val_in (in_memo m) v -> rename m' v = rename m v.
Proof.
  intros Hle. destruct v as [| | | |a]; simpl; try done.
  intros [b Hb]. by rewrite Hb, (Hle _ _ Hb).
Qed.

Lemma val_in_impl (P Q : loc -> Prop) v :
  (forall l, P l -> Q l) -> val_in P v -> val_in Q v.
Proof. intros Himp. destruct v; simpl; auto. Qed.

Lemma in_memo_le m m' a : memo_le m m' -> in_memo m a -> in_memo m' a.
Proof. intros Hle [b Hb]. exists b. by apply Hle. Qed.

Lemma obj_map_ext (f g : pyval -> pyval) o :
  Forall (fun v => f v = g v) (obj_vals o) -> obj_map f o = obj_map g o.
Proof.
  destruct o as [xs|kvs|st]; simpl; intros Hext; [| |done].
  - f_equal. by apply Forall_fmap_ext.
  - f_equal. apply Forall_fmap_ext. apply Forall_fmap in Hext.
    eapply Forall_impl; [exact Hext|]. intros [k v] Hv. simpl in *.
    unfold prod_map. simpl. by rewrite Hv.
Qed.

Lemma obj_vals_map (f : pyval -> pyval) o :
  obj_vals (obj_map f o) = f <$> obj_vals o.
Proof.
  destruct o as [xs|kvs|st]; simpl; [done| |done].
  rewrite <- !list_fmap_compose. by apply list_fmap_ext.
Qed.

(** A finished copy stays one as the memo and the store grow. *)
Lemma copied_mono h0 m m' h h' a b :
  memo_le m m' -> (forall o, h !! b = Some o -> h' !! b = Some o) ->
  copied h0 m h a b -> copied h0 m' h' a b.
Proof.
  intros Hle Hkeep (o & Ha & Hdom & Hb). exists o. split; [done|]. split.
  - eapply Forall_impl; [exact Hdom|]. intros v.
    apply val_in_impl. intros l. by apply in_memo_le.
  - rewrite (obj_map_ext (rename m') (rename m)); [by apply Hkeep|].
    eapply Forall_impl; [exact Hdom|]. intros v. by apply rename_memo_le.
Qed.

(** Two stores that agree on a set of references closed under the
    references its objects hold denote the same values there. *)
Lemma snap_agree (P : loc -> Prop) (h1 h2 : heap) :
  (forall l, P l -> h1 !! l = h2 !! l) ->
  (forall l o, P l -> h1 !! l = Some o -> Forall (val_in P) (obj_vals o)) ->
  forall n v, val_in P v -> snap n h1 v = snap n h2 v.
Proof.
  intros Hagree Hclosed. induction n as [|n IH]; intros v Hv;
    destruct v as [| | | |l]; try done.
  simpl in *. rewrite <- (Hagree l Hv).
  destruct (h1 !! l) as [[xs|kvs|st]|] eqn:Hl; try done.
  - f_equal. apply Forall_mapM_ext.
    eapply Forall_impl; [exact (Hclosed _ _ Hv Hl)|]. intros x. apply IH.
  - f_equal. apply Forall_mapM_ext.
    pose proof (Hclosed _ _ Hv Hl) as Hvals. unfold obj_vals in Hvals.
    rewrite Forall_fmap in Hvals.
    eapply Forall_impl; [exact Hvals|]. intros [k x] Hx. simpl in *.
    by rewrite IH.
Qed.

Lemma copy_bind_run {A B} (c : CopyM A) (f : A -> CopyM B) (m : memo) (h : heap) :
  (c ≫= f) m h =
    match c m h with
    | Some (a, m', h') => f a m' h'
    | None => None
    end.
Proof. reflexivity. Qed.

Lemma mapM_copy_cons {A B} (g : A -> CopyM B) x xs (m : memo) (h : heap) :
  mapM g (x :: xs) m h =
    match g x m h with
    | Some (y, m1, h1) =>
        match mapM g xs m1 h1 with
        | Some (ys, m2, h2) => Some (y :: ys, m2, h2)
        | None => None
        end
    | None => None
    end.
Proof.
  cbn. unfold mbind, CopyM_bind. destruct (g x m h) as [[[y m1] h1]|]; [|done].
  by destruct (mapM g xs m1 h1) as [[[ys m2] h2]|].
Qed.

Lemma prefix_insert_ge (h h' : heap) y o :
  h `prefix_of` h' -> length h <= y -> h `prefix_of` <[y := o]> h'.
Proof.
  intros [k ->] Hy. rewrite insert_app_r_alt by done. by apply prefix_app_r.
Qed.

Section Deepcopy.
Variable h0 : heap.
Hypothesis h0_closed : closed h0.

Lemma memo_length_le m h : copy_inv h0 m h -> length m <= length h0.
Proof.
  intros Hinv.
  assert (Hsub : length m.*1 <= length (seq 0 (length h0))).
  { apply submseteq_length, NoDup_submseteq; [by destruct Hinv|].
    intros a Ha. apply elem_of_seq. split; [lia|]. simpl.
    destruct (memo_get a m) as [b|] eqn:Hget.
    - by destruct (inv_memo _ _ _ Hinv a b Hget).
    - by apply memo_get_None in Hget. }
  by rewrite length_seq, length_fmap in Hsub.
Qed.

Lemma copy_post_refl m h v :
  copy_inv h0 m h -> val_in (in_memo m) v ->
  copy_post h0 m h v (rename m v) m h.
Proof.
  intros Hinv Hv. unfold copy_post.
  split; [done|]. split; [done|]. split; [by intros ??|].
  split; [done|]. split; [done|]. split; [done|].
  intros a b Hsome Hnone. congruence.
Qed.

(** A new object, registered as the copy of [l] before it is
    finished. *)
Lemma copy_inv_start m h l o :
  copy_inv h0 m h -> l < length h0 -> memo_get l m = None ->
  obj_vals o = [] ->
  copy_inv h0 ((l, length h) :: m) (h ++ [o]).
Proof.
  intros [Hpre Hkeys Hmemo Hnew] Hl Hnone Hempty.
  pose proof (prefix_length _ _ Hpre) as Hlen. split.
  - by apply prefix_app_r.
  - csimpl. apply NoDup_cons. split; [by apply memo_get_None | done].
  - intros a b. simpl. rewrite length_app. simpl.
    destruct (Nat.eqb_spec a l) as [->|Hne].
    + intros [= <-]. lia.
    + intros Hget. destruct (Hmemo _ _ Hget). lia.
  - intros b o' Hb Hlk.
    destruct (decide (b < length h)) as [Hlt|Hge].
    + rewrite lookup_app_l in Hlk by done. by eapply Hnew.
    + apply lookup_lt_Some in Hlk as Hlt. rewrite length_app in Hlt.
      simpl in Hlt. replace b with (length h) in Hlk by lia.
      rewrite list_lookup_middle in Hlk by done.
      injection Hlk as <-. rewrite Hempty. constructor.
Qed.

(** The copies of a sequence of values, one after the other. *)
Lemma mapM_copy_spec {A B} (g : A -> CopyM B) (fv : A -> pyval)
    (fr : B -> pyval) (Q : A -> B -> Prop) (k : nat) :
  (forall x m h, copy_inv h0 m h ->
     val_in (fun l => l < length h0) (fv x) ->
     length h0 < k + length m ->
     exists y m' h', g x m h = Some (y, m', h') /\ Q x y /\
                     copy_post h0 m h (fv x) (fr y) m' h') ->
  forall xs m h, copy_inv h0 m h ->
    Forall (fun x => val_in (fun l => l < length h0) (fv x)) xs ->
    length h0 < k + length m ->
    exists ys m' h', mapM g xs m h = Some (ys, m', h') /\
      copy_inv h0 m' h' /\ h `prefix_of` h' /\
      memo_le m m' /\ length m <= length m' /\
      Forall2 (fun x y => Q x y /\ fr y = rename m' (fv x) /\
                          val_in (in_memo m') (fv x)) xs ys /\
      (forall a b, memo_get a m' = Some b -> memo_get a m = None ->
                   length h <= b /\ copied h0 m' h' a b).
Proof.
  intros Hg xs. induction xs as [|x xs IH]; intros m h Hinv Hxs Hfuel.
  - exists [], m, h.
    split; [done|]. split; [done|]. split; [done|]. split; [by intros ??|].
    split; [done|]. split; [constructor|].
    intros a b Hsome Hnone. congruence.
  - apply Forall_cons in Hxs as [Hx Hxs].
    destruct (Hg x m h Hinv Hx Hfuel)
      as (y & m1 & h1 & Hrun & HQ & Hinv1 & Hp1 & Hle1 & Hlen1 & Hy & Hdom & Hnew1).
    destruct (IH m1 h1 Hinv1 Hxs ltac:(lia))
      as (ys & m2 & h2 & Hrun' & Hinv2 & Hp2 & Hle2 & Hlen2 & Hys & Hnew2).
    exists (y :: ys), m2, h2. rewrite mapM_copy_cons, Hrun, Hrun'.
    split; [done|]. split; [done|]. split; [by etrans|].
    split; [by eapply memo_le_trans|]. split; [lia|]. split.
    + constructor; [|done]. split; [done|]. split.
      * by rewrite (rename_memo_le m1 m2).
      * eapply val_in_impl; [|exact Hdom]. intros l.
        by apply in_memo_le.
    + intros a b Hget2 Hnone.
      destruct (memo_get a m1) as [b1|] eqn:Hget1.
      * rewrite (Hle2 _ _ Hget1) in Hget2. injection Hget2 as ->.
        destruct (Hnew1 a b Hget1 Hnone) as [Hb Hcopied].
        split; [done|]. eapply copied_mono; [exact Hle2 | | exact Hcopied].
        intros o Ho. by eapply prefix_lookup_Some.
      * destruct (Hnew2 a b Hget2 Hget1) as [Hb Hcopied].
        split; [|done]. apply prefix_length in Hp1. lia.
Qed.

(** The copy of a container: a new empty container is registered,
    the elements are copied, and the container receives the copies. *)
Lemma copy_container_spec {A B} (g : A -> CopyM B) (fv : A -> pyval)
    (fr : B -> pyval) (Q : A -> B -> Prop) (k : nat) (elems : list A)
    (mk : list B -> pyobj ItemState) (empty o : pyobj ItemState)
    (l : loc) (m : memo) (h : heap) :
  (forall x m h, copy_inv h0 m h ->
     val_in (fun l => l < length h0) (fv x) ->
     length h0 < k + length m ->
     exists y m' h', g x m h = Some (y, m', h') /\ Q x y /\
                     copy_post h0 m h (fv x) (fr y) m' h') ->
  obj_vals empty = [] -> obj_vals o = fv <$> elems ->
  (forall f ys, Forall2 (fun x y => Q x y /\ fr y = f (fv x)) elems ys ->
                mk ys = obj_map f o) ->
  copy_inv h0 m h -> h0 !! l = Some o -> memo_get l m = None ->
  length h0 < S k + length m ->
  exists v' m' h',
    (y ← copy_start l empty; ys ← mapM g elems; copy_fill y (mk ys)) m h
      = Some (v', m', h') /\
    copy_post h0 m h (VRef l) v' m' h'.
Proof using h0_closed.
  intros Hg Hempty Hvals Hmk Hinv Hl Hnone Hfuel.
  pose proof (lookup_lt_Some _ _ _ Hl) as Hlt.
  pose proof (prefix_length _ _ (inv_prefix _ _ _ Hinv)) as Hlen.
  pose proof (copy_inv_start m h l empty Hinv Hlt Hnone Hempty) as Hinv1.
  assert (Helems : Forall (fun x => val_in (fun l => l < length h0) (fv x)) elems).
  { pose proof (h0_closed l o Hl) as Hc. rewrite Hvals in Hc.
    by rewrite Forall_fmap in Hc. }
  destruct (mapM_copy_spec g fv fr Q k Hg elems _ _ Hinv1 Helems)
    as (ys & m2 & h2 & Hrun & Hinv2 & Hp2 & Hle2 & Hlen2 & Hys & Hnew2).
  { simpl. lia. }
  set (y := length h) in *.
  assert (Hy2 : y < length h2).
  { apply prefix_length in Hp2. rewrite length_app in Hp2. simpl in Hp2. lia. }
  assert (Hget : memo_get l m2 = Some y).
  { apply Hle2. simpl. by rewrite Nat.eqb_refl. }
  assert (Hobj : mk ys = obj_map (rename m2) o).
  { apply Hmk. eapply Forall2_impl; [exact Hys|]. by intros x y' (? & ? & _). }
  assert (Hdom : Forall (val_in (in_memo m2)) (obj_vals o)).
  { rewrite Hvals, Forall_fmap.
    eapply Forall2_Forall_l; [exact Hys|]. apply Forall_true.
    by intros x y' (_ & _ & ?). }
  exists (VRef y), m2, (<[y := mk ys]> h2). split.
  { rewrite copy_bind_run. unfold copy_start at 1. fold y.
    by rewrite copy_bind_run, Hrun. }
  destruct Hinv2 as [Hpre2 Hkeys2 Hmemo2 Hnewc2].
  split; [split|].
  - apply prefix_insert_ge; [done | lia].
  - done.
  - intros a b Hab. rewrite length_insert. by apply Hmemo2.
  - intros b o' Hb Hlk. destruct (decide (b = y)) as [->|Hne].
    + rewrite list_lookup_insert_eq in Hlk by done. injection Hlk as <-.
      rewrite Hobj, obj_vals_map, Forall_fmap.
      eapply Forall_impl; [exact Hdom|]. intros [| | | |a]; simpl; try done.
      intros [b Hb']. rewrite Hb'. simpl. destruct (Hmemo2 _ _ Hb'). lia.
    + rewrite list_lookup_insert_ne in Hlk by done. by eapply Hnewc2.
  - split.
    { apply prefix_insert_ge; [|done].
      etrans; [|exact Hp2]. by apply prefix_app_r. }
    split; [eapply memo_le_trans; [by apply memo_le_cons | done]|].
    split; [simpl in Hlen2; lia|].
    split; [simpl; by rewrite Hget|]. split; [by exists y|].
    intros a b Hab Hnone'. destruct (decide (a = l)) as [->|Hne].
    + assert (b = y) as -> by congruence. split; [done|].
      exists o. split; [done|]. split; [done|].
      rewrite list_lookup_insert_eq by done. by rewrite Hobj.
    + destruct (Hnew2 a b Hab) as [Hb Hcopied].
      { simpl. by rewrite (proj2 (Nat.eqb_neq a l) Hne). }
      rewrite length_app in Hb. simpl in Hb. split; [lia|].
      eapply copied_mono; [by intros ?? | | exact Hcopied].
      intros o' Ho'. rewrite list_lookup_insert_ne by lia. done.
Qed.

(** [deepcopy_fuel] succeeds as long as its depth exceeds the number
    of objects of [h0] not yet in the memo, and does what [copy_post]
    says. *)
Lemma deepcopy_fuel_spec n : forall v m h,
  copy_inv h0 m h -> val_in (fun l => l < length h0) v ->
  length h0 < n + length m ->
  exists v' m' h', deepcopy_fuel n v m h = Some (v', m', h') /\
                   copy_post h0 m h v v' m' h'.
Proof using h0_closed.
  induction n as [|n IH]; intros v m h Hinv Hv Hfuel.
  - pose proof (memo_length_le m h Hinv). lia.
  - destruct v as [| | | |l].
    1-4: eexists _, m, h; split; [reflexivity|];
         by apply (copy_post_refl m h).
    simpl in Hv. simpl.
    destruct (memo_get l m) as [y|] eqn:Hget.
    { exists (VRef y), m, h. split; [done|].
      pose proof (copy_post_refl m h (VRef l) Hinv) as Hpost.
      simpl in Hpost. rewrite Hget in Hpost. apply Hpost. by exists y. }
    destruct (lookup_lt_is_Some_2 h0 l Hv) as [o Hl].
    rewrite (prefix_lookup_Some _ _ _ _ Hl (inv_prefix _ _ _ Hinv)).
    destruct o as [xs|kvs|st].
    + apply (copy_container_spec (deepcopy_fuel n) id id (fun _ _ => True) n
               xs OList (OList []) (OList xs)); try done.
      * intros x m1 h1 Hinv1 Hx Hfuel1.
        destruct (IH x m1 h1 Hinv1 Hx Hfuel1) as (y & m' & h' & Hrun & Hpost).
        by exists y, m', h'.
      * simpl. by rewrite list_fmap_id.
      * intros f ys Hys. simpl. f_equal. clear -Hys.
        induction Hys as [|x y xs' ys' [_ Hy] _ IHys]; [done|].
        csimpl. unfold id in Hy. by rewrite <- Hy, IHys.
    + apply (copy_container_spec
               (fun kv => x' ← deepcopy_fuel n kv.2; mret (kv.1, x'))
               snd snd (fun kv kv' => kv'.1 = kv.1) n
               kvs ODict (ODict []) (ODict kvs)); try done.
      * intros x m1 h1 Hinv1 Hx Hfuel1.
        destruct (IH x.2 m1 h1 Hinv1 Hx Hfuel1) as (y & m' & h' & Hrun & Hpost).
        exists (x.1, y), m', h'. rewrite copy_bind_run, Hrun.
        done.
      * intros f ys Hys. simpl. f_equal. clear -Hys.
        induction Hys as [|[k x] [k' y] xs' ys' [Hk Hy] _ IHys]; [done|].
        csimpl. simpl in *. subst k'. by rewrite <- Hy, IHys.
    + pose proof (copy_inv_start m h l (OItem st) Hinv Hv Hget eq_refl) as Hinv1.
      pose proof (prefix_length _ _ (inv_prefix _ _ _ Hinv)) as Hlen.
      exists (VRef (length h)), ((l, length h) :: m), (h ++ [OItem st]).
      split; [done|]. split; [done|].
      split; [by apply prefix_app_r|].
      split; [by apply memo_le_cons|]. split; [simpl; lia|].
      split; [simpl; by rewrite Nat.eqb_refl|].
      split; [exists (length h); simpl; by rewrite Nat.eqb_refl|].
      intros a b Hab Hnone. simpl in Hab.
      destruct (Nat.eqb_spec a l) as [->|Hne]; [|congruence].
      injection Hab as <-. split; [done|].
      exists (OItem st). split; [done|]. split; [constructor|].
      simpl. by rewrite list_lookup_middle.
Qed.
End Deepcopy.

(** [deepcopy] succeeds in a store without dangling references. *)
Lemma deepcopy_spec (h : heap) (v : pyval) :
  closed h -> val_in (fun l => l < length h) v ->
  exists v' m' h', deepcopy v h = (Ok v', h') /\
                   copy_post h [] h v v' m' h'.
Proof.
  intros Hclosed Hv.
  assert (Hinv : copy_inv h [] h).
  { split; [done | constructor | done |].
    intros b o Hb Hlk. apply lookup_lt_Some in Hlk. lia. }
  destruct (deepcopy_fuel_spec h Hclosed (S (length h)) v [] h Hinv Hv)
    as (v' & m' & h' & Hrun & Hpost); [simpl; lia|].
  exists v', m', h'. split; [|done]. unfold deepcopy. by rewrite Hrun.
Qed.

(** A copy denotes what its source denotes. *)
Lemma snap_copied (h0 h' : heap) (m' : memo) :
  (forall a b, memo_get a m' = Some b -> copied h0 m' h' a b) ->
  forall n v j, val_in (in_memo m') v ->
                snap n h0 v = Some j -> snap n h' (rename m' v) = Some j.
Proof.
  intros Hcopied. induction n as [|n IH]; intros v j Hv Hs;
    destruct v as [| | | |a]; try done.
  simpl in Hv. destruct Hv as [b Hb]. simpl in *. rewrite Hb. simpl.
  destruct (Hcopied a b Hb) as (o & Ha & Hdom & Hlk). rewrite Ha in Hs.
  rewrite Hlk. destruct o as [xs|kvs|st]; simpl in *; [| |done].
  - apply fmap_Some in Hs as (js & Hjs & ->). apply fmap_Some.
    exists js. split; [|done]. apply mapM_Some in Hjs. apply mapM_Some.
    apply Forall2_fmap_l.
    eapply Forall2_with_l; [exact Hjs | exact Hdom |].
    intros x y Hx Hin. by apply IH.
  - apply fmap_Some in Hs as (js & Hjs & ->). apply fmap_Some.
    exists js. split; [|done]. apply mapM_Some in Hjs. apply mapM_Some.
    apply Forall2_fmap_l. rewrite Forall_fmap in Hdom.
    eapply Forall2_with_l; [exact Hjs | exact Hdom |].
    intros [k x] y Hx Hin. simpl in *.
    apply fmap_Some in Hx as (j' & Hj' & ->). apply fmap_Some.
    exists j'. split; [|done]. by apply IH.
Qed.

Lemma closed_app (h k : heap) :
  closed h -> Forall (fun o => obj_vals o = []) k -> closed (h ++ k).
Proof.
  intros Hclosed Hk l o Hl.
  destruct (decide (l < length h)) as [Hlt|Hge].
  - rewrite lookup_app_l in Hl by done.
    eapply Forall_impl; [exact (Hclosed l o Hl)|]. intros v.
    apply val_in_impl. intros l'. rewrite length_app. lia.
  - rewrite lookup_app_r in Hl by lia.
    apply list_elem_of_lookup_2 in Hl.
    rewrite Forall_forall in Hk. rewrite (Hk o Hl). constructor.
Qed.

Lemma separate_app n0 (h k : heap) :
  separate n0 h -> Forall (fun o => obj_vals o = []) k -> separate n0 (h ++ k).
Proof.
  intros Hsep Hk l o Hn Hl.
  destruct (decide (l < length h)) as [Hlt|Hge].
  - rewrite lookup_app_l in Hl by done. by eapply Hsep.
  - rewrite lookup_app_r in Hl by lia.
    apply list_elem_of_lookup_2 in Hl.
    rewrite Forall_forall in Hk. rewrite (Hk o Hl). constructor.
Qed.

(** ** Cloning *)

Lemma item_states_exist h ls :
  Forall (is_item h) ls -> exists sts, item_states h ls sts.
Proof. apply Forall_ex_Forall2. Qed.

Lemma item_states_prefix h h' ls sts :
  h `prefix_of` h' -> item_states h ls sts -> item_states h' ls sts.
Proof.
  intros Hpre Hsts. eapply Forall2_impl; [exact Hsts|].
  intros l st Hl. simpl in Hl. eapply prefix_lookup_Some; [exact Hl | exact Hpre].
Qed.

Lemma clones_no_vals sts : Forall (fun o => obj_vals o = []) (clones sts).
Proof. unfold clones. rewrite Forall_fmap. by apply Forall_true. Qed.

Lemma item_states_clones h sts :
  item_states (h ++ clones sts) (seq (length h) (length sts))
              (Item_clone <$> sts).
Proof.
  revert h. induction sts as [|st sts IH]; intros h; [constructor|].
  csimpl. constructor.
  - by rewrite list_lookup_middle.
  - specialize (IH (h ++ [OItem (Item_clone st)])).
    rewrite length_app, <- app_assoc in IH. simpl in IH.
    by replace (length h + 1) with (S (length h)) in IH by lia.
Qed.

(** [[item.clone() for item in ls]]: one new Item per item, in order. *)
Lemma mapM_Item_clone_run h0 ls sts :
  item_states h0 ls sts ->
  forall h, h0 `prefix_of` h ->
  mapM Item_clone_call ls h =
    (Ok (seq (length h) (length sts)), h ++ clones sts).
Proof.
  induction 1 as [|l st ls sts Hl _ IH]; intros h Hpre.
  - simpl. by rewrite app_nil_r.
  - rewrite mapM_run_cons. unfold Item_clone_call at 1.
    rewrite (prefix_lookup_Some _ _ _ _ Hl Hpre), alloc_run.
    rewrite IH by (by apply prefix_app_r).
    rewrite length_app, <- app_assoc. simpl.
    by replace (length h + 1) with (S (length h)) by lia.
Qed.

(** The constructor, cloning, on a list of Items does the same. *)
Lemma mapM_map_item_true_run h0 ls sts :
  item_states h0 ls sts ->
  forall h, h0 `prefix_of` h ->
  mapM (map_item true) (VRef <$> ls) h =
    (Ok (seq (length h) (length sts)), h ++ clones sts).
Proof.
  induction 1 as [|l st ls sts Hl _ IH]; intros h Hpre.
  - simpl. by rewrite app_nil_r.
  - rewrite fmap_cons, mapM_run_cons. unfold map_item at 1. simpl.
    unfold Item_clone_call.
    rewrite (prefix_lookup_Some _ _ _ _ Hl Hpre), alloc_run.
    rewrite IH by (by apply prefix_app_r).
    rewrite length_app, <- app_assoc. simpl.
    by replace (length h + 1) with (S (length h)) by lia.
Qed.

(** [clone], step by step: the items are cloned into [clones sts], the
    extra fields are deep-copied into the objects that follow, up to
    the store [hb], and the constructor clones the clones once more
    (its [clone_items] is left at its default) and replaces a copy
    that is empty by a new empty dictionary. *)
Lemma clone_spec c h kvs sts :
  closed h -> item_states h (items c) sts ->
  dict_at h (extra_fields c) kvs ->
  exists le m' hb,
    copy_post (h ++ clones sts) [] (h ++ clones sts)
              (extra_fields c) (VRef le) m' hb /\
    hb !! le = Some (ODict (prod_map id (rename m') <$> kvs)) /\
    clone c h =
      (Ok {| items := seq (length hb) (length sts);
             extra_fields :=
               match kvs with
               | [] => VRef (length hb + length sts)
               | _ => VRef le
               end |},
       hb ++ clones (Item_clone <$> sts)
          ++ match kvs with [] => [ODict []] | _ => [] end).
Proof.
  intros Hclosed Hsts (le0 & Hef & Hle0 & Hnd).
  set (ha := h ++ clones sts).
  assert (Hpa : h `prefix_of` ha) by (by apply prefix_app_r).
  assert (Hclosed_a : closed ha) by (apply closed_app, clones_no_vals; done).
  assert (Hva : val_in (fun l => l < length ha) (extra_fields c)).
  { rewrite Hef. simpl. apply lookup_lt_Some in Hle0.
    apply prefix_length in Hpa. lia. }
  destruct (deepcopy_spec ha (extra_fields c) Hclosed_a Hva)
    as (v' & m' & hb & Hrun2 & Hpost).
  pose proof Hpost as (Hinv & Hpb & _ & _ & Hv' & Hdom & Hnew).
  rewrite Hef in Hv', Hdom. simpl in Hv', Hdom. destruct Hdom as [le Hle].
  rewrite Hle in Hv'. subst v'.
  destruct (Hnew le0 le Hle eq_refl) as (_ & o & Ho & _ & Hcopy).
  rewrite (prefix_lookup_Some _ _ _ _ Hle0 Hpa) in Ho. injection Ho as <-.
  simpl in Hcopy.
  exists le, m', hb. split; [done|]. split; [done|].
  unfold clone.
  rewrite bind_run, (mapM_Item_clone_run h (items c) sts Hsts h) by done.
  fold ha. rewrite bind_run, Hrun2. unfold __init__.
  rewrite bind_run.
  rewrite (mapM_map_item_true_run ha _ _ (item_states_clones h sts) hb Hpb).
  rewrite bind_run, length_fmap. unfold or_empty_dict. simpl.
  rewrite (lookup_app_l_Some _ _ _ _ Hcopy).
  destruct kvs as [|kv kvs]; csimpl.
  - rewrite length_app, <- app_assoc. unfold clones at 1.
    by rewrite !length_fmap.
  - by rewrite app_nil_r.
Qed.

Lemma Forall2_share_r {A B C} (R : A -> C -> Prop) (R' : B -> C -> Prop)
    xs ys zs :
  Forall2 R xs zs -> Forall2 R' ys zs ->
  Forall2 (fun x y => exists z, R x z /\ R' y z) xs ys.
Proof.
  intros HR. revert ys.
  induction HR as [|x z xs zs Hxz _ IH]; intros ys HR'.
  - apply Forall2_nil_inv_r in HR' as ->. constructor.
  - apply Forall2_cons_inv_r in HR' as (y & ys' & Hyz & HR' & ->).
    constructor; eauto.
Qed.

(** Where the objects [clone] makes are, and what they hold. *)
Lemma separate_clone h sts m' hb v v' k :
  copy_post (h ++ clones sts) [] (h ++ clones sts) v v' m' hb ->
  Forall (fun o => obj_vals o = []) k ->
  separate (length h) (hb ++ k).
Proof.
  intros (Hinv & Hpb & _) Hk. apply separate_app; [|done].
  intros l o Hl Hlk.
  destruct (decide (l < length (h ++ clones sts))) as [Hlt|Hge].
  - rewrite <- (prefix_lookup_lt _ _ _ Hlt Hpb) in Hlk.
    rewrite lookup_app_r in Hlk by done.
    apply list_elem_of_lookup_2 in Hlk.
    pose proof (clones_no_vals sts) as Hc. rewrite Forall_forall in Hc.
    rewrite (Hc o Hlk). constructor.
  - eapply Forall_impl; [eapply (inv_new _ _ _ Hinv l o); [lia | done]|].
    intros x. apply val_in_impl. intros l'. rewrite length_app. lia.
Qed.

(** ** The keys of the extra fields *)

Lemma from_dict_reserved_free d h c h' :
  from_dict d h = (Ok c, h') -> reserved_free h' c.
Proof.
  intros Hrun.
  destruct (from_dict_inv d h c h' Hrun)
    as (ld & kvs & fs & its & h3 & _ & _ & _ & _ & _ & Hres).
  destruct (from_dict_result_extra kvs its h3)
    as (l & extra & Hef & Hl & -> & _ & _).
  rewrite <- Hres in Hef, Hl. simpl in Hef, Hl.
  exists l, (filter (fun kv => not_reserved kv.1) kvs).
  split; [done|]. split; [done|]. apply dict_keys_filter_not_reserved.
Qed.

Lemma init_extra_fields xs ef b h c h' :
  __init__ xs ef b h = (Ok c, h') ->
  extra_fields c = ef \/
  exists l, extra_fields c = VRef l /\ h' !! l = Some (ODict []).
Proof.
  unfold __init__. rewrite bind_run.
  destruct (mapM (map_item b) xs h) as [[its|e] h1]; [|done].
  rewrite bind_run. unfold or_empty_dict.
  destruct (truthy h1 ef); intros [= <- <-]; simpl; [by left|].
  right. exists (length h1). split; [done|]. by apply list_lookup_middle.
Qed.

Lemma clone_extra_fields c h kvs :
  closed h -> Forall (is_item h) (items c) ->
  dict_at h (extra_fields c) kvs ->
  exists c' h' kvs', clone c h = (Ok c', h') /\
                     dict_at h' (extra_fields c') kvs' /\
                     dict_keys kvs' = dict_keys kvs.
Proof.
  intros Hclosed Hitems Hef.
  destruct (item_states_exist h (items c) Hitems) as [sts Hsts].
  destruct (clone_spec c h kvs sts Hclosed Hsts Hef)
    as (le & m' & hb & _ & Hcopy & Hrun).
  destruct Hef as (le0 & Hef & Hle0 & Hnd).
  destruct kvs as [|kv kvs];
    [eexists _, _, [] | eexists _, _, _]; (split; [exact Hrun|]); simpl.
  - split; [|reflexivity]. eexists. split; [done|]. split; [|constructor].
    rewrite app_assoc.
    assert (length (hb ++ clones (Item_clone <$> sts))
            = length hb + length sts) as <-
      by (rewrite length_app; unfold clones; by rewrite !length_fmap).
    by apply list_lookup_middle.
  - assert (Hkeys : dict_keys (prod_map id (rename m') <$> kv :: kvs)
                    = dict_keys (kv :: kvs)).
    { unfold dict_keys. rewrite <- list_fmap_compose.
      by apply list_fmap_ext. }
    split; [|exact Hkeys]. exists le. split; [done|].
    split; [by apply lookup_app_l_Some|]. by rewrite Hkeys.
Qed.

Lemma map_item_prefix b x h r h' :
  map_item b x h = (r, h') -> h `prefix_of` h'.
Proof.
  unfold map_item, Item_clone_call, Item_from_dict_call, alloc.
  intros Hrun.
  repeat case_match; simplify_eq; done || by apply prefix_app_r.
Qed.

Lemma mapM_map_item_prefix b xs : forall h r h',
  mapM (map_item b) xs h = (r, h') -> h `prefix_of` h'.
Proof.
  induction xs as [|x xs IH]; intros h r h' Hrun.
  - by injection Hrun as <- <-.
  - rewrite mapM_run_cons in Hrun.
    destruct (map_item b x h) as [[l|e] h1] eqn:Hx.
    + pose proof (map_item_prefix _ _ _ _ _ Hx) as Hp1.
      destruct (mapM (map_item b) xs h1) as [[ls|e] h2] eqn:Hxs;
        injection Hrun as <- <-; (etrans; [exact Hp1|]; by eapply IH).
    + injection Hrun as <- <-. by eapply map_item_prefix.
Qed.

(** What the constructor makes of a dictionary of extra fields. *)
Lemma init_extra_fields_dict xs le kvs b h c h' :
  h !! le = Some (ODict kvs) ->
  __init__ xs (VRef le) b h = (Ok c, h') ->
  h `prefix_of` h' /\
  (kvs <> [] -> extra_fields c = VRef le) /\
  (kvs = [] -> exists l, extra_fields c = VRef l /\ length h <= l /\
                         h' !! l = Some (ODict [])).
Proof.
  intros Hle. unfold __init__. rewrite bind_run.
  destruct (mapM (map_item b) xs h) as [[its|e] h1] eqn:Hmap; [|done].
  pose proof (mapM_map_item_prefix _ _ _ _ _ Hmap) as Hp1.
  pose proof (prefix_lookup_Some _ _ _ _ Hle Hp1) as Hle1.
  rewrite bind_run. unfold or_empty_dict. simpl. rewrite Hle1.
  destruct kvs as [|kv kvs]; intros [= <- <-]; simpl.
  - split; [etrans; [exact Hp1|]; by apply prefix_app_r|]. split; [done|].
    intros _. exists (length h1). split; [done|].
    split; [by apply prefix_length | by apply list_lookup_middle].
  - done.
Qed.

(** What the constructor makes of a missing [extra_fields] argument. *)
Lemma init_extra_fields_none xs b h c h' :
  __init__ xs VNone b h = (Ok c, h') ->
  exists l, extra_fields c = VRef l /\ length h <= l /\
            h' !! l = Some (ODict []).
Proof.
  unfold __init__. rewrite bind_run.
  destruct (mapM (map_item b) xs h) as [[its|e] h1] eqn:Hmap; [|done].
  pose proof (mapM_map_item_prefix _ _ _ _ _ Hmap) as Hp1.
  rewrite bind_run. unfold or_empty_dict. simpl. intros [= <- <-].
  exists (length h1). split; [done|].
  split; [by apply prefix_length | by apply list_lookup_middle].
Qed.

(** A collection whose extra fields are the dictionary [kvs] is free of
    the reserved keys exactly when [kvs] is. *)
Lemma reserved_free_dict h c l kvs :
  extra_fields c = VRef l -> h !! l = Some (ODict kvs) ->
  reserved_free h c <->
  ("type" ∉ dict_keys kvs) /\ ("features" ∉ dict_keys kvs).
Proof.
  intros Hef Hl. split.
  - intros (l' & kvs' & Hef' & Hl' & Hfree). rewrite Hef in Hef'.
    injection Hef' as <-. rewrite Hl in Hl'. by injection Hl' as <-.
  - intros Hfree. by exists l, kvs.
Qed.

Lemma filter_ext_in {A} (P Q : A -> Prop) `{!forall x, Decision (P x)}
    `{!forall x, Decision (Q x)} (l : list A) :
  (forall x, x ∈ l -> P x <-> Q x) -> filter P l = filter Q l.
Proof.
  induction l as [|x l IH]; intros Hext; [done|].
  assert (Hl : filter P l = filter Q l)
    by (apply IH; intros y Hy; apply Hext; by right).
  assert (Hx : P x <-> Q x) by (apply Hext; left).
  destruct (decide (P x)) as [HP|HP].
  - rewrite (filter_cons_True P) by done.
    rewrite (filter_cons_True Q) by (by apply Hx). by rewrite Hl.
  - rewrite (filter_cons_False P) by done.
    rewrite (filter_cons_False Q) by (intros HQ; by apply HP, Hx). done.
Qed.

(** The keys of a dictionary updated with [other]: its own, followed by
    the new keys of [other] in their order. *)
Lemma dict_keys_update {V} (kvs other : list (string * V)) :
  NoDup (dict_keys other) ->
  dict_keys (dict_update kvs other) =
    dict_keys kvs ++ filter (fun k => k ∉ dict_keys kvs) (dict_keys other).
Proof.
  unfold dict_update. revert kvs.
  induction other as [|[k v] other IH]; intros kvs Hnd; csimpl.
  - by rewrite app_nil_r.
  - assert (Hk : (k ∉ dict_keys other) /\ NoDup (dict_keys other)).
    { unfold dict_keys in *. csimpl in Hnd. by apply NoDup_cons in Hnd. }
    destruct Hk as [Hk Hnd']. rewrite IH by done.
    change (dict_keys ((k, v) :: other)) with (k :: dict_keys other).
    destruct (decide (k ∈ dict_keys kvs)) as [Hin|Hnin].
    + rewrite dict_keys_set by done.
      by rewrite (filter_cons_False _ k) by (intros Hn; by apply Hn).
    + rewrite dict_set_new by done. rewrite filter_cons_True by done.
      assert (Hkeys : dict_keys (kvs ++ [(k, v)]) = dict_keys kvs ++ [k])
        by (unfold dict_keys; by rewrite fmap_app).
      rewrite Hkeys, <- app_assoc. simpl.
      f_equal. f_equal. apply filter_ext_in.
      intros k' Hk'. rewrite elem_of_app, list_elem_of_singleton. split.
      * intros Hn Hin. apply Hn. by left.
      * intros Hn [Hin| ->]; [by apply Hn | by apply Hk].
Qed.

(** The keys of a document: the structural keys, then the keys of the
    extra fields that are not structural, in their order. *)
Lemma structural_keys_update {V} (t f : V) (kvs : list (string * V)) :
  NoDup (dict_keys kvs) ->
  dict_keys (dict_update [("type", t); ("features", f)] kvs) =
    "type" :: "features" :: filter (fun k => not_reserved k) (dict_keys kvs).
Proof.
  intros Hnd. rewrite dict_keys_update by done.
  change (dict_keys [("type", t); ("features", f)]) with ["type"; "features"].
  simpl. do 2 f_equal. apply list_filter_iff. intros k.
  rewrite !not_elem_of_cons. unfold not_reserved.
  destruct (String.eqb_spec k "features") as [->|Hf]; simpl.
  - split; [by intros (_ & ? & _) | done].
  - destruct (String.eqb_spec k "type") as [->|Ht]; simpl.
    + split; [by intros (? & _) | done].
    + split; [done|]. intros _. split; [done|]. split; [done|].
      apply not_elem_of_nil.
Qed.

(** ** Claims *)

(** C9: for an operand that is not an ItemCollection, [__add__] raises
    nothing and builds nothing: it returns [NotImplemented] and leaves
    the store as it was. *)
Theorem add_other_not_implemented (self : ItemCollection) (v : pyval) (h : heap) :
  __add__ self (ObjOther v) h = (Ok NotImplemented, h).
Proof. reflexivity. Qed.

(** C3: [from_dict] raises its wrong-document-type error exactly when
    the type identifier does not report ITEMCOLLECTION for [d]; the
    check comes first, so the store is then the one [from_dict] was
    called in: no Item was parsed and no object was built. *)
Theorem from_dict_wrong_type (d : pyval) (h : heap) :
  ((exists msg h', from_dict d h = (Raise (STACTypeError msg), h')) <->
   identify_stac_object_type h d <> Some ITEMCOLLECTION) /\
  (identify_stac_object_type h d <> Some ITEMCOLLECTION ->
   from_dict d h =
     (Raise (STACTypeError "Dict is not a valid ItemCollection"), h)).
Proof.
  unfold from_dict. split; [split|].
  - intros (msg & h' & Hrun). case_decide as Hid; [|assumption].
    apply from_dict_body_raises in Hrun. simpl in Hrun. ptauto.
  - intros Hid. case_decide; [contradiction|]. eauto.
  - intros Hid. case_decide; [contradiction|]. reflexivity.
Qed.

(** C6: the constructor turns [N] item-likes into a collection of
    length [N] in the order given; a raw dictionary is parsed by
    [Item.from_dict] into a new object, an Item is cloned into a new
    object when [clone_items] is true and kept as the same reference
    when it is false.  Nothing in the store is changed: objects are
    only added. *)
Theorem init_stores_item_likes (xs : list pyval) (ef : pyval) (b : bool) (h : heap) :
  Forall (item_like h) xs ->
  exists c h', __init__ xs ef b h = (Ok c, h') /\
               h `prefix_of` h' /\
               __len__ c = length xs /\
               Forall2 (stored b h h') xs (items c).
Proof.
  intros Hxs.
  destruct (init_spec xs ef b h Hxs) as (c & h1 & h' & _ & _ & Hrun & Hp1 & Hp2 & Hst).
  exists c, h'. split; [done|]. split; [by etrans|]. split; [|done].
  unfold __len__. symmetry. by eapply Forall2_length.
Qed.

(** C7: membership is reference identity.  [x in c] holds exactly when
    [x] is one of the stored references; so an Item [x] is a member of
    [ItemCollection([x], clone_items=False)] and is not a member of
    [ItemCollection([x], clone_items=True)], which stores a new object
    whose state is that of [x.clone()]. *)
Theorem contains_is_identity (x : loc) (st : ItemState) (ef : pyval) (h : heap) :
  h !! x = Some (OItem st) ->
  (forall c v, __contains__ c v = true <-> exists l, v = VRef l /\ l ∈ items c) /\
  (exists c h', __init__ [VRef x] ef false h = (Ok c, h') /\
                items c = [x] /\ __contains__ c (VRef x) = true) /\
  (exists c h' x', __init__ [VRef x] ef true h = (Ok c, h') /\
                   items c = [x'] /\ x' <> x /\
                   h' !! x' = Some (OItem (Item_clone st)) /\
                   __contains__ c (VRef x) = false).
Proof.
  intros Hx. split; [|split].
  - intros c v. unfold __contains__, py_in. destruct v as [| | | |l].
    1-4: split; [done | by intros (l & ? & _)].
    rewrite bool_decide_eq_true. split.
    + intros Hin. by exists l.
    + by intros (l' & [= <-] & Hin).
  - assert (Hlike : Forall (item_like h) [VRef x])
      by (repeat constructor; by eapply item_like_item).
    destruct (init_spec [VRef x] ef false h Hlike)
      as (c & h1 & h' & _ & _ & Hrun & _ & _ & Hst).
    exists c, h'. split; [done|].
    apply Forall2_cons_inv_l in Hst as (l & ls & Hl & Hnil & Heq).
    apply Forall2_nil_inv_l in Hnil as ->.
    unfold stored in Hl. simpl in Hl. rewrite Hx in Hl. subst l.
    split; [done|]. unfold __contains__, py_in. rewrite Heq.
    apply bool_decide_eq_true. by apply list_elem_of_singleton.
  - assert (Hlike : Forall (item_like h) [VRef x])
      by (repeat constructor; by eapply item_like_item).
    destruct (init_spec [VRef x] ef true h Hlike)
      as (c & h1 & h' & _ & _ & Hrun & _ & _ & Hst).
    apply Forall2_cons_inv_l in Hst as (l & ls & Hl & Hnil & Heq).
    apply Forall2_nil_inv_l in Hnil as ->.
    unfold stored in Hl. simpl in Hl. rewrite Hx in Hl.
    destruct Hl as [Hfresh Hl].
    pose proof (lookup_lt_Some _ _ _ Hx) as Hlt.
    exists c, h', l. split; [done|]. split; [done|].
    split; [lia|]. split; [done|].
    unfold __contains__, py_in. rewrite Heq.
    apply bool_decide_eq_false. rewrite list_elem_of_singleton. lia.
Qed.


(** C10: the constructor keeps the [extra_fields] argument as it is,
    reserved keys included, and [to_dict] merges it after the
    structural keys.  The document is a new dictionary: the structural
    entries ["type"] and ["features"] (the new list of the items'
    serializations) updated with the extra fields.  Its keys are
    ["type"], ["features"] and then the other keys of the extra fields
    in their order; it binds every key of the extra fields to the extra
    field's value, and a structural key the extra fields do not hold to
    its structural value.  So, when the argument binds ["type"] or
    ["features"], the document binds that key to the argument's value. *)
Theorem extra_fields_override (xs : list pyval) (le : loc)
    (kvs : list (string * pyval)) (b : bool) (h : heap) (k : string) (v : pyval) :
  Forall (item_like h) xs ->
  h !! le = Some (ODict kvs) -> NoDup (dict_keys kvs) ->
  k ∈ ["type"; "features"] -> dict_get k kvs = Some v ->
  exists c h1 l lf feats h2 doc,
    __init__ xs (VRef le) b h = (Ok c, h1) /\
    extra_fields c = VRef le /\ h1 !! le = Some (ODict kvs) /\
    to_dict c h1 = (Ok (VRef l), h2) /\
    h1 `prefix_of` h2 /\ length h1 <= l /\
    h2 !! l = Some (ODict doc) /\
    h2 !! lf = Some (OList feats) /\
    Forall2 (fun item v => serializes h1 item v h2) (items c) feats /\
    doc = dict_update [("type", VStr "FeatureCollection");
                       ("features", VRef lf)] kvs /\
    dict_keys doc =
      "type" :: "features" :: filter (fun k => not_reserved k) (dict_keys kvs) /\
    (forall k' v', dict_get k' kvs = Some v' -> dict_get k' doc = Some v') /\
    ("type" ∉ dict_keys kvs ->
     dict_get "type" doc = Some (VStr "FeatureCollection")) /\
    ("features" ∉ dict_keys kvs -> dict_get "features" doc = Some (VRef lf)) /\
    dict_get k doc = Some v.
Proof.
  intros Hxs Hle Hnd Hk Hget.
  destruct (init_spec xs (VRef le) b h Hxs)
    as (c & h1 & h' & _ & Hor & Hrun & Hp1 & Hp2 & Hst).
  assert (Hle1 : h1 !! le = Some (ODict kvs)) by (by eapply prefix_lookup_Some).
  assert (Hef : extra_fields c = VRef le /\ h' = h1).
  { unfold or_empty_dict in Hor. simpl in Hor. rewrite Hle1 in Hor.
    destruct kvs; [done|]. by injection Hor as <- <-. }
  destruct Hef as [Hef ->].
  assert (Hitems : Forall (is_item h1) (items c)).
  { eapply Forall2_Forall_r; [exact Hst | exact Hxs |].
    intros x l Hx. by apply stored_is_item. }
  destruct (to_dict_spec c h1 kvs Hitems) as (feats & h2 & _ & Hp & Hser & Hrun2).
  { exists le. done. }
  set (doc := dict_update [("type", VStr "FeatureCollection");
                           ("features", VRef (length h2))] kvs) in *.
  exists c, h1, (S (length h2)), (length h2), feats. eexists _, doc.
  split; [done|]. split; [done|]. split; [done|]. split; [exact Hrun2|].
  split; [etrans; [exact Hp|]; by apply prefix_app_r|].
  split; [apply prefix_length in Hp; lia|].
  split.
  { rewrite lookup_app_r by lia.
    by replace (S (length h2) - length h2) with 1 by lia. }
  split; [by apply list_lookup_middle|].
  split.
  { eapply Forall2_impl; [exact Hser|]. intros l v0.
    apply serializes_prefix. by apply prefix_app_r. }
  split; [done|]. split; [by apply structural_keys_update|].
  split.
  { intros k' v' Hk'. unfold doc. by rewrite (dict_get_update _ _ _ Hnd), Hk'. }
  split.
  { intros Ht%dict_get_None. unfold doc.
    by rewrite (dict_get_update _ _ _ Hnd), Ht. }
  split.
  { intros Hf%dict_get_None. unfold doc.
    by rewrite (dict_get_update _ _ _ Hnd), Hf. }
  unfold doc. by rewrite (dict_get_update _ _ _ Hnd), Hget.
Qed.


(** C2: [A + B] is a new collection whose items are those of [A]
    followed by those of [B], each kept at its first occurrence only
    (references compared by identity).  It is built with cloning
    disabled, so the items are the operands' own objects and the store
    only gains the new, empty extra fields.  For [A = [x, y]] and
    [B = [y, z]] the result is [[x, y, z]]. *)
Theorem add_union (A B : ItemCollection) (h : heap) :
  Forall (is_item h) (items A) -> Forall (is_item h) (items B) ->
  exists c,
    __add__ A (ObjItemCollection B) h = (Ok (AddValue c), h ++ [ODict []]) /\
    extra_fields c = VRef (length h) /\
    items c = add_loop [] (items A ++ items B) /\
    NoDup (items c) /\
    (forall x, x ∈ items c <-> x ∈ items A \/ x ∈ items B) /\
    (NoDup (items A) ->
     items c = items A ++
               add_loop [] (filter (fun x => x ∉ items A) (items B))) /\
    (forall x y z, x <> y -> y <> z -> x <> z ->
                   items A = [x; y] -> items B = [y; z] ->
                   items c = [x; y; z] /\ __len__ c = 3).
Proof.
  intros HA HB.
  set (combined := add_loop [] (items A ++ items B)).
  assert (Helem : forall x, x ∈ combined <-> x ∈ items A \/ x ∈ items B).
  { intros x. unfold combined.
    rewrite add_loop_elem_of, elem_of_nil, elem_of_app. ptauto. }
  assert (Hitems : Forall (is_item h) combined).
  { apply Forall_forall. intros x [Hx|Hx]%Helem;
      [revert x Hx; by apply Forall_forall..]. }
  assert (Hfilter : NoDup (items A) ->
            combined = items A ++
              add_loop [] (filter (fun x => x ∉ items A) (items B))).
  { intros Hnd. unfold combined.
    rewrite add_loop_app, (add_loop_new [] (items A)) by done. simpl.
    by apply (add_loop_filter (length (items B))). }
  exists {| items := combined; extra_fields := VRef (length h) |}. simpl.
  split; [|split; [done|split; [done|split; [|split; [done|split; [done|]]]]]].
  - unfold __add__. fold combined. unfold __init__.
    rewrite !bind_run, (mapM_map_item_items _ _ Hitems). done.
  - apply add_loop_NoDup, NoDup_nil_2.
  - intros x y z Hxy Hyz Hxz HA' HB'.
    assert (Hc : combined = [x; y; z]).
    { rewrite Hfilter; [rewrite HA', HB' | rewrite HA'].
      - rewrite filter_cons_False.
        2:{ intros Hy. apply Hy. apply elem_of_cons. right. by left. }
        rewrite filter_cons_True.
        2:{ rewrite !elem_of_cons, elem_of_nil. intros [?|[?|[]]]; congruence. }
        done.
      - apply NoDup_cons. split; [|apply NoDup_singleton].
        by intros ->%list_elem_of_singleton. }
    by rewrite Hc.
Qed.


(** C1: for a collection whose extra fields are JSON-like and contain
    neither ["type"] nor ["features"], [from_dict(c.to_dict())] succeeds
    and the collection it yields serializes to a document with the same
    content as [c.to_dict()].  The collaborators are asked for what the
    round trip needs: the type identifier recognises a dictionary whose
    ["type"] is ["FeatureCollection"], and [Item.from_dict] accepts what
    [Item.to_dict] produces and yields an Item with that serialization. *)
Theorem to_dict_from_dict_roundtrip (c : ItemCollection) (h : heap)
    (kvs : list (string * pyval)) (jextra : list (string * json)) :
  (forall h l kvs, h !! l = Some (ODict kvs) ->
     dict_get "type" kvs = Some (VStr "FeatureCollection") ->
     identify_stac_object_type h (VRef l) = Some ITEMCOLLECTION) ->
  (forall h v st, represents h v (Item_to_dict st) ->
     exists st', Item_from_dict h v = inr st' /\
                 Item_to_dict st' = Item_to_dict st) ->
  Forall (is_item h) (items c) ->
  dict_at h (extra_fields c) kvs ->
  "type" ∉ dict_keys kvs -> "features" ∉ dict_keys kvs ->
  represents h (extra_fields c) (JDict jextra) ->
  exists d h1 c' h2 d' h3 js,
    to_dict c h = (Ok d, h1) /\
    from_dict d h1 = (Ok c', h2) /\
    to_dict c' h2 = (Ok d', h3) /\
    length js = length (items c) /\
    let j := JDict (("type", JStr "FeatureCollection")
                      :: ("features", JList js) :: jextra) in
    represents h3 d j /\ represents h3 d' j.
Proof.
  intros Hid Hrt Hitems Hef Htype Hfeat Hjson.
  assert (Hnew : forall lf : loc,
            dict_update [("type", VStr "FeatureCollection");
                         ("features", VRef lf)] kvs =
            ("type", VStr "FeatureCollection") :: ("features", VRef lf) :: kvs).
  { intros lf. destruct Hef as (? & _ & _ & ?).
    by apply structural_keys_first. }
  (* c.to_dict() *)
  destruct (to_dict_spec c h kvs Hitems Hef)
    as (feats & ha & _ & Hpa & Hser & Hrun1).
  rewrite Hnew in Hrun1.
  destruct Hef as (le & Hefeq & Hle & Hnd).
  set (doc := ("type", VStr "FeatureCollection")
                :: ("features", VRef (length ha)) :: kvs) in *.
  set (h1 := ha ++ [OList feats; ODict doc]) in *.
  assert (Hp1 : ha `prefix_of` h1) by (by apply prefix_app_r).
  assert (Hlf : h1 !! length ha = Some (OList feats))
    by (by apply list_lookup_middle).
  assert (Hld : h1 !! S (length ha) = Some (ODict doc)).
  { unfold h1. rewrite lookup_app_r by lia.
    by replace (S (length ha) - length ha) with 1 by lia. }
  assert (Hfeats : Forall (fun v => exists st, represents h1 v (Item_to_dict st))
                          feats).
  { eapply Forall2_Forall_r with (P := fun _ => True);
      [exact Hser | by apply Forall_true |].
    intros l v _ (st & _ & Hrep). exists st. by eapply represents_prefix. }
  destruct (Forall_ex_Forall2 (represents h1) feats) as [js Hjs].
  { eapply Forall_impl; [exact Hfeats|]. intros v [st Hrep]. eauto. }
  (* from_dict *)
  assert (Hp1' : h1 `prefix_of` h1 ++ [OList []]) by (by apply prefix_app_r).
  destruct (mapM_Item_from_dict_serialized h1 feats Hrt Hfeats
              (h1 ++ [OList []]) Hp1')
    as (its & hb & Hparse & Hpb & Hits).
  assert (Hrun2 : from_dict (VRef (S (length ha))) h1 =
                    (Ok (from_dict_result doc its hb).1,
                     (from_dict_result doc its hb).2)).
  { apply (from_dict_run _ doc feats); [by eapply Hid | done | | done].
    unfold features_of, py_iter. simpl.
    by rewrite (prefix_lookup_Some _ _ _ _ Hlf Hp1'). }
  destruct (from_dict_result_extra doc its hb)
    as (le' & extra & Hef' & Hle' & Hextra & Hitems' & Hp2).
  destruct (from_dict_result doc its hb) as [c' h2]. simpl in *.
  assert (Hextra' : extra = kvs).
  { rewrite Hextra. unfold doc. rewrite filter_cons_False by (simpl; ptauto).
    rewrite filter_cons_False by (simpl; ptauto).
    by apply filter_not_reserved_id. }
  clear Hextra. subst extra.
  (* c'.to_dict() *)
  assert (Hitems2 : Forall (is_item h2) (items c')).
  { rewrite Hitems'. eapply Forall2_Forall_r with (P := fun _ => True);
      [exact Hits | by apply Forall_true |].
    intros v l _ (st' & Hl & _). exists st'. by eapply prefix_lookup_Some. }
  destruct (to_dict_spec c' h2 kvs Hitems2)
    as (feats' & hc & _ & Hpc & Hser' & Hrun3).
  { exists le'. done. }
  rewrite Hnew in Hrun3.
  set (doc' := ("type", VStr "FeatureCollection")
                 :: ("features", VRef (length hc)) :: kvs) in *.
  set (h3 := hc ++ [OList feats'; ODict doc']) in *.
  assert (Hp3 : hc `prefix_of` h3) by (by apply prefix_app_r).
  assert (Hall : h `prefix_of` h3 /\ h1 `prefix_of` h3).
  { assert (h1 `prefix_of` h3)
      by (etrans; [exact Hp1'|]; etrans; [exact Hpb|]; etrans; [exact Hp2|];
          by etrans).
    split; [|done]. etrans; [exact Hpa|]. by etrans. }
  destruct Hall as [Hph Hp13].
  assert (Hkvs : Forall2 (represents_entry h3) kvs jextra).
  { eapply Forall2_impl.
    - eapply represents_dict_inv; [|exact Hle]. by rewrite <- Hefeq.
    - intros kv kj. by apply represents_entry_prefix. }
  exists (VRef (S (length ha))), h1, c', h2, (VRef (S (length hc))), h3, js.
  split; [done|]. split; [done|]. split; [done|]. split.
  { rewrite <- (Forall2_length _ _ _ Hjs). symmetry.
    by eapply Forall2_length. }
  simpl. split.
  - eapply represents_dict; [by eapply prefix_lookup_Some|].
    constructor; [split; [done | by exists 0]|].
    constructor; [|exact Hkvs]. split; [done|]. simpl.
    eapply represents_list; [by eapply prefix_lookup_Some|].
    eapply Forall2_impl; [exact Hjs|]. intros v j.
    by apply represents_prefix.
  - eapply represents_dict.
    { unfold h3. rewrite lookup_app_r by lia.
      by replace (S (length hc) - length hc) with 1 by lia. }
    constructor; [split; [done | by exists 0]|].
    constructor; [|exact Hkvs]. split; [done|]. simpl.
    eapply represents_list; [by apply list_lookup_middle|].
    rewrite Hitems' in Hser'.
    eapply (Forall2_chain _ _ _ _ _ _ _ _ Hits Hser' Hjs).
    intros v l v' j (st' & Hl & Hrep) (st2 & Hl2 & Hrep2) Hj.
    assert (st2 = st') as ->.
    { pose proof (prefix_lookup_Some _ _ _ _ Hl Hp2). congruence. }
    rewrite (represents_det _ _ _ _ Hj Hrep).
    eapply represents_prefix; [exact Hp3 | exact Hrep2].
Qed.


(** C8: [clone] yields a new collection.  Each of its items is a new
    Item made by [Item.clone] from the source item (the constructor
    clones the clone once more, so its state is that of the clone of
    the source item's clone); its extra fields are a new dictionary
    with the keys and the content of the source's, every container in
    it copied.  No object made by [clone] refers to an older object, so
    that assigning to any object made by [clone] leaves the items and
    the extra fields of the source as they were, and assigning to any
    older object leaves those of the clone as they are. *)
Theorem clone_deep_copy (c : ItemCollection) (h : heap)
    (kvs : list (string * pyval)) :
  closed h -> Forall (is_item h) (items c) ->
  dict_at h (extra_fields c) kvs ->
  exists c' h' le' kvs',
    clone c h = (Ok c', h') /\ h `prefix_of` h' /\
    Forall2 (fun l l' =>
               length h <= l' /\
               exists st, h !! l = Some (OItem st) /\
                 h' !! l' = Some (OItem (Item_clone (Item_clone st))))
            (items c) (items c') /\
    extra_fields c' = VRef le' /\ length h <= le' /\
    h' !! le' = Some (ODict kvs') /\ dict_keys kvs' = dict_keys kvs /\
    (forall n j, snap n h (extra_fields c) = Some j ->
                 snap n h' (extra_fields c') = Some j) /\
    separate (length h) h' /\
    (forall l o, length h <= l ->
       (forall item, item ∈ items c -> <[l := o]> h' !! item = h !! item) /\
       (forall n, snap n (<[l := o]> h') (extra_fields c) =
                  snap n h (extra_fields c))) /\
    (forall l o, l < length h ->
       (forall item, item ∈ items c' -> <[l := o]> h' !! item = h' !! item) /\
       (forall n, snap n (<[l := o]> h') (extra_fields c') =
                  snap n h' (extra_fields c'))).
Proof.
  intros Hclosed Hitems Hef.
  destruct (item_states_exist h (items c) Hitems) as [sts Hsts].
  destruct (clone_spec c h kvs sts Hclosed Hsts Hef)
    as (le & m' & hb & Hpost & Hcopy & Hrun).
  pose proof Hpost as (Hinv & Hpb & _ & _ & Hv' & Hdom & Hnew).
  destruct Hef as (le0 & Hef & Hle0 & Hnd).
  rewrite Hef in Hv', Hdom. simpl in Hv', Hdom. destruct Hdom as [b Hb].
  rewrite Hb in Hv'. injection Hv' as <-.
  set (ha := h ++ clones sts) in *.
  set (tail := match kvs with [] => [ODict []] | _ => [] end) in Hrun.
  set (k := clones (Item_clone <$> sts) ++ tail) in Hrun.
  set (h' := hb ++ k) in *.
  assert (Hk : Forall (fun o => obj_vals o = []) k).
  { apply Forall_app. split; [apply clones_no_vals|].
    unfold tail. destruct kvs; repeat constructor. }
  assert (Hpa : h `prefix_of` ha) by (by apply prefix_app_r).
  assert (Hp' : hb `prefix_of` h') by (by apply prefix_app_r).
  assert (Hph : h `prefix_of` h') by (etrans; [exact Hpa|]; by etrans).
  assert (Hlen : length h <= length ha /\ length ha <= length hb).
  { split; by apply prefix_length. }
  assert (Hle : length ha <= le) by (destruct (inv_memo _ _ _ Hinv _ _ Hb); lia).
  assert (Hsep : separate (length h) h') by (by eapply separate_clone).
  assert (Hextra : exists le' kvs',
    (match kvs with [] => VRef (length hb + length sts) | _ => VRef le end)
      = VRef le' /\ length h <= le' /\
    h' !! le' = Some (ODict kvs') /\ dict_keys kvs' = dict_keys kvs /\
    (forall n j, snap n h (VRef le0) = Some j ->
                 snap n h' (VRef le') = Some j)).
  { destruct kvs as [|kv kvs].
    - exists (length hb + length sts), []. split; [done|]. split; [lia|].
      assert (Hnewd : h' !! (length hb + length sts) = Some (ODict [])).
      { unfold h', k, tail. rewrite app_assoc.
        assert (length (hb ++ clones (Item_clone <$> sts))
                = length hb + length sts) as <-
          by (rewrite length_app; unfold clones; by rewrite !length_fmap).
        by apply list_lookup_middle. }
      split; [done|]. split; [done|].
      intros [|n] j Hs; [done|]. simpl in Hs. rewrite Hle0 in Hs.
      injection Hs as <-. simpl. by rewrite Hnewd.
    - exists le, (prod_map id (rename m') <$> (kv :: kvs)).
      split; [done|]. split; [lia|].
      split; [by eapply prefix_lookup_Some|]. split.
      { unfold dict_keys. rewrite <- list_fmap_compose.
        by apply list_fmap_ext. }
      intros n j Hs. eapply snap_prefix; [exact Hp'|].
      assert (Hren : rename m' (VRef le0) = VRef le) by (simpl; by rewrite Hb).
      rewrite <- Hren. eapply (snap_copied ha).
      + intros a b' Hab. by apply Hnew.
      + by exists le.
      + by eapply snap_prefix. }
  destruct Hextra as (le' & kvs' & Hef' & Hle' & Hlk' & Hkeys & Hcontent).
  eexists _, h', le', kvs'. split; [exact Hrun|]. simpl.
  rewrite Hef'. split_and!; try done.
  - pose proof (item_states_clones hb (Item_clone <$> sts)) as Hcl.
    rewrite length_fmap in Hcl. unfold item_states in Hcl.
    rewrite !Forall2_fmap_r in Hcl.
    assert (Hcl' : Forall2 (fun l' st =>
                length h <= l' /\
                h' !! l' = Some (OItem (Item_clone (Item_clone st))))
              (seq (length hb) (length sts)) sts).
    { eapply Forall2_with_l; [exact Hcl | |].
      - apply Forall_seq. intros i Hi. exact Hi.
      - intros l' st Hl' Hi. simpl in *. split; [lia|].
        unfold h', k. rewrite app_assoc. by apply lookup_app_l_Some. }
    eapply Forall2_impl; [exact (Forall2_share_r _ _ _ _ _ Hsts Hcl')|].
    intros l l' (st & Hl & Hfresh & Hl'). split; [done|]. by exists st.
  - rewrite Hef. done.
  - intros l o Hl. split.
    + intros item Hitem. rewrite Forall_forall in Hitems.
      destruct (Hitems item Hitem) as [st Hst].
      pose proof (lookup_lt_Some _ _ _ Hst).
      rewrite list_lookup_insert_ne by lia.
      rewrite Hst. by eapply prefix_lookup_Some.
    + intros n. symmetry.
      apply (snap_agree (fun a => a < length h)).
      * intros a Ha. rewrite list_lookup_insert_ne by lia.
        by apply prefix_lookup_lt.
      * intros a o' _ Ha. exact (Hclosed a o' Ha).
      * rewrite Hef. simpl. by eapply lookup_lt_Some.
  - intros l o Hl. split.
    + intros item Hitem. apply elem_of_seq in Hitem.
      rewrite list_lookup_insert_ne by lia. done.
    + intros n. symmetry.
      apply (snap_agree (fun a => length h <= a)).
      * intros a Ha. rewrite list_lookup_insert_ne by lia. done.
      * intros a o' Ha Hlk. by eapply Hsep.
      * done.
Qed.


(** C4 (amended): the extra fields of a collection produced by
    [from_dict], by [from_file] or by addition never contain ["type"]
    or ["features"].  The constructor does not filter: it keeps a
    non-empty dictionary it is given as the same object, with the
    entries it has, and makes a new empty dictionary when the argument
    is an empty dictionary or is missing; [clone] copies the keys of its
    source.  What they produce is free of the reserved keys exactly when
    the argument, or the source, is. *)
Theorem extra_fields_reserved_keys :
  (forall d h c h', from_dict d h = (Ok c, h') -> reserved_free h' c) /\
  (forall href io h c h',
     from_file href io h = (Ok c, h') -> reserved_free h' c) /\
  (forall A B h c h',
     __add__ A (ObjItemCollection B) h = (Ok (AddValue c), h') ->
     reserved_free h' c) /\
  (forall xs ef b h c h',
     __init__ xs ef b h = (Ok c, h') ->
     extra_fields c = ef \/
     exists l, extra_fields c = VRef l /\ h' !! l = Some (ODict [])) /\
  (forall xs le kvs b h c h',
     h !! le = Some (ODict kvs) ->
     __init__ xs (VRef le) b h = (Ok c, h') ->
     h' !! le = Some (ODict kvs) /\
     (kvs <> [] -> extra_fields c = VRef le) /\
     (kvs = [] -> exists l, extra_fields c = VRef l /\ length h <= l /\
                            h' !! l = Some (ODict [])) /\
     (reserved_free h' c <->
      ("type" ∉ dict_keys kvs) /\ ("features" ∉ dict_keys kvs))) /\
  (forall xs b h c h',
     __init__ xs VNone b h = (Ok c, h') ->
     (exists l, extra_fields c = VRef l /\ length h <= l /\
                h' !! l = Some (ODict [])) /\
     reserved_free h' c) /\
  (forall c h kvs,
     closed h -> Forall (is_item h) (items c) ->
     dict_at h (extra_fields c) kvs ->
     exists c' h' kvs', clone c h = (Ok c', h') /\
                        dict_at h' (extra_fields c') kvs' /\
                        dict_keys kvs' = dict_keys kvs /\
                        (reserved_free h' c' <->
                         ("type" ∉ dict_keys kvs) /\
                         ("features" ∉ dict_keys kvs))).
Proof.
  split_and!.
  - apply from_dict_reserved_free.
  - intros href io h c h'. unfold from_file.
    destruct (read_json _ _) as [e|j]; [done|].
    rewrite bind_run. unfold build_call. destruct (build j h) as [d h1].
    apply from_dict_reserved_free.
  - intros A B h c h'. unfold __add__. rewrite bind_run.
    destruct (__init__ _ VNone false h) as [[c0|e] h1] eqn:Hinit; [|done].
    intros [= <- <-].
    destruct (init_extra_fields_none _ _ _ _ _ Hinit) as (l & Hef & _ & Hl).
    exists l, []. split; [done|]. split; [done|].
    split; apply not_elem_of_nil.
  - apply init_extra_fields.
  - intros xs le kvs b h c h' Hle Hrun.
    destruct (init_extra_fields_dict _ _ _ _ _ _ _ Hle Hrun)
      as (Hp & Hkeep & Hnew).
    pose proof (prefix_lookup_Some _ _ _ _ Hle Hp) as Hle'.
    split; [done|]. split; [done|]. split; [done|].
    destruct kvs as [|kv kvs].
    + destruct (Hnew eq_refl) as (l & Hef & _ & Hl).
      by rewrite (reserved_free_dict _ _ _ _ Hef Hl).
    + by apply (reserved_free_dict _ _ le); [apply Hkeep|].
  - intros xs b h c h' Hrun.
    destruct (init_extra_fields_none _ _ _ _ _ Hrun) as (l & Hef & Hlen & Hl).
    split; [by exists l|]. apply (reserved_free_dict _ _ _ _ Hef Hl).
    split; apply not_elem_of_nil.
  - intros c h kvs Hclosed Hitems Hef.
    destruct (clone_extra_fields c h kvs Hclosed Hitems Hef)
      as (c' & h' & kvs' & Hrun & Hat & Hkeys).
    exists c', h', kvs'. split; [done|]. split; [done|]. split; [done|].
    destruct Hat as (l & Hef' & Hl & _).
    by rewrite (reserved_free_dict _ _ _ _ Hef' Hl), Hkeys.
Qed.


(** ** Further properties *)

(** *** Indexing *)

Lemma getitem_nonneg (c : ItemCollection) (i : nat) :
  __getitem__ c (Z.of_nat i) =
    match items c !! i with
    | Some item => inr item
    | None => inl list_index_out_of_range
    end.
Proof.
  unfold __getitem__. simpl.
  destruct (Z.ltb_spec (Z.of_nat i) 0) as [Hneg|_]; [lia|].
  destruct (Z.leb_spec 0 (Z.of_nat i)) as [_|Hneg]; [|lia]. simpl.
  rewrite Nat2Z.id.
  destruct (Z.ltb_spec (Z.of_nat i) (Z.of_nat (length (items c)))) as [Hlt|Hge];
    [done|].
  rewrite lookup_ge_None_2 by lia. done.
Qed.

Lemma getitem_negative (c : ItemCollection) (idx : Z) :
  (idx < 0)%Z ->
  __getitem__ c idx =
    if (0 <=? idx + Z.of_nat (length (items c)))%Z
    then __getitem__ c (idx + Z.of_nat (length (items c)))
    else inl list_index_out_of_range.
Proof.
  intros Hneg. unfold __getitem__ at 1. simpl.
  destruct (Z.ltb_spec idx 0) as [_|?]; [|lia].
  destruct (Z.leb_spec 0 (idx + Z.of_nat (length (items c)))) as [Hpos|Hlt];
    [|done].
  simpl. unfold __getitem__. simpl.
  destruct (Z.ltb_spec (idx + Z.of_nat (length (items c))) 0) as [?|_]; [lia|].
  destruct (Z.leb_spec 0 (idx + Z.of_nat (length (items c)))) as [_|?]; [|lia].
  done.
Qed.

(** X1: [c[idx]] yields an item exactly when [-len(c) <= idx < len(c)];
    any other index raises [IndexError]. *)
Theorem getitem_in_bounds (c : ItemCollection) (idx : Z) :
  (exists item, __getitem__ c idx = inr item) <->
  (- Z.of_nat (__len__ c) <= idx < Z.of_nat (__len__ c))%Z.
Proof.
  unfold __len__. destruct (Z.lt_ge_cases idx 0) as [Hneg|Hpos].
  - rewrite getitem_negative by done.
    destruct (Z.leb_spec 0 (idx + Z.of_nat (length (items c)))) as [Hge|Hlt].
    + replace (idx + Z.of_nat (length (items c)))%Z
        with (Z.of_nat (Z.to_nat (idx + Z.of_nat (length (items c))))) by lia.
      rewrite getitem_nonneg.
      destruct (items c !! _) as [item|] eqn:Hlk.
      * split; [intros _; lia | intros _; by exists item].
      * apply lookup_ge_None in Hlk. lia.
    + split; [by intros [item ?] | lia].
  - replace idx with (Z.of_nat (Z.to_nat idx)) by lia. rewrite getitem_nonneg.
    destruct (items c !! _) as [item|] eqn:Hlk.
    + apply lookup_lt_Some in Hlk. split; [intros _; lia | by exists item].
    + apply lookup_ge_None in Hlk. split; [by intros [item ?] | lia].
Qed.

(** X2: indexing agrees with iteration.  The [i]-th item [iter(c)]
    yields is [c[i]], and also [c[i - len(c)]]. *)
Theorem getitem_iter (c : ItemCollection) (i : nat) (item : loc) :
  __iter__ c !! i = Some item ->
  __getitem__ c (Z.of_nat i) = inr item /\
  __getitem__ c (Z.of_nat i - Z.of_nat (__len__ c)) = inr item.
Proof.
  unfold __iter__, __len__. intros Hi.
  pose proof (lookup_lt_Some _ _ _ Hi) as Hlt.
  assert (Hget : __getitem__ c (Z.of_nat i) = inr item)
    by (by rewrite getitem_nonneg, Hi).
  split; [done|]. rewrite getitem_negative by lia.
  destruct (Z.leb_spec 0 (Z.of_nat i - Z.of_nat (length (items c))
                          + Z.of_nat (length (items c)))) as [_|?]; [|lia].
  by replace (Z.of_nat i - Z.of_nat (length (items c))
              + Z.of_nat (length (items c)))%Z with (Z.of_nat i) by lia.
Qed.

(** *** Combination, further *)

(** [A + B] on collections of Items, as a run. *)
Lemma add_run (A B : ItemCollection) (h : heap) :
  Forall (is_item h) (items A) -> Forall (is_item h) (items B) ->
  __add__ A (ObjItemCollection B) h =
    (Ok (AddValue {| items := add_loop [] (items A ++ items B);
                     extra_fields := VRef (length h) |}),
     h ++ [ODict []]).
Proof.
  intros HA HB.
  assert (Hitems : Forall (is_item h) (add_loop [] (items A ++ items B))).
  { apply Forall_forall. intros x Hx.
    apply add_loop_elem_of in Hx as [Hx|Hx]; [by apply elem_of_nil in Hx|].
    apply elem_of_app in Hx as [Hx|Hx];
      [revert x Hx; by apply Forall_forall..]. }
  unfold __add__, __init__.
  by rewrite !bind_run, (mapM_map_item_items _ _ Hitems).
Qed.

Lemma is_item_prefix h h' l : h `prefix_of` h' -> is_item h l -> is_item h' l.
Proof. intros Hpre [st Hl]. exists st. by eapply prefix_lookup_Some. Qed.

Lemma add_loop_nodup_id xs : NoDup xs -> add_loop [] xs = xs.
Proof. intros Hnd. by rewrite add_loop_new. Qed.

(** The items already collected are a prefix of the result. *)
Lemma add_loop_absorb combined xs :
  (forall x, x ∈ xs -> x ∈ combined) -> add_loop combined xs = combined.
Proof.
  induction xs as [|x xs IH]; intros Hin; [done|].
  rewrite add_loop_cons, decide_True by (apply Hin; left).
  apply IH. intros y Hy. apply Hin. by right.
Qed.

Lemma add_loop_length combined xs :
  length (add_loop combined xs) <= length combined + length xs.
Proof.
  revert combined. induction xs as [|x xs IH]; intros combined.
  - unfold add_loop. simpl. lia.
  - rewrite add_loop_cons. case_decide.
    + specialize (IH combined). simpl. lia.
    + specialize (IH (combined ++ [x])). rewrite length_app in IH. simpl in *.
      lia.
Qed.

(** Leaving items out before or after the loop comes to the same. *)
Lemma filter_add_loop (P : loc -> Prop) `{!forall x, Decision (P x)} combined xs :
  filter P (add_loop combined xs) = add_loop (filter P combined) (filter P xs).
Proof.
  revert combined. induction xs as [|x xs IH]; intros combined; [done|].
  rewrite add_loop_cons. destruct (decide (P x)) as [HP|HP].
  - rewrite filter_cons_True by done. rewrite add_loop_cons.
    destruct (decide (x ∈ combined)) as [Hin|Hin].
    + rewrite decide_True by (apply list_elem_of_filter; done). apply IH.
    + rewrite decide_False by (rewrite list_elem_of_filter; ptauto).
      rewrite IH, filter_app, filter_cons_True by done. done.
  - rewrite filter_cons_False by done.
    destruct (decide (x ∈ combined)) as [Hin|Hin]; [apply IH|].
    rewrite IH, filter_app, filter_cons_False by done.
    by rewrite filter_nil, app_nil_r.
Qed.

(** Removing the duplicates of the items to come changes nothing. *)
Lemma add_loop_dedup combined xs :
  add_loop combined (add_loop [] xs) = add_loop combined xs.
Proof.
  rewrite (add_loop_filter (length (add_loop [] xs)) combined) by done.
  rewrite (add_loop_filter (length xs) combined xs) by done. f_equal.
  rewrite filter_add_loop, filter_nil.
  apply add_loop_nodup_id, add_loop_NoDup, NoDup_nil_2.
Qed.

Lemma add_loop_assoc xs ys zs :
  add_loop [] (add_loop [] (xs ++ ys) ++ zs) =
  add_loop [] (xs ++ add_loop [] (ys ++ zs)).
Proof.
  rewrite (add_loop_app [] (add_loop [] (xs ++ ys)) zs).
  rewrite (add_loop_nodup_id (add_loop [] (xs ++ ys)))
    by apply add_loop_NoDup, NoDup_nil_2.
  rewrite <- add_loop_app.
  rewrite (add_loop_app [] xs (add_loop [] (ys ++ zs))), add_loop_dedup.
  by rewrite <- add_loop_app, app_assoc.
Qed.

(** X3: addition is associative on the items: [(A + B) + C] and
    [A + (B + C)] hold the same items in the same order. *)
Theorem add_assoc (A B C : ItemCollection) (h : heap) :
  Forall (is_item h) (items A) -> Forall (is_item h) (items B) ->
  Forall (is_item h) (items C) ->
  exists ab h1 l h2 bc h3 r h4,
    __add__ A (ObjItemCollection B) h = (Ok (AddValue ab), h1) /\
    __add__ ab (ObjItemCollection C) h1 = (Ok (AddValue l), h2) /\
    __add__ B (ObjItemCollection C) h = (Ok (AddValue bc), h3) /\
    __add__ A (ObjItemCollection bc) h3 = (Ok (AddValue r), h4) /\
    items l = items r.
Proof.
  intros HA HB HC.
  assert (Hp : h `prefix_of` h ++ [ODict []]) by (by apply prefix_app_r).
  assert (Hin : forall (X Y : ItemCollection),
            Forall (is_item h) (items X) -> Forall (is_item h) (items Y) ->
            Forall (is_item (h ++ [ODict []]))
                   (add_loop [] (items X ++ items Y))).
  { intros X Y HX HY. apply Forall_forall. intros x Hx.
    apply (is_item_prefix h); [done|].
    apply add_loop_elem_of in Hx as [Hx|Hx]; [by apply elem_of_nil in Hx|].
    apply elem_of_app in Hx as [Hx|Hx];
      [revert x Hx; by apply Forall_forall..]. }
  eexists _, _, _, _, _, _, _, _.
  split; [by apply add_run|]. split.
  { apply add_run; simpl; [by apply Hin|].
    eapply Forall_impl; [exact HC|]. intros x. by apply is_item_prefix. }
  split; [by apply add_run|]. split.
  { apply add_run; simpl; [|by apply Hin].
    eapply Forall_impl; [exact HA|]. intros x. by apply is_item_prefix. }
  simpl. apply add_loop_assoc.
Qed.

(** X4: adding a collection whose items are all in [A] already (such as
    [A] itself, or an empty collection) to a collection [A] without
    repeated items yields the items of [A]. *)
Theorem add_absorbs (A B : ItemCollection) (h : heap) :
  Forall (is_item h) (items A) -> Forall (is_item h) (items B) ->
  NoDup (items A) -> (forall x, x ∈ items B -> x ∈ items A) ->
  exists c h', __add__ A (ObjItemCollection B) h = (Ok (AddValue c), h') /\
               items c = items A.
Proof.
  intros HA HB Hnd Hsub. eexists _, _. split; [by apply add_run|]. simpl.
  rewrite add_loop_app, add_loop_nodup_id by done. by apply add_loop_absorb.
Qed.

(** X5: [len(A + B) <= len(A) + len(B)], with equality exactly when no
    item occurs twice in [A.items + B.items]. *)
Theorem add_len (A B : ItemCollection) (h : heap) :
  Forall (is_item h) (items A) -> Forall (is_item h) (items B) ->
  exists c h', __add__ A (ObjItemCollection B) h = (Ok (AddValue c), h') /\
               __len__ c <= __len__ A + __len__ B /\
               (__len__ c = __len__ A + __len__ B <->
                NoDup (items A ++ items B)).
Proof.
  intros HA HB. eexists _, _. split; [by apply add_run|].
  unfold __len__. simpl.
  pose proof (add_loop_length [] (items A ++ items B)) as Hlen.
  rewrite length_app in Hlen. simpl in Hlen. split; [done|]. split.
  - intros Heq.
    assert (Hsub : add_loop [] (items A ++ items B) ⊆+ items A ++ items B).
    { apply NoDup_submseteq; [apply add_loop_NoDup, NoDup_nil_2|].
      intros x Hx. apply add_loop_elem_of in Hx as [Hx|Hx]; [|done].
      by apply elem_of_nil in Hx. }
    apply submseteq_length_Permutation in Hsub;
      [|rewrite length_app; lia].
    rewrite <- Hsub. apply add_loop_NoDup, NoDup_nil_2.
  - intros Hnd. by rewrite add_loop_nodup_id, length_app.
Qed.

(** X6: the items of [A], when none is repeated, keep their positions
    in [A + B]: [(A + B)[i]] is [A[i]] for [0 <= i < len(A)]. *)
Theorem getitem_add_left (A B : ItemCollection) (h : heap) (i : nat) (item : loc) :
  Forall (is_item h) (items A) -> Forall (is_item h) (items B) ->
  NoDup (items A) -> __getitem__ A (Z.of_nat i) = inr item ->
  exists c h', __add__ A (ObjItemCollection B) h = (Ok (AddValue c), h') /\
               __getitem__ c (Z.of_nat i) = inr item.
Proof.
  intros HA HB Hnd Hget. eexists _, _. split; [by apply add_run|].
  rewrite getitem_nonneg in Hget |- *. simpl.
  destruct (items A !! i) as [x|] eqn:Hi; [|done].
  rewrite add_loop_app, add_loop_nodup_id by done.
  rewrite (add_loop_filter (length (items B))) by done.
  by rewrite (lookup_app_l_Some _ _ _ _ Hi).
Qed.

(** *** The constructor, further *)

Lemma is_item_insert h l o x :
  is_item h x -> (l = x -> exists st, o = OItem st) -> is_item (<[l := o]> h) x.
Proof.
  intros [st Hx] Ho. destruct (decide (l = x)) as [->|Hne].
  - destruct (Ho eq_refl) as [st' ->]. exists st'.
    apply list_lookup_insert_eq. by eapply lookup_lt_Some.
  - exists st. by rewrite list_lookup_insert_ne.
Qed.

(** X7: the constructor keeps a non-empty [extra_fields] dictionary as
    the same object, but replaces an empty one by a new dictionary: the
    collection does not share an empty dictionary with its caller. *)
Theorem init_extra_fields_sharing (xs : list pyval) (le : loc)
    (kvs : list (string * pyval)) (b : bool) (h : heap) :
  Forall (item_like h) xs -> h !! le = Some (ODict kvs) ->
  exists c h', __init__ xs (VRef le) b h = (Ok c, h') /\
    (kvs <> [] -> extra_fields c = VRef le) /\
    (kvs = [] -> exists l, extra_fields c = VRef l /\ l <> le /\
                           h' !! l = Some (ODict [])).
Proof.
  intros Hxs Hle.
  destruct (init_spec xs (VRef le) b h Hxs)
    as (c & h1 & h' & _ & Hor & Hrun & Hp1 & _ & _).
  exists c, h'. split; [done|].
  pose proof (prefix_lookup_Some _ _ _ _ Hle Hp1) as Hle1.
  unfold or_empty_dict in Hor. simpl in Hor. rewrite Hle1 in Hor.
  destruct kvs as [|kv kvs]; injection Hor as <- <-.
  - split; [done|]. intros _. exists (length h1). split; [done|].
    split; [apply lookup_lt_Some in Hle1; lia | by apply list_lookup_middle].
  - split; [done|]. done.
Qed.

(** X8: built with [clone_items=False] from Items, a collection holds
    the caller's own objects: the store is left as it is but for the new
    extra fields, and a state the caller later gives to one of them is
    the state the collection serializes. *)
Theorem init_no_clone_shares_items (ls : list loc) (h : heap)
    (i : nat) (x : loc) (st' : ItemState) :
  Forall (is_item h) ls -> ls !! i = Some x ->
  exists c, __init__ (VRef <$> ls) VNone false h = (Ok c, h ++ [ODict []]) /\
    items c = ls /\
    exists l lf feats h3 v,
      to_dict c (<[x := OItem st']> (h ++ [ODict []])) = (Ok (VRef l), h3) /\
      h3 !! l = Some (ODict [("type", VStr "FeatureCollection");
                             ("features", VRef lf)]) /\
      h3 !! lf = Some (OList feats) /\
      feats !! i = Some v /\ represents h3 v (Item_to_dict st').
Proof.
  intros Hls Hi.
  exists {| items := ls; extra_fields := VRef (length h) |}.
  split; [|split; [done|]].
  { unfold __init__. by rewrite bind_run, (mapM_map_item_items _ _ Hls). }
  set (c := {| items := ls; extra_fields := VRef (length h) |}).
  set (h2 := <[x := OItem st']> (h ++ [ODict []])).
  assert (Hx : is_item h x).
  { rewrite Forall_forall in Hls. apply Hls. by eapply list_elem_of_lookup_2. }
  destruct Hx as [st0 Hx0]. pose proof (lookup_lt_Some _ _ _ Hx0) as Hlt.
  assert (Hls2 : Forall (is_item h2) (items c)).
  { eapply Forall_impl; [exact Hls|]. intros l Hl. apply is_item_insert.
    - eapply is_item_prefix; [|exact Hl]. by apply prefix_app_r.
    - intros _. by exists st'. }
  assert (Hef : dict_at h2 (extra_fields c) []).
  { exists (length h). split; [done|]. split; [|apply NoDup_nil_2].
    unfold h2. rewrite list_lookup_insert_ne by lia.
    by apply list_lookup_middle. }
  destruct (to_dict_spec c h2 [] Hls2 Hef)
    as (feats & h1 & _ & Hp1 & Hser & Hrun).
  destruct (Forall2_lookup_l _ _ _ _ _ Hser Hi) as (v & Hv & st & Hst & Hrep).
  exists (S (length h1)), (length h1), feats. eexists _, v.
  split; [exact Hrun|]. split.
  { rewrite lookup_app_r by lia.
    by replace (S (length h1) - length h1) with 1 by lia. }
  split; [by apply list_lookup_middle|]. split; [done|].
  unfold h2 in Hst. rewrite list_lookup_insert_eq in Hst
    by (rewrite length_app; simpl; lia).
  injection Hst as <-. eapply represents_prefix; [|exact Hrep].
  by apply prefix_app_r.
Qed.

(** X9: built with [clone_items=True] from Items, a collection holds
    new objects only, each with the state of the clone of the Item given:
    assigning to any object the caller had leaves the items of the
    collection as they are, and assigning to an item of the collection
    leaves every object the caller had as it was. *)
Theorem init_clone_isolates_items (ls : list loc) (ef : pyval) (h : heap) :
  Forall (is_item h) ls ->
  exists c h', __init__ (VRef <$> ls) ef true h = (Ok c, h') /\
    Forall2 (fun x item => length h <= item /\
               exists st, h !! x = Some (OItem st) /\
                          h' !! item = Some (OItem (Item_clone st)))
            ls (items c) /\
    (forall l o item, l < length h -> item ∈ items c ->
                      <[l := o]> h' !! item = h' !! item) /\
    (forall l o x, l ∈ items c -> x < length h ->
                   <[l := o]> h' !! x = h !! x).
Proof.
  intros Hls. destruct (item_states_exist h ls Hls) as [sts Hsts].
  destruct (or_empty_dict_spec ef (h ++ clones sts))
    as (v & h' & Hor & Hp' & _).
  exists {| items := seq (length h) (length sts); extra_fields := v |}, h'.
  assert (Hp : h `prefix_of` h').
  { etrans; [|exact Hp']. by apply prefix_app_r. }
  split; [|split; [|split]].
  - unfold __init__.
    by rewrite bind_run, (mapM_map_item_true_run h ls sts Hsts h), bind_run, Hor.
  - simpl. pose proof (item_states_clones h sts) as Hcl.
    unfold item_states in Hcl. rewrite Forall2_fmap_r in Hcl.
    assert (Hcl' : Forall2 (fun item st =>
                length h <= item /\ h' !! item = Some (OItem (Item_clone st)))
              (seq (length h) (length sts)) sts).
    { eapply Forall2_with_l; [exact Hcl | |].
      - apply Forall_seq. intros j Hj. exact Hj.
      - intros item st Hitem Hj. simpl in *. split; [lia|].
        by eapply prefix_lookup_Some. }
    eapply Forall2_impl; [exact (Forall2_share_r _ _ _ _ _ Hsts Hcl')|].
    intros x item (st & Hx & Hfresh & Hitem). split; [done|]. by exists st.
  - simpl. intros l o item Hl Hitem. apply elem_of_seq in Hitem.
    by rewrite list_lookup_insert_ne by lia.
  - simpl. intros l o x Hl Hx. apply elem_of_seq in Hl.
    rewrite list_lookup_insert_ne by lia. symmetry.
    by apply prefix_lookup_lt.
Qed.

(** *** Parsing, further *)

Lemma mapM_Item_from_dict_ok h0 fs :
  Forall (parseable h0) fs ->
  forall h, h0 `prefix_of` h ->
  exists its h', mapM Item_from_dict_call fs h = (Ok its, h') /\
                 h `prefix_of` h' /\ Forall2 (parsed h h') fs its.
Proof.
  intros Hfs h Hpre.
  destruct (mapM_spec Item_from_dict_call (fun _ _ _ => True) h0 fs)
    with (h := h) as (its & h' & Hrun & Hp & _); [done | | done |].
  - eapply Forall_impl; [exact Hfs|]. intros f Hf h1 Hp1.
    destruct (Hf h1 Hp1) as [st Hst]. unfold Item_from_dict_call.
    rewrite Hst, alloc_run. eexists _, _. split; [done|].
    split; [by apply prefix_app_r | done].
  - exists its, h'. split; [done|]. split; [done|].
    by eapply mapM_Item_from_dict_inv.
Qed.

Lemma mapM_raise_at {A B} (f : A -> PyM B) xs x ys zs e h h1 h2 :
  mapM f xs h = (Ok zs, h1) -> f x h1 = (Raise e, h2) ->
  mapM f (xs ++ x :: ys) h = (Raise e, h2).
Proof.
  revert zs h. induction xs as [|x' xs IH]; intros zs h Hrun Hx.
  - injection Hrun as <- <-. simpl app. by rewrite mapM_run_cons, Hx.
  - rewrite mapM_run_cons in Hrun. simpl app. rewrite mapM_run_cons.
    destruct (f x' h) as [[y|e'] h'] eqn:Hx'; [|done].
    destruct (mapM f xs h') as [[ys'|e'] h''] eqn:Hxs; [|done].
    injection Hrun as <- <-. by rewrite (IH _ _ Hxs Hx).
Qed.

Lemma mapM_Item_from_dict_raise fs : forall h e h',
  mapM Item_from_dict_call fs h = (Raise e, h') ->
  h `prefix_of` h' /\
  exists ie f h1, e = ItemError ie /\ f ∈ fs /\ Item_from_dict h1 f = inl ie.
Proof.
  induction fs as [|f fs IH]; intros h e h' Hrun; [done|].
  rewrite mapM_run_cons in Hrun. unfold Item_from_dict_call at 1 in Hrun.
  destruct (Item_from_dict h f) as [ie|st] eqn:Hparse.
  - injection Hrun as <- <-. split; [done|]. exists ie, f, h.
    split; [done|]. split; [by left | done].
  - rewrite alloc_run in Hrun.
    destruct (mapM Item_from_dict_call fs (h ++ [OItem st]))
      as [[ls|e'] h2] eqn:Hrest; [done|].
    injection Hrun as <- <-.
    destruct (IH _ _ _ Hrest) as (Hp & ie & f' & h1 & He & Hin & Hf').
    split; [etrans; [|exact Hp]; by apply prefix_app_r|].
    exists ie, f', h1. split; [done|]. split; [by right | done].
Qed.

Lemma from_dict_result_prefix kvs its h3 :
  h3 `prefix_of` (from_dict_result kvs its h3).2.
Proof. by destruct (from_dict_result_extra kvs its h3) as (? & ? & _ & _ & _ & _ & ?). Qed.

(** X10: a dictionary without the key ["features"] is parsed into an
    empty collection; its extra fields are the entries of the dictionary
    other than ["type"], in a new object. *)
Theorem from_dict_missing_features (ld : loc) (kvs : list (string * pyval))
    (h : heap) :
  identify_stac_object_type h (VRef ld) = Some ITEMCOLLECTION ->
  h !! ld = Some (ODict kvs) -> dict_get "features" kvs = None ->
  exists c h' le,
    from_dict (VRef ld) h = (Ok c, h') /\ h `prefix_of` h' /\
    __len__ c = 0 /\ extra_fields c = VRef le /\ length h <= le /\
    h' !! le = Some (ODict (filter (fun kv => not_reserved kv.1) kvs)).
Proof.
  intros Hid Hld Hnone.
  assert (Hrun := from_dict_run ld kvs [] [] h (h ++ [OList []]) Hid Hld).
  destruct (from_dict_result_extra kvs [] (h ++ [OList []]))
    as (le & extra & Hef & Hle & -> & Hitems & Hp).
  pose proof (lookup_lt_Some _ _ _ Hle) as Hlt.
  destruct (from_dict_result kvs [] (h ++ [OList []])) as [c h'] eqn:Hres.
  simpl in *. exists c, h', le. split.
  { apply Hrun; [|done]. unfold features_of, py_iter. rewrite Hnone. simpl.
    by rewrite list_lookup_middle. }
  split; [etrans; [|exact Hp]; by apply prefix_app_r|].
  split; [unfold __len__; by rewrite Hitems|]. split; [done|].
  split; [|done].
  unfold from_dict_result in Hres.
  destruct (filter _ kvs); injection Hres as <- <-; simpl in Hef;
    injection Hef as <-; rewrite length_app; simpl; lia.
Qed.

(** X11: [from_dict] parses every feature into a new Item, in order, and
    keeps the entries of the dictionary other than ["type"] and
    ["features"] as the extra fields, in their order and with the very
    values the dictionary holds (nothing is copied); the dictionary
    itself is left as it was. *)
Theorem from_dict_keeps_extra_fields (ld lf : loc)
    (kvs : list (string * pyval)) (fs : list pyval) (h : heap) :
  identify_stac_object_type h (VRef ld) = Some ITEMCOLLECTION ->
  h !! ld = Some (ODict kvs) ->
  dict_get "features" kvs = Some (VRef lf) -> h !! lf = Some (OList fs) ->
  Forall (parseable h) fs ->
  exists c h' le,
    from_dict (VRef ld) h = (Ok c, h') /\ h `prefix_of` h' /\
    Forall2 (parsed h h') fs (items c) /\
    extra_fields c = VRef le /\ le <> ld /\
    h' !! le = Some (ODict (filter (fun kv => not_reserved kv.1) kvs)) /\
    h' !! ld = Some (ODict kvs).
Proof.
  intros Hid Hld Hfeat Hlf Hfs.
  assert (Hp0 : h `prefix_of` h ++ [OList []]) by (by apply prefix_app_r).
  destruct (mapM_Item_from_dict_ok h fs Hfs _ Hp0)
    as (its & h3 & Hparse & Hp3 & Hps).
  assert (Hrun := from_dict_run ld kvs fs its h h3 Hid Hld).
  destruct (from_dict_result_extra kvs its h3)
    as (le & extra & Hef & Hle & -> & Hitems & Hp).
  assert (Hlen : length h3 <= le).
  { clear -Hef. unfold from_dict_result in Hef.
    destruct (filter _ kvs); simpl in Hef; injection Hef as <-; lia. }
  destruct (from_dict_result kvs its h3) as [c h'] eqn:Hres. simpl in *.
  assert (Hph : h `prefix_of` h') by (etrans; [exact Hp0|]; by etrans).
  exists c, h', le. split.
  { apply Hrun; [|done]. unfold features_of, py_iter. rewrite Hfeat. simpl.
    by rewrite (prefix_lookup_Some _ _ _ _ Hlf Hp0). }
  split; [done|]. split.
  { rewrite Hitems. eapply Forall2_impl; [exact Hps|]. intros f l Hfl.
    eapply parsed_prefix; [exact Hp|].
    eapply parsed_weaken; [exact Hp0 | exact Hfl]. }
  split; [done|]. split.
  { apply lookup_lt_Some in Hld. apply prefix_length in Hp3.
    apply prefix_length in Hp0. lia. }
  split; [done|]. by eapply prefix_lookup_Some.
Qed.

(** X12: when ["features"] is bound to [None], a boolean or a number,
    [from_dict] raises [TypeError] before any Item is parsed. *)
Theorem from_dict_features_not_iterable (ld : loc)
    (kvs : list (string * pyval)) (v : pyval) (h : heap) :
  identify_stac_object_type h (VRef ld) = Some ITEMCOLLECTION ->
  h !! ld = Some (ODict kvs) ->
  dict_get "features" kvs = Some v -> not_iterable v ->
  from_dict (VRef ld) h = (Raise TypeError, h ++ [OList []]).
Proof.
  intros Hid Hld Hfeat Hv. unfold from_dict. rewrite decide_True by done.
  unfold from_dict_body.
  rewrite bind_run, (dict_items_run _ _ _ Hld), bind_run, alloc_run, bind_run.
  rewrite Hfeat. by destruct v.
Qed.

(** X13: the exception [Item.from_dict] raises on the first feature it
    rejects is the exception [from_dict] raises. *)
Theorem from_dict_item_error (ld lf : loc) (kvs : list (string * pyval))
    (fs1 fs2 : list pyval) (f : pyval) (e : ItemExn) (h : heap) :
  identify_stac_object_type h (VRef ld) = Some ITEMCOLLECTION ->
  h !! ld = Some (ODict kvs) ->
  dict_get "features" kvs = Some (VRef lf) ->
  h !! lf = Some (OList (fs1 ++ f :: fs2)) ->
  Forall (parseable h) fs1 ->
  (forall h', h `prefix_of` h' -> Item_from_dict h' f = inl e) ->
  exists h', from_dict (VRef ld) h = (Raise (ItemError e), h') /\
             h `prefix_of` h'.
Proof.
  intros Hid Hld Hfeat Hlf Hfs1 Hf.
  assert (Hp0 : h `prefix_of` h ++ [OList []]) by (by apply prefix_app_r).
  destruct (mapM_Item_from_dict_ok h fs1 Hfs1 _ Hp0)
    as (its & h3 & Hparse & Hp3 & _).
  assert (Hph3 : h `prefix_of` h3) by (by etrans).
  exists h3. split; [|done].
  unfold from_dict. rewrite decide_True by done. unfold from_dict_body.
  rewrite bind_run, (dict_items_run _ _ _ Hld), bind_run, alloc_run, bind_run.
  rewrite Hfeat. unfold py_iter. simpl.
  rewrite (prefix_lookup_Some _ _ _ _ Hlf Hp0), bind_run.
  rewrite (mapM_raise_at Item_from_dict_call fs1 f fs2 its (ItemError e)
             _ h3 h3 Hparse); [done|].
  unfold Item_from_dict_call. by rewrite (Hf h3 Hph3).
Qed.

(** What [from_dict] raises, and when. *)
Lemma from_dict_raise_inv d h e h' :
  from_dict d h = (Raise e, h') ->
  (e = STACTypeError "Dict is not a valid ItemCollection" /\ h' = h /\
   identify_stac_object_type h d <> Some ITEMCOLLECTION) \/
  (e = AttributeError /\ h' = h /\
   forall l kvs, d = VRef l -> h !! l <> Some (ODict kvs)) \/
  (e = TypeError /\ h' = h ++ [OList []] /\
   exists l kvs, d = VRef l /\ h !! l = Some (ODict kvs)) \/
  (h `prefix_of` h' /\
   exists ie f h1, e = ItemError ie /\ Item_from_dict h1 f = inl ie).
Proof.
  intros Hrun. pose proof Hrun as Hrun0. unfold from_dict in Hrun.
  case_decide as Hid; [|left; by injection Hrun as <- <-].
  right. unfold from_dict_body in Hrun. rewrite bind_run in Hrun.
  destruct (dict_items d h) as [[kvs|e1] h1] eqn:Hd.
  - apply dict_items_inv in Hd as (ld & -> & Hld & ->). right.
    rewrite bind_run, alloc_run, bind_run in Hrun.
    destruct (py_iter _ (h ++ [OList []])) as [[fs|e2] h2] eqn:Hit.
    + pose proof (py_iter_inv _ _ _ _ Hit) as ->. right.
      rewrite bind_run in Hrun.
      destruct (mapM Item_from_dict_call fs (h ++ [OList []]))
        as [[its|e3] h3] eqn:Hparse.
      * rewrite (from_dict_run ld kvs fs its h h3) in Hrun0 by done. done.
      * injection Hrun as <- <-.
        destruct (mapM_Item_from_dict_raise _ _ _ _ Hparse)
          as (Hp & ie & f & h1 & -> & _ & Hf).
        split; [etrans; [|exact Hp]; by apply prefix_app_r|]. by exists ie, f, h1.
    + left. injection Hrun as <- <-. pose proof (py_iter_inv _ _ _ _ Hit) as ->.
      split; [|split; [done | by exists ld, kvs]].
      unfold py_iter in Hit. by repeat case_match; simplify_eq.
  - left. injection Hrun as <- <-. unfold dict_items in Hd.
    assert (e1 = AttributeError /\ h1 = h) as [-> ->]
      by (by repeat case_match; simplify_eq).
    split; [done|]. split; [done|]. intros l kvs -> Hl. by rewrite Hl in Hd.
Qed.

(** X14: [from_dict] raises nothing but its own [STACTypeError] (the type
    identifier did not report ITEMCOLLECTION; the store is untouched),
    [AttributeError] (the argument is not a dictionary; the store is
    untouched), [TypeError] (the features cannot be iterated over) or the
    exception of [Item.from_dict] on a feature; what was in the store
    stays there. *)
Theorem from_dict_raises_only (d : pyval) (h : heap) (e : exn) (h' : heap) :
  from_dict d h = (Raise e, h') ->
  h `prefix_of` h' /\
  ((e = STACTypeError "Dict is not a valid ItemCollection" /\ h' = h /\
    identify_stac_object_type h d <> Some ITEMCOLLECTION) \/
   (e = AttributeError /\ h' = h /\
    forall l kvs, d = VRef l -> h !! l <> Some (ODict kvs)) \/
   (e = TypeError /\ exists l kvs, d = VRef l /\ h !! l = Some (ODict kvs)) \/
   (exists ie f h1, e = ItemError ie /\ Item_from_dict h1 f = inl ie)).
Proof.
  intros Hrun.
  destruct (from_dict_raise_inv d h e h' Hrun)
    as [(-> & -> & Hid)|[(-> & -> & Hd)|[(-> & -> & Hd)|(Hp & Hie)]]].
  - split; [done|]. by left.
  - split; [done|]. right. by left.
  - split; [by apply prefix_app_r|]. right. right. by left.
  - split; [done|]. by do 3 right.
Qed.

(** Each feature is parsed into one new object. *)
Lemma mapM_Item_from_dict_seq fs : forall h its h',
  mapM Item_from_dict_call fs h = (Ok its, h') ->
  its = seq (length h) (length fs).
Proof.
  induction fs as [|f fs IH]; intros h its h' Hrun.
  - by injection Hrun as <- <-.
  - rewrite mapM_run_cons in Hrun. unfold Item_from_dict_call at 1 in Hrun.
    destruct (Item_from_dict h f) as [ie|st]; [done|].
    rewrite alloc_run in Hrun.
    destruct (mapM Item_from_dict_call fs (h ++ [OItem st]))
      as [[ls|e] h2] eqn:Hrest; [|done].
    injection Hrun as <- <-. rewrite (IH _ _ _ Hrest), length_app. simpl.
    by replace (length h + 1) with (S (length h)) by lia.
Qed.

(** X15: the items of a parsed collection are new objects, one for each
    feature (also when a feature is listed twice): no item is repeated,
    and nothing that was in the store before the call is a member. *)
Theorem from_dict_items_new (d : pyval) (h : heap) (c : ItemCollection)
    (h' : heap) :
  from_dict d h = (Ok c, h') ->
  h `prefix_of` h' /\ NoDup (items c) /\
  Forall (fun item => length h <= item /\ is_item h' item) (items c) /\
  (forall l, l < length h -> __contains__ c (VRef l) = false).
Proof.
  intros Hrun.
  destruct (from_dict_inv d h c h' Hrun)
    as (ld & kvs & fs & its & h3 & -> & Hld & Hid & Hfs & Hparse & Hres).
  destruct (from_dict_result_extra kvs its h3)
    as (le & extra & _ & _ & _ & Hitems & Hp).
  rewrite <- Hres in Hitems, Hp. simpl in Hitems, Hp.
  destruct (mapM_Item_from_dict_inv _ _ _ _ Hparse) as [Hp3 Hps].
  pose proof (mapM_Item_from_dict_seq _ _ _ _ Hparse) as Hseq.
  rewrite length_app in Hseq. simpl in Hseq.
  assert (Hp0 : h `prefix_of` h ++ [OList []]) by (by apply prefix_app_r).
  split; [etrans; [exact Hp0|]; by etrans|].
  rewrite Hitems. split; [rewrite Hseq; apply NoDup_seq|]. split.
  - eapply Forall2_Forall_r with (P := fun _ => True);
      [exact Hps | by apply Forall_true |].
    intros f l _ (Hl & h1 & st & _ & _ & _ & Hlk). rewrite length_app in Hl.
    split; [lia|]. exists st. by eapply prefix_lookup_Some.
  - intros l Hl. unfold __contains__, py_in. rewrite Hitems, Hseq.
    apply bool_decide_eq_false. rewrite elem_of_seq. lia.
Qed.

(** *** Reading a file *)

(** X16: [from_file] raises the reader's exception exactly when
    [read_json] raises it, on the href made absolute and with the default
    [StacIO] when none is given; nothing is built then.  [from_dict] raises
    no exception of the reader. *)
Theorem from_file_io_error (href : string) (stac_io : option StacIO)
    (h : heap) (e : IOExn) (h' : heap) :
  from_file href stac_io h = (Raise (IOError e), h') <->
  read_json (default StacIO_default stac_io)
            (if is_absolute_href href then href else make_absolute_href href)
    = inl e /\ h' = h.
Proof.
  unfold from_file.
  destruct (read_json _ _) as [e0|j].
  - split; [by intros [= <- <-] | by intros [[= <-] ->]].
  - split; [|by intros [? _]]. rewrite bind_run.
    destruct (build_call j h) as [[d|e1] h1] eqn:Hbuild.
    + intros Hrun. apply from_dict_raise_inv in Hrun.
      by destruct Hrun as [(? & _)|[(? & _)|[(? & _)|(_ & ? & ? & ? & ? & _)]]].
    + unfold build_call in Hbuild. by destruct (build j h).
Qed.

(** *** Membership *)

(** X17: the members of a collection are the objects found at its
    indices; a value that is not a reference to one of them, such as a
    dictionary with the content of an item, is not a member. *)
Theorem contains_getitem (c : ItemCollection) (v : pyval) :
  __contains__ c v = true <->
  exists l i, v = VRef l /\ __getitem__ c (Z.of_nat i) = inr l.
Proof.
  unfold __contains__, py_in. split.
  - destruct v as [| | | |l]; try done. rewrite bool_decide_eq_true.
    intros [i Hi]%list_elem_of_lookup_1. exists l, i. split; [done|].
    by rewrite getitem_nonneg, Hi.
  - intros (l & i & -> & Hget). rewrite getitem_nonneg in Hget.
    apply bool_decide_eq_true. destruct (items c !! i) as [x|] eqn:Hi; [|done].
    injection Hget as ->. by eapply list_elem_of_lookup_2.
Qed.

(** *** What the constructor raises *)

Lemma map_item_raise b x h e h' :
  map_item b x h = (Raise e, h') ->
  h' = h /\ item_state h x = None /\
  exists ie, e = ItemError ie /\ Item_from_dict h x = inl ie.
Proof.
  unfold map_item. destruct (item_state h x) as [st|] eqn:Hst.
  - destruct x as [| | | |l]; try discriminate Hst. simpl in Hst.
    destruct (h !! l) as [[xs|kvs|st']|] eqn:Hl; try discriminate Hst.
    simpl. rewrite Hl.
    destruct b; [|done]. unfold Item_clone_call. by rewrite Hl, alloc_run.
  - intros Hrun.
    assert (Hcall : Item_from_dict_call x h = (Raise e, h'))
      by (destruct x; try done; by rewrite Hst in Hrun).
    unfold Item_from_dict_call in Hcall.
    destruct (Item_from_dict h x) as [ie|st] eqn:Hparse;
      [|by rewrite alloc_run in Hcall].
    injection Hcall as <- <-. split; [done|]. split; [done|]. by exists ie.
Qed.

Lemma mapM_map_item_raise b xs : forall h e h',
  mapM (map_item b) xs h = (Raise e, h') ->
  h `prefix_of` h' /\
  exists ie x, e = ItemError ie /\ x ∈ xs /\ item_state h' x = None /\
               Item_from_dict h' x = inl ie.
Proof.
  induction xs as [|x xs IH]; intros h e h' Hrun; [done|].
  rewrite mapM_run_cons in Hrun.
  destruct (map_item b x h) as [[l|e1] h1] eqn:Hx.
  - destruct (mapM (map_item b) xs h1) as [[ls|e2] h2] eqn:Hxs; [done|].
    injection Hrun as <- <-.
    destruct (IH _ _ _ Hxs) as (Hp & ie & y & -> & Hin & Hst & Hy).
    split; [etrans; [by eapply map_item_prefix | done]|].
    exists ie, y. split; [done|]. split; [by right | done].
  - injection Hrun as <- <-.
    apply map_item_raise in Hx as (-> & Hst & ie & -> & Hie).
    split; [done|]. exists ie, x. split; [done|]. split; [by left | done].
Qed.

(** X18: the constructor raises nothing of its own.  When it raises, an
    element that is not an Item was handed to [Item.from_dict], which
    raised the exception; the elements before it were converted, and
    what was in the store is still there. *)
Theorem init_raises_only (xs : list pyval) (ef : pyval) (b : bool)
    (h : heap) (e : exn) (h' : heap) :
  __init__ xs ef b h = (Raise e, h') ->
  h `prefix_of` h' /\
  exists ie x, e = ItemError ie /\ x ∈ xs /\ item_state h' x = None /\
               Item_from_dict h' x = inl ie.
Proof.
  unfold __init__. rewrite bind_run.
  destruct (mapM (map_item b) xs h) as [[its|e1] h1] eqn:Hmap.
  - rewrite bind_run. unfold or_empty_dict. by destruct (truthy h1 ef).
  - intros [= <- <-]. by eapply mapM_map_item_raise.
Qed.

(** *** Cloning, further *)

Lemma dict_get_elem_of {V} (k : string) (v : V) (kvs : list (string * V)) :
  dict_get k kvs = Some v -> (k, v) ∈ kvs.
Proof.
  induction kvs as [|[k' v'] kvs IH]; csimpl; [done|].
  destruct (String.eqb_spec k k') as [->|Hne].
  - intros [= ->]. left.
  - intros Hget. right. by apply IH.
Qed.

Lemma dict_get_fmap {V W} (f : V -> W) (k : string) (kvs : list (string * V)) :
  dict_get k (prod_map id f <$> kvs) = f <$> dict_get k kvs.
Proof.
  induction kvs as [|[k' v'] kvs IH]; csimpl; [done|].
  by destruct (String.eqb k k').
Qed.

(** X20: a clone has as many items as its source, all of them new and
    different from each other (an Item the source holds twice is cloned
    twice): no member of the source is a member of the clone. *)
Theorem clone_items_new (c : ItemCollection) (h : heap)
    (kvs : list (string * pyval)) :
  closed h -> Forall (is_item h) (items c) ->
  dict_at h (extra_fields c) kvs ->
  exists c' h', clone c h = (Ok c', h') /\
    __len__ c' = __len__ c /\ NoDup (items c') /\
    (forall x, __contains__ c x = true -> __contains__ c' x = false).
Proof.
  intros Hclosed Hitems Hef.
  destruct (item_states_exist h (items c) Hitems) as [sts Hsts].
  destruct (clone_spec c h kvs sts Hclosed Hsts Hef)
    as (le & m' & hb & Hpost & _ & Hrun).
  destruct Hpost as (_ & Hpb & _).
  eexists _, _. split; [exact Hrun|]. unfold __len__. simpl.
  split; [rewrite length_seq; symmetry; by eapply Forall2_length|].
  split; [apply NoDup_seq|].
  intros x. unfold __contains__, py_in. simpl.
  destruct x as [| | | |l]; try done.
  rewrite bool_decide_eq_true, bool_decide_eq_false, elem_of_seq. intros Hl.
  rewrite Forall_forall in Hitems.
  destruct (Hitems l Hl) as [st Hst%lookup_lt_Some].
  apply prefix_length in Hpb. rewrite length_app in Hpb. lia.
Qed.

(** X21: [deepcopy] copies an object once.  When two extra fields refer
    to the same object, the two fields of the clone refer to one new
    object; a field that refers to the extra fields themselves refers to
    the extra fields of the clone. *)
Theorem clone_keeps_sharing (c : ItemCollection) (h : heap)
    (kvs : list (string * pyval)) (k1 k2 : string) (a : loc) :
  closed h -> Forall (is_item h) (items c) ->
  dict_at h (extra_fields c) kvs ->
  dict_get k1 kvs = Some (VRef a) -> dict_get k2 kvs = Some (VRef a) ->
  exists c' h' le' kvs' a',
    clone c h = (Ok c', h') /\ extra_fields c' = VRef le' /\
    h' !! le' = Some (ODict kvs') /\
    dict_get k1 kvs' = Some (VRef a') /\ dict_get k2 kvs' = Some (VRef a') /\
    length h <= a' /\ (extra_fields c = VRef a -> a' = le').
Proof.
  intros Hclosed Hitems Hef Hk1 Hk2.
  destruct (item_states_exist h (items c) Hitems) as [sts Hsts].
  destruct (clone_spec c h kvs sts Hclosed Hsts Hef)
    as (le & m' & hb & Hpost & Hcopy & Hrun).
  destruct Hpost as (Hinv & Hpb & _ & _ & Hv' & Hdom & Hnew).
  destruct Hef as (le0 & Hef & Hle0 & Hnd).
  rewrite Hef in Hv', Hdom. simpl in Hv', Hdom. destruct Hdom as [b Hb].
  rewrite Hb in Hv'. injection Hv' as <-.
  destruct (Hnew _ _ Hb eq_refl) as (_ & o & Ho & Hvals & _).
  assert (Hpa : h `prefix_of` h ++ clones sts) by (by apply prefix_app_r).
  rewrite (prefix_lookup_Some _ _ _ _ Hle0 Hpa) in Ho. injection Ho as <-.
  simpl in Hvals.
  assert (Ha : in_memo m' a).
  { rewrite Forall_forall in Hvals. apply (Hvals (VRef a)).
    apply list_elem_of_fmap. exists (k1, VRef a). split; [done|].
    by apply dict_get_elem_of. }
  destruct Ha as [a' Ha'].
  destruct (inv_memo _ _ _ Hinv _ _ Ha') as [_ [Hlo _]].
  rewrite length_app in Hlo.
  eexists _, _, le, _, a'. split; [exact Hrun|].
  destruct kvs as [|kv kvs0]; [done|]. simpl.
  split; [done|]. split; [by apply lookup_app_l_Some|].
  rewrite !dict_get_fmap, Hk1, Hk2. simpl. rewrite Ha'.
  split; [done|]. split; [done|]. split; [lia|].
  intros Hself. rewrite Hef in Hself. injection Hself as ->. congruence.
Qed.

(** *** Parsing, then serializing *)

Lemma from_dict_ok_inv d h c h' :
  from_dict d h = (Ok c, h') ->
  exists ld kvs le,
    d = VRef ld /\ h !! ld = Some (ODict kvs) /\ h `prefix_of` h' /\
    Forall (is_item h') (items c) /\
    extra_fields c = VRef le /\ length h <= le /\
    h' !! le = Some (ODict (filter (fun kv => not_reserved kv.1) kvs)).
Proof.
  intros Hrun.
  destruct (from_dict_inv d h c h' Hrun)
    as (ld & kvs & fs & its & h3 & -> & Hld & Hid & Hfs & Hparse & Hres).
  destruct (from_dict_result_extra kvs its h3)
    as (le & extra & Hef & Hle & -> & Hitems & Hp).
  assert (Hlen : length h3 <= le).
  { clear -Hef. unfold from_dict_result in Hef.
    destruct (filter _ kvs); simpl in Hef; injection Hef as <-; lia. }
  rewrite <- Hres in Hef, Hle, Hitems, Hp. simpl in Hef, Hle, Hitems, Hp.
  destruct (mapM_Item_from_dict_inv _ _ _ _ Hparse) as [Hp3 Hps].
  assert (Hp0 : h `prefix_of` h ++ [OList []]) by (by apply prefix_app_r).
  exists ld, kvs, le. split; [done|]. split; [done|].
  split; [etrans; [exact Hp0|]; by etrans|]. split.
  { rewrite Hitems. eapply Forall2_Forall_r with (P := fun _ => True);
      [exact Hps | by apply Forall_true |].
    intros f l _ (_ & h1 & st & _ & _ & _ & Hlk). exists st.
    by eapply prefix_lookup_Some. }
  split; [done|]. split; [|done].
  apply prefix_length in Hp3. rewrite length_app in Hp3. lia.
Qed.

(** X22: a collection parsed from a dictionary serializes to a document
    in normal form: ["type"] bound to ["FeatureCollection"] whatever the
    dictionary bound it to, then ["features"] bound to a new list of the
    items' serializations (an empty list when the dictionary had no
    features), then the other entries of the dictionary, in their order
    and with the very values the dictionary holds. *)
Theorem from_dict_to_dict (d : pyval) (h : heap) (c : ItemCollection)
    (h1 : heap) (kvs : list (string * pyval)) :
  from_dict d h = (Ok c, h1) -> dict_at h d kvs ->
  exists l lf feats h2,
    to_dict c h1 = (Ok (VRef l), h2) /\ h1 `prefix_of` h2 /\
    length h1 <= l /\
    h2 !! l = Some (ODict (("type", VStr "FeatureCollection")
                             :: ("features", VRef lf)
                             :: filter (fun kv => not_reserved kv.1) kvs)) /\
    h2 !! lf = Some (OList feats) /\
    Forall2 (fun item v => serializes h1 item v h2) (items c) feats.
Proof.
  intros Hrun (ld & -> & Hld & Hnd).
  destruct (from_dict_ok_inv _ _ _ _ Hrun)
    as (ld' & kvs' & le & [= <-] & Hld' & Hp & Hitems & Hef & _ & Hle).
  rewrite Hld in Hld'. injection Hld' as <-.
  pose proof (dict_keys_filter_not_reserved kvs) as [Htype Hfeat].
  assert (Hnd' : NoDup (dict_keys (filter (fun kv => not_reserved kv.1) kvs))).
  { eapply sublist_NoDup; [exact Hnd|]. unfold dict_keys.
    apply fmap_sublist, sublist_filter. }
  destruct (to_dict_spec c h1 (filter (fun kv => not_reserved kv.1) kvs) Hitems)
    as (feats & ha & _ & Hpa & Hser & Hrun2).
  { exists le. done. }
  rewrite structural_keys_first in Hrun2 by done.
  exists (S (length ha)), (length ha), feats. eexists.
  split; [exact Hrun2|].
  split; [etrans; [exact Hpa|]; by apply prefix_app_r|].
  split; [apply prefix_length in Hpa; lia|].
  split.
  { rewrite lookup_app_r by lia.
    by replace (S (length ha) - length ha) with 1 by lia. }
  split; [by apply list_lookup_middle|].
  eapply Forall2_impl; [exact Hser|]. intros l v.
  apply serializes_prefix. by apply prefix_app_r.
Qed.

(** *** Reading a document *)

Lemma represents_JStr_inv h v s : represents h v (JStr s) -> v = VStr s.
Proof.
  intros [n Hn]. destruct n, v as [| | | |l]; simpl in Hn; try congruence.
  destruct (h !! l) as [[xs|kvs|st]|]; try done.
  - by apply fmap_Some in Hn as (? & _ & ?).
  - by apply fmap_Some in Hn as (? & _ & ?).
Qed.

Lemma represents_JList_inv h v js :
  represents h v (JList js) ->
  exists l vs, v = VRef l /\ h !! l = Some (OList vs) /\
               Forall2 (represents h) vs js.
Proof.
  intros [n Hn]. destruct n, v as [| | | |l]; simpl in Hn; try congruence.
  destruct (h !! l) as [[xs|kvs|st]|] eqn:Hl; try done.
  - apply fmap_Some in Hn as (js' & Hm & [= <-]). apply mapM_Some in Hm.
    exists l, xs. split; [done|]. split; [done|].
    eapply Forall2_impl; [exact Hm|]. intros x j Hx. by exists n.
  - by apply fmap_Some in Hn as (? & _ & ?).
Qed.

Lemma represents_JDict_inv h v jkvs :
  represents h v (JDict jkvs) ->
  exists l kvs, v = VRef l /\ h !! l = Some (ODict kvs) /\
                Forall2 (represents_entry h) kvs jkvs.
Proof.
  intros Hrep. pose proof Hrep as [n Hn].
  destruct n, v as [| | | |l]; simpl in Hn; try congruence.
  destruct (h !! l) as [[xs|kvs|st]|] eqn:Hl; try done.
  - by apply fmap_Some in Hn as (? & _ & ?).
  - exists l, kvs. split; [done|]. split; [done|].
    by eapply represents_dict_inv.
Qed.

Lemma dict_get_represents h kvs jkvs k j :
  Forall2 (represents_entry h) kvs jkvs -> dict_get k jkvs = Some j ->
  exists v, dict_get k kvs = Some v /\ represents h v j.
Proof.
  induction 1 as [|[k1 v1] [k2 j2] kvs jkvs [Hk Hv] _ IH]; csimpl; [done|].
  simpl in Hk, Hv. subst k2. destruct (String.eqb k k1); [|done].
  intros [= <-]. by exists v1.
Qed.

Lemma filter_represents_entry h kvs jkvs :
  Forall2 (represents_entry h) kvs jkvs ->
  Forall2 (represents_entry h) (filter (fun kv => not_reserved kv.1) kvs)
                               (filter (fun kv => not_reserved kv.1) jkvs).
Proof.
  induction 1 as [|[k1 v1] [k2 j2] kvs jkvs [Hk Hv] _ IH]; [constructor|].
  simpl in Hk. subst k2. destruct (not_reserved k1) eqn:HP.
  - rewrite !filter_cons_True by (simpl; by rewrite HP).
    constructor; [by split | done].
  - rewrite !filter_cons_False by (simpl; rewrite HP; intros []). done.
Qed.

(** X19: [from_file] parses the document [read_json] returns for the
    href made absolute.  For a document of type FeatureCollection whose
    features [Item.from_dict] accepts, the collection has one new Item
    for each feature, in order, parsed from that feature; its extra
    fields are the entries of the document other than ["type"] and
    ["features"], in their order. *)
Theorem from_file_document (href : string) (stac_io : option StacIO)
    (h : heap) (jkvs : list (string * json)) (fjs : list json) :
  read_json (default StacIO_default stac_io)
            (if is_absolute_href href then href else make_absolute_href href)
    = inr (JDict jkvs) ->
  (forall h l kvs, h !! l = Some (ODict kvs) ->
     dict_get "type" kvs = Some (VStr "FeatureCollection") ->
     identify_stac_object_type h (VRef l) = Some ITEMCOLLECTION) ->
  dict_get "type" jkvs = Some (JStr "FeatureCollection") ->
  dict_get "features" jkvs = Some (JList fjs) ->
  (forall h v fj, fj ∈ fjs -> represents h v fj ->
                  exists st, Item_from_dict h v = inr st) ->
  exists c h' le,
    from_file href stac_io h = (Ok c, h') /\ h `prefix_of` h' /\
    Forall2 (fun fj item =>
               length h <= item /\
               exists h1 v st, represents h1 v fj /\
                               Item_from_dict h1 v = inr st /\
                               h' !! item = Some (OItem st))
            fjs (items c) /\
    extra_fields c = VRef le /\ length h <= le /\
    represents h' (VRef le)
               (JDict (filter (fun kv => not_reserved kv.1) jkvs)).
Proof.
  intros Hread Hid Htype Hfeat Haccept.
  destruct (build_call_spec (JDict jkvs) h) as (d & h1 & Hbuild & Hp1 & Hrep).
  apply represents_JDict_inv in Hrep as (ld & kvs & -> & Hld & Hkvs).
  destruct (dict_get_represents _ _ _ _ _ Hkvs Htype) as (vt & Hvt & Hrt).
  apply represents_JStr_inv in Hrt as ->.
  destruct (dict_get_represents _ _ _ _ _ Hkvs Hfeat) as (vf & Hvf & Hrf).
  apply represents_JList_inv in Hrf as (lf & fs & -> & Hlf & Hfs).
  assert (Hpfs : Forall (parseable h1) fs).
  { apply Forall_forall. intros f [i Hi]%list_elem_of_lookup_1.
    destruct (Forall2_lookup_l _ _ _ _ _ Hfs Hi) as (fj & Hj & Hfj).
    intros h2 Hp2. apply (Haccept h2 f fj).
    - by eapply list_elem_of_lookup_2.
    - by eapply represents_prefix. }
  assert (Hp0 : h1 `prefix_of` h1 ++ [OList []]) by (by apply prefix_app_r).
  destruct (mapM_Item_from_dict_ok h1 fs Hpfs _ Hp0)
    as (its & h3 & Hmap & Hp3 & Hps).
  assert (Hrun := from_dict_run ld kvs fs its h1 h3 (Hid _ _ _ Hld Hvt) Hld).
  destruct (from_dict_result_extra kvs its h3)
    as (le & extra & Hef & Hle & -> & Hitems & Hp).
  assert (Hlen : length h3 <= le).
  { clear -Hef. unfold from_dict_result in Hef.
    destruct (filter _ kvs); simpl in Hef; injection Hef as <-; lia. }
  destruct (from_dict_result kvs its h3) as [c h'] eqn:Hres. simpl in *.
  assert (Hp13 : h1 `prefix_of` h3) by (by etrans).
  assert (Hp1' : h1 `prefix_of` h') by (by etrans).
  assert (Hlens : length h <= length h1 /\ length h1 + 1 <= length h3).
  { apply prefix_length in Hp1, Hp3. rewrite length_app in Hp3. simpl in Hp3.
    lia. }
  exists c, h', le. split.
  { unfold from_file. rewrite Hread, bind_run, Hbuild. apply Hrun; [|done].
    unfold features_of, py_iter. rewrite Hvf. simpl.
    by rewrite (prefix_lookup_Some _ _ _ _ Hlf Hp0). }
  split; [by etrans|]. split.
  { rewrite Hitems.
    pose proof (proj2 (Forall2_flip _ _ _) Hfs) as Hfs'.
    pose proof (proj2 (Forall2_flip _ _ _) Hps) as Hps'.
    eapply Forall2_impl; [exact (Forall2_share_r _ _ _ _ _ Hfs' Hps')|].
    intros fj item (f & Hfj & Hl & h2 & st & Hh2 & _ & Hst & Hlk).
    rewrite length_app in Hl. simpl in Hl. split; [lia|].
    exists h2, f, st. split; [|split; [done|by eapply prefix_lookup_Some]].
    eapply represents_prefix; [|exact Hfj].
    etrans; [exact Hp0 | exact Hh2]. }
  split; [done|]. split; [lia|].
  eapply represents_dict; [exact Hle|].
  eapply Forall2_impl; [apply filter_represents_entry; exact Hkvs|].
  intros kv kj. by apply represents_entry_prefix.
Qed.

End ItemCollection.

Arguments Ok {ItemExn IOExn A} a.
Arguments Raise {ItemExn IOExn A} e.
Arguments STACTypeError {ItemExn IOExn} msg.

(** * The module run on the sample collaborators *)

Abbreviation sample_heap := (list (pyobj Sample.ItemState)).
Abbreviation sample_init :=
  (__init__ Sample.ItemState Sample.ItemExn Sample.IOExn
            Sample.Item_clone Sample.Item_from_dict).
Abbreviation sample_to_dict :=
  (to_dict Sample.ItemState Sample.ItemExn Sample.IOExn Sample.Item_to_dict).
Abbreviation sample_from_dict :=
  (from_dict Sample.ItemState Sample.ItemExn Sample.IOExn Sample.Item_clone
             Sample.Item_from_dict Sample.identify_stac_object_type).
Abbreviation sample_clone :=
  (clone Sample.ItemState Sample.ItemExn Sample.IOExn
         Sample.Item_clone Sample.Item_from_dict).
Abbreviation sample_add :=
  (__add__ Sample.ItemState Sample.ItemExn Sample.IOExn
           Sample.Item_clone Sample.Item_from_dict).

(** The sample type identifier recognises a feature collection. *)
Lemma sample_identify_feature_collection (h : sample_heap) (l : loc)
    (kvs : list (string * pyval)) :
  h !! l = Some (ODict kvs) ->
  dict_get "type" kvs = Some (VStr "FeatureCollection") ->
  Sample.identify_stac_object_type h (VRef l) = Some ITEMCOLLECTION.
Proof.
  intros Hl Htype. unfold Sample.identify_stac_object_type, Sample.get_str.
  by rewrite Hl, Htype.
Qed.

(** A scalar string is denoted by itself only. *)
Lemma snap_JStr_inv (n : nat) (h : sample_heap) (v : pyval) (s : string) :
  snap Sample.ItemState n h v = Some (JStr s) -> v = VStr s.
Proof.
  destruct n, v as [| | | |l]; simpl; try congruence.
  destruct (h !! l) as [[xs|kvs|st]|]; try done.
  - by intros (? & _ & ?)%fmap_Some.
  - by intros (? & _ & ?)%fmap_Some.
Qed.

(** The sample parser accepts what the sample [Item.to_dict] produces. *)
Lemma sample_item_roundtrip (h : sample_heap) (v : pyval) (st : Sample.ItemState) :
  represents Sample.ItemState h v (Sample.Item_to_dict st) ->
  exists st', Sample.Item_from_dict h v = inr st' /\
              Sample.Item_to_dict st' = Sample.Item_to_dict st.
Proof.
  intros [n Hn]. exists st. split; [|done].
  destruct n as [|n], v as [| | | |l]; try done. simpl in Hn.
  unfold Sample.Item_from_dict, Sample.get_str.
  destruct (h !! l) as [[xs|kvs|st0]|]; try done.
  { by apply fmap_Some in Hn as (? & _ & ?). }
  apply fmap_Some in Hn as (jkvs & Hm & [= <-]).
  apply mapM_Some in Hm.
  apply Forall2_cons_inv_r in Hm as ([k1 v1] & kvs1 & H1 & Hm & ->).
  apply Forall2_cons_inv_r in Hm as ([k2 v2] & kvs2 & H2 & Hm & ->).
  simpl in H1, H2.
  apply fmap_Some in H1 as (j1 & _ & [= <- _]).
  apply fmap_Some in H2 as (j2 & Hs & [= <- <-]).
  apply snap_JStr_inv in Hs as ->. done.
Qed.

(** ** Counterexamples *)

(** C4, as stated, fails for the constructor: built with the extra
    fields [{"type": "x"}], a collection keeps the key ["type"]. *)
Lemma init_keeps_reserved_key :
  ~ (forall xs ef b (h : sample_heap) c h',
       sample_init xs ef b h = (Ok c, h') ->
       reserved_free Sample.ItemState h' c).
Proof.
  intros Hall.
  destruct (Hall [] (VRef 0) true [ODict [("type", VStr "x")]] _ _ eq_refl)
    as (l & kvs & Hef & Hl & Htype & _).
  simpl in Hef. injection Hef as <-. simpl in Hl. injection Hl as <-.
  apply Htype. unfold dict_keys. simpl. left.
Qed.


(** ** Witnesses *)

(** C1 on a collection of one item with the extra field ["license"]. *)
Lemma to_dict_from_dict_roundtrip_witness :
  let h : sample_heap := [OItem "a"; ODict [("license", VStr "CC-BY")]] in
  let c := {| items := [0]; extra_fields := VRef 1 |} in
  exists d h1 c' h2 d' h3 js,
    sample_to_dict c h = (Ok d, h1) /\
    sample_from_dict d h1 = (Ok c', h2) /\
    sample_to_dict c' h2 = (Ok d', h3) /\
    length js = length (items c) /\
    let j := JDict (("type", JStr "FeatureCollection")
                      :: ("features", JList js)
                      :: [("license", JStr "CC-BY")]) in
    represents Sample.ItemState h3 d j /\ represents Sample.ItemState h3 d' j.
Proof.
  intros h c.
  apply (to_dict_from_dict_roundtrip Sample.ItemState Sample.ItemExn Sample.IOExn
           Sample.Item_to_dict Sample.Item_clone Sample.Item_from_dict
           Sample.identify_stac_object_type c h [("license", VStr "CC-BY")]).
  - apply sample_identify_feature_collection.
  - apply sample_item_roundtrip.
  - repeat constructor. by exists "a".
  - exists 1. split; [done|]. split; [done|]. apply NoDup_singleton.
  - unfold dict_keys. simpl. by intros ?%list_elem_of_singleton.
  - unfold dict_keys. simpl. by intros ?%list_elem_of_singleton.
  - by exists 1.
Defined.

(** C2 on [A = [x, y]] and [B = [y, z]] sharing [y]. *)
Lemma add_union_witness :
  let h : sample_heap := [OItem "x"; OItem "y"; OItem "z"] in
  let A := {| items := [0; 1]; extra_fields := VNone |} in
  let B := {| items := [1; 2]; extra_fields := VNone |} in
  exists c, sample_add A (ObjItemCollection B) h
              = (Ok (AddValue c), h ++ [ODict []]) /\
            items c = [0; 1; 2] /\ __len__ c = 3.
Proof.
  intros h A B.
  destruct (add_union Sample.ItemState Sample.ItemExn Sample.IOExn
              Sample.Item_clone Sample.Item_from_dict A B h)
    as (c & Hrun & _ & _ & _ & _ & _ & Hxyz).
  - repeat constructor; [by exists "x" | by exists "y"].
  - repeat constructor; [by exists "y" | by exists "z"].
  - exists c. split; [exact Hrun|]. by apply (Hxyz 0 1 2).
Defined.

(** C3 on [{"type": "Feature"}]. *)
Lemma from_dict_wrong_type_witness :
  let h : sample_heap := [ODict [("type", VStr "Feature")]] in
  sample_from_dict (VRef 0) h =
    (Raise (STACTypeError "Dict is not a valid ItemCollection"), h).
Proof.
  intros h.
  apply (proj2 (from_dict_wrong_type Sample.ItemState Sample.ItemExn Sample.IOExn
                  Sample.Item_clone Sample.Item_from_dict
                  Sample.identify_stac_object_type (VRef 0) h)).
  discriminate.
Defined.


(** C6 on a typed Item followed by a raw dictionary, cloning enabled. *)
Lemma init_stores_item_likes_witness :
  let h : sample_heap :=
    [OItem "a"; ODict [("type", VStr "Feature"); ("id", VStr "b")]] in
  let xs := [VRef 0; VRef 1] in
  Forall (item_like Sample.ItemState Sample.ItemExn Sample.Item_from_dict h) xs /\
  exists c h', sample_init xs VNone true h = (Ok c, h') /\
               h `prefix_of` h' /\ __len__ c = 2 /\
               Forall2 (stored Sample.ItemState Sample.ItemExn Sample.Item_clone
                               Sample.Item_from_dict true h h')
                       xs (items c).
Proof.
  intros h xs.
  assert (Hxs : Forall (item_like Sample.ItemState Sample.ItemExn
                                  Sample.Item_from_dict h) xs).
  { constructor; [by eapply item_like_item|].
    constructor; [|constructor].
    eapply item_like_dict; [done|]. intros h' Hpre. exists "b".
    unfold Sample.Item_from_dict, Sample.get_str.
    by rewrite (prefix_lookup_Some h h' 1 _ eq_refl Hpre). }
  split; [exact Hxs|].
  exact (init_stores_item_likes Sample.ItemState Sample.ItemExn Sample.IOExn
           Sample.Item_clone Sample.Item_from_dict xs VNone true h Hxs).
Defined.

(** C7 on a collection built from one Item. *)
Lemma contains_is_identity_witness :
  let h : sample_heap := [OItem "a"] in
  (exists c h', sample_init [VRef 0] VNone false h = (Ok c, h') /\
                items c = [0] /\ __contains__ c (VRef 0) = true) /\
  (exists c h' x', sample_init [VRef 0] VNone true h = (Ok c, h') /\
                   items c = [x'] /\ x' <> 0 /\
                   h' !! x' = Some (OItem (Sample.Item_clone "a")) /\
                   __contains__ c (VRef 0) = false).
Proof.
  intros h.
  exact (proj2 (contains_is_identity Sample.ItemState Sample.ItemExn Sample.IOExn
                  Sample.Item_clone Sample.Item_from_dict 0 "a" VNone h eq_refl)).
Defined.

(** C8 on a collection whose extra fields hold a list that contains
    itself. *)
Lemma clone_deep_copy_witness :
  let h : sample_heap :=
    [OItem "a"; ODict [("license", VStr "CC-BY"); ("nest", VRef 2)];
     OList [VInt 1; VRef 2]] in
  let c := {| items := [0]; extra_fields := VRef 1 |} in
  exists c' h' le' kvs',
    sample_clone c h = (Ok c', h') /\ h `prefix_of` h' /\
    Forall2 (fun l l' =>
               length h <= l' /\
               exists st, h !! l = Some (OItem st) /\
                 h' !! l' = Some (OItem (Sample.Item_clone (Sample.Item_clone st))))
            (items c) (items c') /\
    extra_fields c' = VRef le' /\ length h <= le' /\
    h' !! le' = Some (ODict kvs') /\
    dict_keys kvs' = ["license"; "nest"] /\
    separate Sample.ItemState (length h) h' /\
    (forall l o, l < length h ->
       forall n, snap Sample.ItemState n (<[l := o]> h') (extra_fields c') =
                 snap Sample.ItemState n h' (extra_fields c')).
Proof.
  intros h c.
  destruct (clone_deep_copy Sample.ItemState Sample.ItemExn Sample.IOExn
              Sample.Item_clone Sample.Item_from_dict c h
              [("license", VStr "CC-BY"); ("nest", VRef 2)])
    as (c' & h' & le' & kvs' & Hrun & Hpre & Hitems & Hef & Hle & Hlk & Hkeys
        & _ & Hsep & _ & Hindep).
  - intros [|[|[|l]]] o; simpl; intros [= <-]; simpl; repeat constructor.
  - repeat constructor. by exists "a".
  - exists 1. split; [done|]. split; [done|].
    unfold dict_keys. simpl. apply NoDup_cons. split; [|apply NoDup_singleton].
    by intros ?%list_elem_of_singleton.
  - exists c', h', le', kvs'. repeat (split; [done|]).
    intros l o Hl. by apply Hindep.
Defined.

(** C10 on the extra fields [{"type": "x"}]. *)
Lemma extra_fields_override_witness :
  let h : sample_heap := [ODict [("type", VStr "x")]] in
  exists c h1 l lf feats h2,
    sample_init [] (VRef 0) true h = (Ok c, h1) /\
    extra_fields c = VRef 0 /\ h1 !! 0 = Some (ODict [("type", VStr "x")]) /\
    sample_to_dict c h1 = (Ok (VRef l), h2) /\ length h1 <= l /\
    h2 !! l = Some (ODict [("type", VStr "x"); ("features", VRef lf)]) /\
    h2 !! lf = Some (OList feats).
Proof.
  intros h.
  destruct (extra_fields_override Sample.ItemState Sample.ItemExn Sample.IOExn
              Sample.Item_to_dict Sample.Item_clone Sample.Item_from_dict
              [] 0 [("type", VStr "x")] true h "type" (VStr "x"))
    as (c & h1 & l & lf & feats & h2 & doc & Hinit & Hef & Hle & Hrun & _
        & Hlen & Hl & Hlf & _ & -> & _).
  - constructor.
  - done.
  - apply NoDup_singleton.
  - by left.
  - done.
  - exists c, h1, l, lf, feats, h2. repeat (split; [done|]). done.
Defined.

(** C4 (amended) on the constructor: a dictionary with the key ["type"]
    is kept, a dictionary without reserved keys is kept, and an empty
    dictionary is replaced by a new one. *)
Lemma extra_fields_reserved_keys_witness :
  let h : sample_heap :=
    [ODict [("type", VStr "x")]; ODict [("license", VStr "CC-BY")]; ODict []] in
  (exists c h', sample_init [] (VRef 0) true h = (Ok c, h') /\
                extra_fields c = VRef 0 /\
                ~ reserved_free Sample.ItemState h' c) /\
  (exists c h', sample_init [] (VRef 1) true h = (Ok c, h') /\
                extra_fields c = VRef 1 /\
                reserved_free Sample.ItemState h' c) /\
  (exists c h' l, sample_init [] (VRef 2) true h = (Ok c, h') /\
                  extra_fields c = VRef l /\ 3 <= l /\
                  reserved_free Sample.ItemState h' c).
Proof.
  intros h.
  destruct (extra_fields_reserved_keys Sample.ItemState Sample.ItemExn
              Sample.IOExn Sample.Item_clone Sample.Item_from_dict
              Sample.identify_stac_object_type
              Sample.is_absolute_href Sample.make_absolute_href
              {| read_json := Sample.read_file |})
    as (_ & _ & _ & _ & Hinit & _ & _).
  split; [|split].
  - eexists _, _. split; [reflexivity|].
    destruct (Hinit [] 0 [("type", VStr "x")] true h _ _ eq_refl eq_refl)
      as (_ & Hkeep & _ & Hfree).
    split; [by apply Hkeep|]. intros [Htype _]%Hfree. apply Htype.
    unfold dict_keys. simpl. left.
  - eexists _, _. split; [reflexivity|].
    destruct (Hinit [] 1 [("license", VStr "CC-BY")] true h _ _ eq_refl eq_refl)
      as (_ & Hkeep & _ & Hfree).
    split; [by apply Hkeep|]. apply Hfree.
    unfold dict_keys. simpl. split; by intros ?%list_elem_of_singleton.
  - destruct (Hinit [] 2 [] true h _ _ eq_refl eq_refl)
      as (_ & _ & Hnew & Hfree).
    destruct (Hnew eq_refl) as (l & Hef & Hl & _).
    eexists _, _, l. split; [reflexivity|]. split; [exact Hef|].
    split; [exact Hl|]. apply Hfree. split; apply not_elem_of_nil.
Defined.

(** ** Examples of the further properties *)

Arguments TypeError {ItemExn IOExn}.
Arguments ItemError {ItemExn IOExn} e.

Abbreviation sample_is_item := (is_item Sample.ItemState).
Abbreviation sample_parseable :=
  (parseable Sample.ItemState Sample.ItemExn Sample.Item_from_dict).
Abbreviation sample_from_file :=
  (from_file Sample.ItemState Sample.ItemExn Sample.IOExn Sample.Item_clone
             Sample.Item_from_dict Sample.identify_stac_object_type
             Sample.is_absolute_href Sample.make_absolute_href
             {| read_json := Sample.read_file |}).

(** The sample parser accepts a dictionary with an ["id"], wherever the
    store grows to. *)
Lemma sample_parseable_id (h : sample_heap) (l : loc)
    (kvs : list (string * pyval)) (s : string) :
  h !! l = Some (ODict kvs) -> dict_get "id" kvs = Some (VStr s) ->
  sample_parseable h (VRef l).
Proof.
  intros Hl Hid h' Hpre. exists s.
  unfold Sample.Item_from_dict, Sample.get_str.
  by rewrite (prefix_lookup_Some h h' l _ Hl Hpre), Hid.
Qed.

(** X2 on the last of two items. *)
Lemma getitem_iter_witness :
  let c := {| items := [3; 5]; extra_fields := VNone |} in
  __getitem__ c 1 = inr 5 /\ __getitem__ c (-1) = inr 5.
Proof. intros c. exact (getitem_iter c 1 5 eq_refl). Defined.

(** X3 on three collections that share items pairwise. *)
Lemma add_assoc_witness :
  let h : sample_heap := [OItem "x"; OItem "y"; OItem "z"] in
  let A := {| items := [0; 1]; extra_fields := VNone |} in
  let B := {| items := [1; 2]; extra_fields := VNone |} in
  let C := {| items := [2; 0]; extra_fields := VNone |} in
  exists ab h1 l h2 bc h3 r h4,
    sample_add A (ObjItemCollection B) h = (Ok (AddValue ab), h1) /\
    sample_add ab (ObjItemCollection C) h1 = (Ok (AddValue l), h2) /\
    sample_add B (ObjItemCollection C) h = (Ok (AddValue bc), h3) /\
    sample_add A (ObjItemCollection bc) h3 = (Ok (AddValue r), h4) /\
    items l = items r.
Proof.
  intros h A B C.
  apply (add_assoc Sample.ItemState Sample.ItemExn Sample.IOExn
           Sample.Item_clone Sample.Item_from_dict A B C h).
  - repeat constructor; [by exists "x" | by exists "y"].
  - repeat constructor; [by exists "y" | by exists "z"].
  - repeat constructor; [by exists "z" | by exists "x"].
Defined.

(** X4 on a collection added to a part of itself. *)
Lemma add_absorbs_witness :
  let h : sample_heap := [OItem "x"; OItem "y"] in
  let A := {| items := [0; 1]; extra_fields := VNone |} in
  let B := {| items := [1]; extra_fields := VNone |} in
  exists c h', sample_add A (ObjItemCollection B) h = (Ok (AddValue c), h') /\
               items c = [0; 1].
Proof.
  intros h A B.
  apply (add_absorbs Sample.ItemState Sample.ItemExn Sample.IOExn
           Sample.Item_clone Sample.Item_from_dict A B h).
  - repeat constructor; [by exists "x" | by exists "y"].
  - repeat constructor. by exists "y".
  - apply NoDup_cons. split; [|apply NoDup_singleton].
    by intros ?%list_elem_of_singleton.
  - intros x ->%list_elem_of_singleton. apply elem_of_cons. right. by left.
Defined.

(** X5 on two collections that share an item. *)
Lemma add_len_witness :
  let h : sample_heap := [OItem "x"; OItem "y"] in
  let A := {| items := [0; 1]; extra_fields := VNone |} in
  let B := {| items := [1]; extra_fields := VNone |} in
  exists c h', sample_add A (ObjItemCollection B) h = (Ok (AddValue c), h') /\
               __len__ c <= 3 /\ (__len__ c = 3 <-> NoDup [0; 1; 1]).
Proof.
  intros h A B.
  apply (add_len Sample.ItemState Sample.ItemExn Sample.IOExn
           Sample.Item_clone Sample.Item_from_dict A B h).
  - repeat constructor; [by exists "x" | by exists "y"].
  - repeat constructor. by exists "y".
Defined.

(** X6 on the second item of the left operand. *)
Lemma getitem_add_left_witness :
  let h : sample_heap := [OItem "x"; OItem "y"; OItem "z"] in
  let A := {| items := [0; 1]; extra_fields := VNone |} in
  let B := {| items := [1; 2]; extra_fields := VNone |} in
  exists c h', sample_add A (ObjItemCollection B) h = (Ok (AddValue c), h') /\
               __getitem__ c 1 = inr 1.
Proof.
  intros h A B.
  apply (getitem_add_left Sample.ItemState Sample.ItemExn Sample.IOExn
           Sample.Item_clone Sample.Item_from_dict A B h 1 1).
  - repeat constructor; [by exists "x" | by exists "y"].
  - repeat constructor; [by exists "y" | by exists "z"].
  - apply NoDup_cons. split; [|apply NoDup_singleton].
    by intros ?%list_elem_of_singleton.
  - reflexivity.
Defined.

(** X7 on an empty dictionary of extra fields. *)
Lemma init_extra_fields_sharing_witness :
  let h : sample_heap := [ODict []] in
  exists c h', sample_init [] (VRef 0) true h = (Ok c, h') /\
    exists l, extra_fields c = VRef l /\ l <> 0 /\ h' !! l = Some (ODict []).
Proof.
  intros h.
  destruct (init_extra_fields_sharing Sample.ItemState Sample.ItemExn Sample.IOExn
              Sample.Item_clone Sample.Item_from_dict [] 0 [] true h)
    as (c & h' & Hrun & _ & Hempty).
  - constructor.
  - reflexivity.
  - exists c, h'. split; [exact Hrun|]. by apply Hempty.
Defined.

(** X8 on a collection of one Item whose state the caller changes. *)
Lemma init_no_clone_shares_items_witness :
  let h : sample_heap := [OItem "a"] in
  exists c, sample_init [VRef 0] VNone false h = (Ok c, h ++ [ODict []]) /\
    items c = [0] /\
    exists l lf feats h3 v,
      sample_to_dict c (<[0 := OItem "b"]> (h ++ [ODict []]))
        = (Ok (VRef l), h3) /\
      h3 !! l = Some (ODict [("type", VStr "FeatureCollection");
                             ("features", VRef lf)]) /\
      h3 !! lf = Some (OList feats) /\
      feats !! 0 = Some v /\
      represents Sample.ItemState h3 v (Sample.Item_to_dict "b").
Proof.
  intros h.
  apply (init_no_clone_shares_items Sample.ItemState Sample.ItemExn Sample.IOExn
           Sample.Item_to_dict Sample.Item_clone Sample.Item_from_dict
           [0] h 0 0 "b").
  - repeat constructor. by exists "a".
  - reflexivity.
Defined.

(** X9 on a collection of one Item. *)
Lemma init_clone_isolates_items_witness :
  let h : sample_heap := [OItem "a"] in
  exists c h', sample_init [VRef 0] VNone true h = (Ok c, h') /\
    Forall2 (fun x item => length h <= item /\
               exists st, h !! x = Some (OItem st) /\
                          h' !! item = Some (OItem (Sample.Item_clone st)))
            [0] (items c) /\
    (forall l o item, l < length h -> item ∈ items c ->
                      <[l := o]> h' !! item = h' !! item) /\
    (forall l o x, l ∈ items c -> x < length h ->
                   <[l := o]> h' !! x = h !! x).
Proof.
  intros h.
  apply (init_clone_isolates_items Sample.ItemState Sample.ItemExn Sample.IOExn
           Sample.Item_clone Sample.Item_from_dict [0] VNone h).
  repeat constructor. by exists "a".
Defined.

(** X10 on a dictionary without features. *)
Lemma from_dict_missing_features_witness :
  let kvs := [("type", VStr "FeatureCollection"); ("license", VStr "CC-BY")] in
  let h : sample_heap := [ODict kvs] in
  exists c h' le,
    sample_from_dict (VRef 0) h = (Ok c, h') /\ h `prefix_of` h' /\
    __len__ c = 0 /\ extra_fields c = VRef le /\ length h <= le /\
    h' !! le = Some (ODict (filter (fun kv => not_reserved kv.1) kvs)).
Proof.
  intros kvs h.
  apply (from_dict_missing_features Sample.ItemState Sample.ItemExn Sample.IOExn
           Sample.Item_clone Sample.Item_from_dict
           Sample.identify_stac_object_type 0 kvs h); reflexivity.
Defined.

(** X11 on a dictionary with one feature and the field ["license"]. *)
Lemma from_dict_keeps_extra_fields_witness :
  let kvs := [("type", VStr "FeatureCollection"); ("features", VRef 1);
              ("license", VStr "CC-BY")] in
  let h : sample_heap :=
    [ODict kvs; OList [VRef 2];
     ODict [("type", VStr "Feature"); ("id", VStr "a")]] in
  exists c h' le,
    sample_from_dict (VRef 0) h = (Ok c, h') /\ h `prefix_of` h' /\
    Forall2 (parsed Sample.ItemState Sample.ItemExn Sample.Item_from_dict h h')
            [VRef 2] (items c) /\
    extra_fields c = VRef le /\ le <> 0 /\
    h' !! le = Some (ODict (filter (fun kv => not_reserved kv.1) kvs)) /\
    h' !! 0 = Some (ODict kvs).
Proof.
  intros kvs h.
  apply (from_dict_keeps_extra_fields Sample.ItemState Sample.ItemExn Sample.IOExn
           Sample.Item_clone Sample.Item_from_dict
           Sample.identify_stac_object_type 0 1 kvs [VRef 2] h);
    try reflexivity.
  repeat constructor. by eapply (sample_parseable_id h 2 _ "a").
Defined.

(** X12 on features bound to [None]. *)
Lemma from_dict_features_not_iterable_witness :
  let kvs := [("type", VStr "FeatureCollection"); ("features", VNone)] in
  let h : sample_heap := [ODict kvs] in
  sample_from_dict (VRef 0) h = (Raise TypeError, h ++ [OList []]).
Proof.
  intros kvs h.
  apply (from_dict_features_not_iterable Sample.ItemState Sample.ItemExn
           Sample.IOExn Sample.Item_clone Sample.Item_from_dict
           Sample.identify_stac_object_type 0 kvs VNone h);
    [reflexivity | reflexivity | reflexivity | exact I].
Defined.

(** X13 on a feature list whose second element is [None]. *)
Lemma from_dict_item_error_witness :
  let kvs := [("type", VStr "FeatureCollection"); ("features", VRef 1)] in
  let h : sample_heap :=
    [ODict kvs; OList [VRef 2; VNone];
     ODict [("type", VStr "Feature"); ("id", VStr "a")]] in
  exists h', sample_from_dict (VRef 0) h = (Raise (ItemError ()), h') /\
             h `prefix_of` h'.
Proof.
  intros kvs h.
  apply (from_dict_item_error Sample.ItemState Sample.ItemExn Sample.IOExn
           Sample.Item_clone Sample.Item_from_dict
           Sample.identify_stac_object_type 0 1 kvs [VRef 2] [] VNone () h);
    try reflexivity.
  repeat constructor. by eapply (sample_parseable_id h 2 _ "a").
Defined.

(** X14 on a dictionary of another type. *)
Lemma from_dict_raises_only_witness :
  let h : sample_heap := [ODict [("type", VStr "Catalog")]] in
  let e := STACTypeError "Dict is not a valid ItemCollection" in
  sample_from_dict (VRef 0) h = (Raise e, h) /\ h `prefix_of` h.
Proof.
  intros h e. split; [reflexivity|].
  exact (proj1 (from_dict_raises_only Sample.ItemState Sample.ItemExn Sample.IOExn
                  Sample.Item_clone Sample.Item_from_dict
                  Sample.identify_stac_object_type (VRef 0) h e h eq_refl)).
Defined.

(** X15 on a dictionary that lists the same feature twice. *)
Lemma from_dict_items_new_witness :
  let kvs := [("type", VStr "FeatureCollection"); ("features", VRef 1)] in
  let h : sample_heap :=
    [ODict kvs; OList [VRef 2; VRef 2];
     ODict [("type", VStr "Feature"); ("id", VStr "a")]] in
  let c := {| items := [4; 5]; extra_fields := VRef 7 |} in
  let h' := h ++ [OList []; OItem "a"; OItem "a"; ODict []; ODict []] in
  sample_from_dict (VRef 0) h = (Ok c, h') /\
  NoDup (items c) /\
  (forall l, l < length h -> __contains__ c (VRef l) = false).
Proof.
  intros kvs h c h'.
  assert (Hrun : sample_from_dict (VRef 0) h = (Ok c, h')) by reflexivity.
  split; [exact Hrun|].
  destruct (from_dict_items_new Sample.ItemState Sample.ItemExn Sample.IOExn
              Sample.Item_clone Sample.Item_from_dict
              Sample.identify_stac_object_type (VRef 0) h c h' Hrun)
    as (_ & Hnd & _ & Hold).
  split; [exact Hnd | exact Hold].
Defined.

(** X18 on an element that is neither an Item nor a dictionary. *)
Lemma init_raises_only_witness :
  let h : sample_heap := [OItem "a"] in
  sample_init [VRef 0; VNone] VNone true h
    = (Raise (ItemError ()), h ++ [OItem "a"]) /\
  h `prefix_of` h ++ [OItem "a"].
Proof.
  intros h. split; [reflexivity|].
  exact (proj1 (init_raises_only Sample.ItemState Sample.ItemExn Sample.IOExn
                  Sample.Item_clone Sample.Item_from_dict
                  [VRef 0; VNone] VNone true h (ItemError ())
                  (h ++ [OItem "a"]) eq_refl)).
Defined.

(** X19 on the file of the sample reader, given by a relative href. *)
Lemma from_file_document_witness :
  exists c h' le,
    sample_from_file "items.json" None [] = (Ok c, h') /\
    __len__ c = 2 /\ extra_fields c = VRef le /\
    represents Sample.ItemState h' (VRef le)
               (JDict [("license", JStr "CC-BY")]).
Proof.
  destruct (from_file_document Sample.ItemState Sample.ItemExn Sample.IOExn
              Sample.Item_clone Sample.Item_from_dict
              Sample.identify_stac_object_type
              Sample.is_absolute_href Sample.make_absolute_href
              {| read_json := Sample.read_file |}
              "items.json" None []
              [("type", JStr "FeatureCollection");
               ("features", JList [Sample.Item_to_dict "a";
                                   Sample.Item_to_dict "b"]);
               ("license", JStr "CC-BY")]
              [Sample.Item_to_dict "a"; Sample.Item_to_dict "b"])
    as (c & h' & le & Hrun & _ & Hitems & Hef & _ & Hextra).
  - reflexivity.
  - apply sample_identify_feature_collection.
  - reflexivity.
  - reflexivity.
  - intros h v fj Hfj Hrep.
    assert (Hst : exists st, fj = Sample.Item_to_dict st).
    { apply elem_of_cons in Hfj as [->|Hfj]; [by exists "a"|].
      apply list_elem_of_singleton in Hfj as ->. by exists "b". }
    destruct Hst as [st ->].
    destruct (sample_item_roundtrip h v st Hrep) as (st' & Hst' & _).
    by exists st'.
  - exists c, h', le. split; [exact Hrun|].
    split; [unfold __len__; symmetry; exact (Forall2_length _ _ _ Hitems)|].
    split; [exact Hef | exact Hextra].
Defined.

(** X20 on a collection that holds the same Item twice. *)
Lemma clone_items_new_witness :
  let h : sample_heap := [OItem "a"; ODict []] in
  let c := {| items := [0; 0]; extra_fields := VRef 1 |} in
  exists c' h', sample_clone c h = (Ok c', h') /\
    __len__ c' = 2 /\ NoDup (items c') /\
    (forall x, __contains__ c x = true -> __contains__ c' x = false).
Proof.
  intros h c.
  apply (clone_items_new Sample.ItemState Sample.ItemExn Sample.IOExn
           Sample.Item_clone Sample.Item_from_dict c h []).
  - intros [|[|l]] o; simpl; intros [= <-]; simpl; repeat constructor.
  - repeat constructor; by exists "a".
  - exists 1. split; [done|]. split; [done|]. apply NoDup_nil_2.
Defined.

(** X21 on two extra fields that hold the same list. *)
Lemma clone_keeps_sharing_witness :
  let kvs := [("bands", VRef 1); ("eo:bands", VRef 1)] in
  let h : sample_heap := [ODict kvs; OList [VInt 1]] in
  let c := {| items := []; extra_fields := VRef 0 |} in
  exists c' h' le' kvs' a',
    sample_clone c h = (Ok c', h') /\ extra_fields c' = VRef le' /\
    h' !! le' = Some (ODict kvs') /\
    dict_get "bands" kvs' = Some (VRef a') /\
    dict_get "eo:bands" kvs' = Some (VRef a') /\ length h <= a'.
Proof.
  intros kvs h c.
  destruct (clone_keeps_sharing Sample.ItemState Sample.ItemExn Sample.IOExn
              Sample.Item_clone Sample.Item_from_dict c h kvs
              "bands" "eo:bands" 1)
    as (c' & h' & le' & kvs' & a' & Hrun & Hef & Hle & Hk1 & Hk2 & Ha & _).
  - intros [|[|l]] o; simpl; intros [= <-]; simpl; repeat constructor.
  - constructor.
  - exists 0. split; [done|]. split; [done|].
    unfold dict_keys. simpl. apply NoDup_cons. split; [|apply NoDup_singleton].
    by intros ?%list_elem_of_singleton.
  - reflexivity.
  - reflexivity.
  - exists c', h', le', kvs', a'. repeat (split; [done|]). done.
Defined.

(** X22 on a dictionary without features whose type comes last. *)
Lemma from_dict_to_dict_witness :
  let kvs := [("license", VStr "CC-BY"); ("type", VStr "FeatureCollection")] in
  let h : sample_heap := [ODict kvs] in
  let c := {| items := []; extra_fields := VRef 2 |} in
  let h1 := h ++ [OList []; ODict [("license", VStr "CC-BY")]] in
  sample_from_dict (VRef 0) h = (Ok c, h1) /\
  exists l lf h2,
    sample_to_dict c h1 = (Ok (VRef l), h2) /\
    h2 !! l = Some (ODict [("type", VStr "FeatureCollection");
                           ("features", VRef lf);
                           ("license", VStr "CC-BY")]) /\
    h2 !! lf = Some (OList []).
Proof.
  intros kvs h c h1.
  assert (Hrun : sample_from_dict (VRef 0) h = (Ok c, h1)) by reflexivity.
  split; [exact Hrun|].
  destruct (from_dict_to_dict Sample.ItemState Sample.ItemExn Sample.IOExn
              Sample.Item_to_dict Sample.Item_clone Sample.Item_from_dict
              Sample.identify_stac_object_type (VRef 0) h c h1 kvs Hrun)
    as (l & lf & feats & h2 & Hrun2 & _ & _ & Hl & Hlf & Hfeats).
  - exists 0. split; [done|]. split; [done|].
    unfold dict_keys. simpl. apply NoDup_cons. split; [|apply NoDup_singleton].
    by intros ?%list_elem_of_singleton.
  - apply Forall2_nil_inv_l in Hfeats as ->.
    exists l, lf, h2. split; [exact Hrun2|]. split; [exact Hl | exact Hlf].
Defined.
